(** * A shallow embedding of the sharedb-tutorial OT engine

    The development follows the layout of the repository:

    - [Js]           the fragment of JavaScript values the code manipulates
                     (numbers, strings, JSON-like objects,
                     [String.prototype.slice], [ToInt32], the JSON round trip
                     used for deep copies);
    - [Error]        [src/core/error.ts]: the error codes, and calls that
                     return or throw;
    - [Types]        the [OTType] interface and the [TypeRegistry] of
                     [src/core/types.ts];
    - [CounterType]  [src/types/counter.ts];
    - [TextType]     [src/types/text.ts];
    - [OT]           the snapshot record and [checkOp], [apply], [transform]
                     of [src/core/ot.ts];
    - [Registered]   the two types as the registry holds them;
    - [Server]       the in-memory store and the commit loop [submitOp];
    - [Client]       the connection and the replica [Doc];
    - [Backend]      the subscription index of the backend;
    - [Samples]      the operations and scenarios the examples use.

    Definitions come first; the theorems about them follow. *)

From Stdlib Require Import ZArith QArith Qround String Ascii List Lia.
From stdpp Require Import base gmap strings list.

Open Scope Z_scope.
Set Warnings "-register-all".

(* ===================================================================== *)
(** * JavaScript values *)
(* ===================================================================== *)

Module Js.

(** A JavaScript [number].  Finite doubles are rationals; the
    arithmetic done on them here ([| 0]) is exact, so a finite number is modelled by
    the rational it denotes. *)
Inductive JsNum :=
| NaN
| Infinity (negative : bool)
| Finite (q : Q).

(** JSON-like values: what travels in op payloads and snapshots. *)
Inductive JsVal :=
| JUndefined
| JNull
| JBool (b : bool)
| JNum (n : JsNum)
| JStr (s : string)
| JArr (elems : list JsVal)
| JObj (props : list (string * JsVal)).

Definition JInt (z : Z) : JsVal := JNum (Finite (inject_Z z)).

(** [x == null] *)
Definition is_nullish (x : JsVal) : bool :=
  match x with
  | JUndefined | JNull => true
  | _ => false
  end.

(** [typeof x === 'object'] for a value that is not [null]. *)
Definition typeof_object (x : JsVal) : bool :=
  match x with
  | JNull | JArr _ | JObj _ => true
  | _ => false
  end.

Definition typeof_string (x : JsVal) : bool :=
  match x with JStr _ => true | _ => false end.

Definition typeof_number (x : JsVal) : bool :=
  match x with JNum _ => true | _ => false end.

(** Truthiness, as tested by [if (x)] and [x && ...]. *)
Definition truthy (x : JsVal) : bool :=
  match x with
  | JUndefined | JNull => false
  | JBool b => b
  | JNum NaN => false
  | JNum (Infinity _) => true
  | JNum (Finite q) => negb (Qeq_bool q 0)
  | JStr s => negb (String.eqb s "")
  | JArr _ | JObj _ => true
  end.

(** Property read [o.k] on a non-nullish value, for the property names the
    code uses ([type], [data]); arrays and primitives have none of them. *)
Fixpoint assoc (k : string) (props : list (string * JsVal)) : option JsVal :=
  match props with
  | [] => None
  | (k', x) :: rest => if String.eqb k k' then Some x else assoc k rest
  end.

Definition get_prop (o : JsVal) (k : string) : JsVal :=
  match o with
  | JObj props => default JUndefined (assoc k props)
  | _ => JUndefined
  end.

(** [a === b] on numbers. *)
Definition num_strict_eq (a b : JsNum) : bool :=
  match a, b with
  | Finite p, Finite q => Qeq_bool p q
  | Infinity s, Infinity t => Bool.eqb s t
  | _, _ => false
  end.

(** [a === b].  Objects and arrays compare by reference; every place that
    compares values here (op identity [src]/[seq], the literal [true])
    compares a freshly parsed copy against a stored one, so two objects are
    never the same reference. *)
Definition strict_eq (a b : JsVal) : bool :=
  match a, b with
  | JUndefined, JUndefined => true
  | JNull, JNull => true
  | JBool x, JBool y => Bool.eqb x y
  | JNum x, JNum y => num_strict_eq x y
  | JStr x, JStr y => String.eqb x y
  | _, _ => false
  end.

(** [ToInt32] of a number, the conversion behind [x | 0]: drop the
    fraction (towards zero), then wrap into the signed 32-bit range. *)
Definition truncate (q : Q) : Z := Z.quot (Qnum q) (Z.pos (Qden q)).

Definition wrap_int32 (z : Z) : Z := (z + 2 ^ 31) mod 2 ^ 32 - 2 ^ 31.

Definition ToInt32 (n : JsNum) : Z :=
  match n with
  | NaN | Infinity _ => 0
  | Finite q => wrap_int32 (truncate q)
  end.

(** [String.prototype.slice(start, end)] with integral arguments; an absent
    [end] is [None]. *)
Definition relative_index (k len : Z) : Z :=
  if k <? 0 then Z.max (len + k) 0 else Z.min k len.

Definition slice (s : string) (start : Z) (end_ : option Z) : string :=
  let len := Z.of_nat (String.length s) in
  let from := relative_index start len in
  let to := match end_ with
            | None => len
            | Some e => relative_index e len
            end in
  substring (Z.to_nat from) (Z.to_nat (Z.max (to - from) 0)) s.

(** [JSON.parse(JSON.stringify(x))].  [None] stands for a value that
    [JSON.stringify] leaves out ([undefined]): an object property holding it
    disappears, an array element holding it becomes [null].  Numbers that
    are not finite become [null]. *)
Fixpoint json_roundtrip (x : JsVal) : option JsVal :=
  match x with
  | JUndefined => None
  | JNull => Some JNull
  | JBool b => Some (JBool b)
  | JNum (Finite q) => Some (JNum (Finite q))
  | JNum _ => Some JNull
  | JStr s => Some (JStr s)
  | JArr elems =>
      Some (JArr ((fix go (l : list JsVal) : list JsVal :=
                     match l with
                     | [] => []
                     | y :: l' => default JNull (json_roundtrip y) :: go l'
                     end) elems))
  | JObj props =>
      Some (JObj ((fix go (l : list (string * JsVal)) : list (string * JsVal) :=
                     match l with
                     | [] => []
                     | (k, y) :: l' =>
                         match json_roundtrip y with
                         | Some y' => (k, y') :: go l'
                         | None => go l'
                         end
                     end) props))
  end.

End Js.

(* ===================================================================== *)
(** * [src/core/error.ts]: error codes, and the outcome of a call *)
(* ===================================================================== *)

Module Error.

Inductive ErrorCode :=
| ERR_APPLY_OP_VERSION_DOES_NOT_MATCH_SNAPSHOT
| ERR_APPLY_SNAPSHOT_NOT_PROVIDED
| ERR_DOC_ALREADY_CREATED
| ERR_DOC_DOES_NOT_EXIST
| ERR_DOC_TYPE_NOT_RECOGNIZED
| ERR_DOC_WAS_DELETED
| ERR_OT_OP_BADLY_FORMED
| ERR_OT_OP_NOT_APPLIED
| ERR_OT_OP_NOT_PROVIDED
| ERR_OP_VERSION_MISMATCH_DURING_TRANSFORM
| ERR_OP_ALREADY_SUBMITTED
| ERR_SUBMIT_TRANSFORM_OPS_NOT_FOUND
| ERR_MAX_SUBMIT_RETRIES_EXCEEDED
| ERR_CONNECTION_CLOSED
| ERR_CONNECTION_SEQ_INTEGER_OVERFLOW.

(** What a call can throw: an [OTError] with its code (the message is not
    modelled), or, from the code of a registered type, the outcome of
    handing it a payload outside its declared TypeScript type.  JavaScript
    would coerce such a payload or raise a [TypeError]; the model does not
    follow it there and says so with [IllTypedPayload]. *)
Inductive Exception :=
| OTError (code : ErrorCode)
| IllTypedPayload.

(** A call either returns or throws. *)
Inductive Result (A : Type) :=
| Return (a : A)
| Throw (e : Exception).
Arguments Return {A} a.
Arguments Throw {A} e.

Definition bind {A B} (k : A -> Result B) (r : Result A) : Result B :=
  match r with
  | Return a => k a
  | Throw e => Throw e
  end.

Definition returned {A} (r : Result A) : bool :=
  match r with Return _ => true | Throw _ => false end.

End Error.

#[export] Instance Result_bind : MBind Error.Result := @Error.bind.
#[export] Instance Result_ret : MRet Error.Result := @Error.Return.

(** [if (!b) throw new OTError(code, ...)] *)
Definition guard_or_throw (b : bool) (code : Error.ErrorCode) : Error.Result unit :=
  if b then Error.Return tt else Error.Throw (Error.OTError code).

(* ===================================================================== *)
(** * [src/core/types.ts]: the [OTType] interface and the registry *)
(* ===================================================================== *)

Module Types.
Import Js Error.

Inductive Side := left | right.

(** [OTType<unknown, unknown>]: the three mandatory operations, on untyped
    payloads.  Each may throw. *)
Record OTType := {
  name : string;
  uri : string;
  create : JsVal -> Result JsVal;
  apply : JsVal -> JsVal -> Result JsVal;
  transform : JsVal -> JsVal -> Side -> Result JsVal;
}.

(** [TypeRegistry]: a [Map<string, OTType>] and the default type. *)
Record TypeRegistry := {
  types : gmap string OTType;
  defaultType : option OTType;
}.

Definition empty : TypeRegistry := {| types := ∅; defaultType := None |}.

Definition register (type : OTType) (r : TypeRegistry) : TypeRegistry :=
  {| types := <[uri type := type]> (<[name type := type]> (types r));
     defaultType := match defaultType r with
                    | None => Some type
                    | Some d => Some d
                    end |}.

Definition get (r : TypeRegistry) (nameOrUri : string) : option OTType :=
  types r !! nameOrUri.

Definition has (r : TypeRegistry) (nameOrUri : string) : bool :=
  bool_decide (is_Some (types r !! nameOrUri)).

End Types.

(* ===================================================================== *)
(** * [src/types/counter.ts]: the counter type *)
(* ===================================================================== *)

Module CounterType.
Import Js.

(** [(data as number) | 0] on the inputs the cast names: a number, or
    nothing at all ([undefined], whose [ToNumber] is [NaN]). *)
Definition create (data : option JsNum) : Z :=
  match data with
  | None => ToInt32 NaN
  | Some n => ToInt32 n
  end.

(** Counter snapshots and deltas are integers from here on. *)
Definition apply (snapshot op : Z) : Z := snapshot + op.

Definition transform (op1 _op2 : Z) (_side : Types.Side) : Z := op1.

Definition compose (op1 op2 : Z) : Z := op1 + op2.

Definition invert (op : Z) : Z := - op.

End CounterType.

(* ===================================================================== *)
(** * [src/types/text.ts]: the simple-text type *)
(* ===================================================================== *)

Module TextType.
Import Js Types.

(** Text snapshot is a string *)
Definition TextSnapshot := string.

(** [InsertOp | DeleteOp]; positions and counts are integral numbers. *)
Inductive TextOp :=
| InsertOp (pos : Z) (text : string)
| DeleteOp (pos : Z) (count : Z).

Definition isInsertOp (op : TextOp) : bool :=
  match op with InsertOp _ _ => true | DeleteOp _ _ => false end.

Definition isDeleteOp (op : TextOp) : bool :=
  match op with DeleteOp _ _ => true | InsertOp _ _ => false end.

Definition pos (op : TextOp) : Z :=
  match op with InsertOp p _ => p | DeleteOp p _ => p end.

(** [result.pos = p] *)
Definition set_pos (op : TextOp) (p : Z) : TextOp :=
  match op with
  | InsertOp _ t => InsertOp p t
  | DeleteOp _ c => DeleteOp p c
  end.

Definition is_right (side : Side) : bool :=
  match side with right => true | left => false end.

Definition create (data : JsVal) : TextSnapshot :=
  match data with
  | JStr s => s
  | _ => ""
  end.

Definition apply (snapshot : TextSnapshot) (op : TextOp) : TextSnapshot :=
  match op with
  | InsertOp p text =>
      let before := slice snapshot 0 (Some p) in
      let after := slice snapshot p None in
      before +:+ text +:+ after
  | DeleteOp p count =>
      let before := slice snapshot 0 (Some p) in
      let after := slice snapshot (p + count) None in
      before +:+ after
  end.

Definition transform (op1 op2 : TextOp) (side : Side) : TextOp :=
  let result := op1 in
  match op2 with
  | InsertOp pos2 text2 =>
      let insertedLength := Z.of_nat (String.length text2) in
      if (pos2 <? pos result) || ((pos2 =? pos result) && is_right side)
      then set_pos result (pos result + insertedLength)
      else result
  | DeleteOp pos2 count2 =>
      let deleteStart := pos2 in
      let deleteEnd := pos2 + count2 in
      match result with
      | InsertOp p t =>
          if deleteEnd <=? p then InsertOp (p - count2) t
          else if deleteStart <? p then InsertOp deleteStart t
          else result
      | DeleteOp p c =>
          let ourStart := p in
          let ourEnd := p + c in
          if deleteEnd <=? ourStart then DeleteOp (p - count2) c
          else if deleteStart >=? ourEnd then result
          else if deleteStart <=? ourStart then
            if deleteEnd >=? ourEnd then DeleteOp deleteStart 0
            else
              let overlap := deleteEnd - ourStart in
              DeleteOp deleteStart (c - overlap)
          else
            if deleteEnd >=? ourEnd then
              let overlap := ourEnd - deleteStart in
              DeleteOp p (c - overlap)
            else DeleteOp p (c - count2)
      end
  end.

(** [invert(op)].  The inverse of a delete is an insert of [count]
    placeholder characters; ['?'.repeat(count)] throws a [RangeError] for a
    negative count, which is [None] here. *)
Definition invert (op : TextOp) : option TextOp :=
  match op with
  | InsertOp p text => Some (DeleteOp p (Z.of_nat (String.length text)))
  | DeleteOp p count =>
      if count <? 0 then None
      else Some (InsertOp p (string_of_list_ascii (repeat "?"%char (Z.to_nat count))))
  end.

(** An operation is valid on a snapshot when it addresses characters the
    snapshot has. *)
Definition valid (s : TextSnapshot) (op : TextOp) : Prop :=
  match op with
  | InsertOp p _ => 0 <= p <= Z.of_nat (String.length s)
  | DeleteOp p c => 0 <= p /\ 0 <= c /\ p + c <= Z.of_nat (String.length s)
  end.

(** The convergence equation of the [OTType] interface at [s], [a], [b]. *)
Definition TP1 (s : TextSnapshot) (a b : TextOp) : Prop :=
  apply (apply s a) (transform b a right) = apply (apply s b) (transform a b left).

End TextType.


(* ===================================================================== *)
(** * [src/core/snapshot.ts] and [src/core/ot.ts]: the OT kernel *)
(* ===================================================================== *)

Module OT.
Import Js Error.

(** ** Snapshots *)

Record Snapshot := {
  snap_id : string;
  snap_v : Z;
  snap_type : option string;            (* [null] is [None] *)
  snap_data : JsVal;                    (* [undefined] when there is none *)
  snap_m : option (list (string * JsVal));
}.

Definition createEmptySnapshot (id : string) : Snapshot :=
  {| snap_id := id; snap_v := 0; snap_type := None; snap_data := JUndefined;
     snap_m := None |}.

Definition createSnapshot (id : string) (version : Z) (type : string) (data : JsVal)
  : Snapshot :=
  {| snap_id := id; snap_v := version; snap_type := Some type; snap_data := data;
     snap_m := None |}.

Definition cloneSnapshot (snapshot : Snapshot) : Snapshot :=
  {| snap_id := snap_id snapshot;
     snap_v := snap_v snapshot;
     snap_type := snap_type snapshot;
     snap_data := default JUndefined (json_roundtrip (snap_data snapshot));
     snap_m := snap_m snapshot |}.

(** [if (snapshot.type)]: neither [null] nor the empty string. *)
Definition has_type (snapshot : Snapshot) : bool :=
  match snap_type snapshot with
  | Some t => negb (String.eqb t "")
  | None => false
  end.

(** ** Operations

    An op is a JavaScript object; the kernel looks at six of its
    properties.  A property that the object does not have is [None]; a
    property that is there holds a value, which may be [undefined].  The base
    version [v] is a number or absent, as [v?: number] in the declaration of
    [Op] has it; an op whose [v] is [null] is outside the model. *)
Record Op := {
  op_create : option JsVal;
  op_op : option JsVal;
  op_del : option JsVal;
  op_v : option Z;
  op_src : option JsVal;
  op_seq : option JsVal;
}.

(** The value read by [op.k]. *)
Definition read (p : option JsVal) : JsVal := default JUndefined p.

(** ['k' in op] *)
Definition present (p : option JsVal) : bool :=
  match p with Some _ => true | None => false end.

Definition isCreateOp (op : Op) : bool :=
  present (op_create op) && negb (is_nullish (read (op_create op))).

Definition isEditOp (op : Op) : bool := present (op_op op).

Definition isDeleteOp (op : Op) : bool :=
  present (op_del op) && strict_eq (read (op_del op)) (JBool true).

(** The argument of [checkOp] is [unknown]: either something that is not an
    object ([null], [undefined], a primitive), or an object. *)
Inductive Unknown :=
| NotAnObject
| Object (o : Op).

Definition checkOp (types : Types.TypeRegistry) (op : Unknown) : Result unit :=
  match op with
  | NotAnObject => Throw (OTError ERR_OT_OP_BADLY_FORMED)
  | Object opObj =>
      _ ← (if present (op_create opObj) && negb (is_nullish (read (op_create opObj)))
           then
             let create := read (op_create opObj) in
             _ ← guard_or_throw (typeof_object create) ERR_OT_OP_BADLY_FORMED;
             match get_prop create "type" with
             | JStr type =>
                 guard_or_throw (Types.has types type) ERR_DOC_TYPE_NOT_RECOGNIZED
             | _ => Throw (OTError ERR_OT_OP_BADLY_FORMED)
             end
           else if present (op_del opObj) && negb (is_nullish (read (op_del opObj)))
           then
             guard_or_throw (strict_eq (read (op_del opObj)) (JBool true))
                            ERR_OT_OP_BADLY_FORMED
           else
             guard_or_throw (present (op_op opObj)) ERR_OT_OP_BADLY_FORMED);
      let src := read (op_src opObj) in
      let seq := read (op_seq opObj) in
      _ ← guard_or_throw (negb (negb (is_nullish src) && negb (typeof_string src)))
                         ERR_OT_OP_BADLY_FORMED;
      _ ← guard_or_throw (negb (negb (is_nullish seq) && negb (typeof_number seq)))
                         ERR_OT_OP_BADLY_FORMED;
      guard_or_throw
        (negb ((is_nullish src && negb (is_nullish seq))
               || (negb (is_nullish src) && is_nullish seq)))
        ERR_OT_OP_BADLY_FORMED
  end.

(** [types.get(x)] for a value [x] that need not be a string: the registry
    only has string keys. *)
Definition get_type (types : Types.TypeRegistry) (x : JsVal) : option Types.OTType :=
  match x with
  | JStr nameOrUri => Types.get types nameOrUri
  | _ => None
  end.

(** [apply(snapshot, op)].  The function mutates the snapshot; the result is
    the snapshot after the call.  Every assignment to it comes after the
    last statement that can throw, so a call that throws leaves it as it
    was. *)
Definition apply (types : Types.TypeRegistry) (snapshot : Snapshot) (op : Op)
  : Result Snapshot :=
  _ ← guard_or_throw
        (negb (match op_v op with
               | Some v => negb (snap_v snapshot =? v)
               | None => false
               end))
        ERR_APPLY_OP_VERSION_DOES_NOT_MATCH_SNAPSHOT;
  if isCreateOp op then
    _ ← guard_or_throw (negb (has_type snapshot)) ERR_DOC_ALREADY_CREATED;
    let create := read (op_create op) in
    match get_type types (get_prop create "type") with
    | None => Throw (OTError ERR_DOC_TYPE_NOT_RECOGNIZED)
    | Some type =>
        data ← Types.create type (get_prop create "data");
        Return {| snap_id := snap_id snapshot;
                  snap_v := snap_v snapshot + 1;
                  snap_type := Some (Types.uri type);
                  snap_data := data;
                  snap_m := snap_m snapshot |}
    end
  else if isDeleteOp op then
    Return {| snap_id := snap_id snapshot;
              snap_v := snap_v snapshot + 1;
              snap_type := None;
              snap_data := JUndefined;
              snap_m := snap_m snapshot |}
  else if isEditOp op then
    _ ← guard_or_throw (has_type snapshot) ERR_DOC_DOES_NOT_EXIST;
    _ ← guard_or_throw (negb (strict_eq (read (op_op op)) JUndefined))
                       ERR_OT_OP_NOT_PROVIDED;
    match get_type types (JStr (default "" (snap_type snapshot))) with
    | None => Throw (OTError ERR_DOC_TYPE_NOT_RECOGNIZED)
    | Some type =>
        data ← Types.apply type (snap_data snapshot) (read (op_op op));
        Return {| snap_id := snap_id snapshot;
                  snap_v := snap_v snapshot + 1;
                  snap_type := snap_type snapshot;
                  snap_data := data;
                  snap_m := snap_m snapshot |}
    end
  else
    Return {| snap_id := snap_id snapshot;
              snap_v := snap_v snapshot + 1;
              snap_type := snap_type snapshot;
              snap_data := snap_data snapshot;
              snap_m := snap_m snapshot |}.

(** The first argument of [transform]: [OTType | string | null]. *)
Inductive TypeArg :=
| TypeNull
| TypeName (nameOrUri : string)
| TypeObject (type : Types.OTType).

(** [!type] *)
Definition no_type (type : TypeArg) : bool :=
  match type with
  | TypeNull => true
  | TypeName s => String.eqb s ""
  | TypeObject _ => false
  end.

Definition set_op (op : Op) (payload : JsVal) : Op :=
  {| op_create := op_create op; op_op := Some payload; op_del := op_del op;
     op_v := op_v op; op_src := op_src op; op_seq := op_seq op |}.

Definition set_v (op : Op) (v : option Z) : Op :=
  {| op_create := op_create op; op_op := op_op op; op_del := op_del op;
     op_v := v; op_src := op_src op; op_seq := op_seq op |}.

(** [if (op.v != null) op.v++] *)
Definition increment_v (op : Op) : Op := set_v op ((fun v => v + 1) <$> op_v op).

(** [transform(type, op, appliedOp)].  The function mutates [op]; the
    result is [op] after the call.  A call that throws has not yet written
    to it. *)
Definition transform (types : Types.TypeRegistry) (type : TypeArg) (op appliedOp : Op)
  : Result Op :=
  _ ← guard_or_throw
        (negb (match op_v op, op_v appliedOp with
               | Some v, Some v' => negb (v =? v')
               | _, _ => false
               end))
        ERR_OP_VERSION_MISMATCH_DURING_TRANSFORM;
  op' ← (if isDeleteOp appliedOp then
           if isCreateOp op || isEditOp op
           then Throw (OTError ERR_DOC_WAS_DELETED)
           else Return op
         else if isCreateOp appliedOp && (isEditOp op || isCreateOp op || isDeleteOp op)
         then Throw (OTError ERR_DOC_ALREADY_CREATED)
         else if isEditOp appliedOp && isCreateOp op
         then Throw (OTError ERR_DOC_ALREADY_CREATED)
         else if isEditOp appliedOp && isEditOp op then
           _ ← guard_or_throw (negb (no_type type)) ERR_DOC_DOES_NOT_EXIST;
           resolvedType ← match type with
                          | TypeName s =>
                              match Types.get types s with
                              | None => Throw (OTError ERR_DOC_TYPE_NOT_RECOGNIZED)
                              | Some t => Return t
                              end
                          | TypeObject t => Return t
                          | TypeNull => Throw (OTError ERR_DOC_DOES_NOT_EXIST)
                          end;
           payload ← Types.transform resolvedType (read (op_op op))
                                     (read (op_op appliedOp)) Types.left;
           Return (set_op op payload)
         else Return op);
  Return (increment_v op').

(** ** Shapes

    The vocabulary of the statements about [checkOp] and [transform]. *)

(** The op carries a [del] field: ['del' in op && op.del != null]. *)
Definition carries_del (op : Op) : bool :=
  present (op_del op) && negb (is_nullish (read (op_del op))).

(** How many of the three shapes the op carries. *)
Definition shapes (op : Op) : nat :=
  Nat.b2n (isCreateOp op) + Nat.b2n (carries_del op) + Nat.b2n (isEditOp op).

(** A Delete operation: [del: true] and neither of the other two fields. *)
Definition is_delete_only (op : Op) : Prop :=
  isDeleteOp op = true /\ isCreateOp op = false /\ isEditOp op = false.

(** A Create operation: a [create] field and neither of the other two. *)
Definition is_create_only (op : Op) : Prop :=
  isCreateOp op = true /\ isDeleteOp op = false /\ isEditOp op = false.

(** An Edit operation: an [op] field and neither of the other two. *)
Definition is_edit_only (op : Op) : Prop :=
  isEditOp op = true /\ isCreateOp op = false /\ isDeleteOp op = false.

(** The shape with none of the three fields. *)
Definition is_noop (op : Op) : Prop :=
  isCreateOp op = false /\ isDeleteOp op = false /\ isEditOp op = false.

(** The version precondition of [transform]. *)
Definition versions_agree (op appliedOp : Op) : Prop :=
  forall v v', op_v op = Some v -> op_v appliedOp = Some v' -> v = v'.

(** [op] with other [del] and [op] fields. *)
Definition with_del_op (op : Op) (del payload : option JsVal) : Op :=
  {| op_create := op_create op; op_op := payload; op_del := del;
     op_v := op_v op; op_src := op_src op; op_seq := op_seq op |}.

End OT.

(* ===================================================================== *)
(** * The registered types

    [types.register(counterType)] and [types.register(textType)] store the
    two reference types as [OTType<unknown, unknown>].  A payload that
    inhabits the declared TypeScript type is decoded and handed to the typed
    code above; any other payload yields [IllTypedPayload]. *)
(* ===================================================================== *)

Module Registered.
Import Js Error.

(** An integral number. *)
Definition as_int (x : JsVal) : option Z :=
  match x with
  | JNum (Finite q) =>
      if Qeq_bool q (inject_Z (Qfloor q)) then Some (Qfloor q) else None
  | _ => None
  end.

Definition as_text_op (x : JsVal) : option TextType.TextOp :=
  match get_prop x "type" with
  | JStr "insert" =>
      match as_int (get_prop x "pos"), get_prop x "text" with
      | Some p, JStr t => Some (TextType.InsertOp p t)
      | _, _ => None
      end
  | JStr "delete" =>
      match as_int (get_prop x "pos"), as_int (get_prop x "count") with
      | Some p, Some c => Some (TextType.DeleteOp p c)
      | _, _ => None
      end
  | _ => None
  end.

Definition of_text_op (op : TextType.TextOp) : JsVal :=
  match op with
  | TextType.InsertOp p t =>
      JObj [("type", JStr "insert"); ("pos", JInt p); ("text", JStr t)]
  | TextType.DeleteOp p c =>
      JObj [("type", JStr "delete"); ("pos", JInt p); ("count", JInt c)]
  end.

Definition counterType : Types.OTType :=
  {| Types.name := "counter";
     Types.uri := "http://sharejs.org/types/counter";
     Types.create := fun data =>
       match data with
       | JUndefined => Return (JInt (CounterType.create None))
       | JNum n => Return (JInt (CounterType.create (Some n)))
       | _ => Throw IllTypedPayload
       end;
     Types.apply := fun snapshot op =>
       match as_int snapshot, as_int op with
       | Some s, Some d => Return (JInt (CounterType.apply s d))
       | _, _ => Throw IllTypedPayload
       end;
     Types.transform := fun op1 op2 side =>
       match as_int op1, as_int op2 with
       | Some a, Some b => Return (JInt (CounterType.transform a b side))
       | _, _ => Throw IllTypedPayload
       end |}.

Definition textType : Types.OTType :=
  {| Types.name := "simple-text";
     Types.uri := "http://sharejs.org/types/simple-text";
     Types.create := fun data => Return (JStr (TextType.create data));
     Types.apply := fun snapshot op =>
       match snapshot, as_text_op op with
       | JStr s, Some o => Return (JStr (TextType.apply s o))
       | _, _ => Throw IllTypedPayload
       end;
     Types.transform := fun op1 op2 side =>
       match as_text_op op1, as_text_op op2 with
       | Some a, Some b => Return (of_text_op (TextType.transform a b side))
       | _, _ => Throw IllTypedPayload
       end |}.

(** The global registry [types] after both modules have been loaded. *)
Definition types : Types.TypeRegistry :=
  Types.register textType (Types.register counterType Types.empty).

End Registered.

(* ===================================================================== *)
(** * The server: the in-memory store and the commit loop *)
(* ===================================================================== *)

Module Server.
Import Js Error OT.

(** ** [MemoryDb] *)

(** [StoredOp = Op & { c, d, m: { ts } }] *)
Record StoredOp := {
  stored_op : Op;
  stored_c : string;
  stored_d : string;
  stored_ts : Z;
}.

(** [Map<string, Map<string, Snapshot>>] and [Map<string, Map<string, StoredOp[]>>] *)
Record MemoryDb := {
  snapshots : gmap string (gmap string Snapshot);
  ops : gmap string (gmap string (list StoredOp));
}.

Definition new_MemoryDb : MemoryDb := {| snapshots := ∅; ops := ∅ |}.

(** [this.snapshots.get(collection)?.get(id)] *)
Definition stored_snapshot (db : MemoryDb) (collection id : string) : option Snapshot :=
  snapshots db !! collection ≫= (fun collectionSnapshots => collectionSnapshots !! id).

(** [this.ops.get(collection)?.get(id) || []] *)
Definition docOps (db : MemoryDb) (collection id : string) : list StoredOp :=
  default [] (ops db !! collection ≫= (fun collectionOps => collectionOps !! id)).

Definition getSnapshot (db : MemoryDb) (collection id : string) : Snapshot :=
  match stored_snapshot db collection id with
  | Some snapshot => cloneSnapshot snapshot
  | None => createEmptySnapshot id
  end.

(** The filter of [getOps]: [v >= fromVersion && (toVersion === undefined || v < toVersion)],
    false when the entry has no [v]. *)
Definition in_range (fromVersion : Z) (toVersion : option Z) (h : StoredOp) : bool :=
  match op_v (stored_op h) with
  | Some v =>
      (v >=? fromVersion)
      && match toVersion with
         | None => true
         | Some t => v <? t
         end
  | None => false
  end.

Definition getOps (db : MemoryDb) (collection id : string)
    (fromVersion : Z) (toVersion : option Z) : list StoredOp :=
  List.filter (in_range fromVersion toVersion) (docOps db collection id).

(** [get or create collection maps] *)
Definition ensure_collection {A} (m : gmap string (gmap string A)) (collection : string)
  : gmap string (gmap string A) :=
  match m !! collection with
  | Some _ => m
  | None => <[collection := ∅]> m
  end.

(** [m.get(collection)!.set(id, x)] *)
Definition set_doc {A} (m : gmap string (gmap string A)) (collection id : string) (x : A)
  : gmap string (gmap string A) :=
  <[collection := <[id := x]> (default ∅ (m !! collection))]> m.

(** [commit(collection, id, op, snapshot)]; [now] is the value of
    [Date.now()].  Returns the store after the call and the boolean. *)
Definition commit (db : MemoryDb) (collection id : string) (op : Op)
    (snapshot : Snapshot) (now : Z) : MemoryDb * bool :=
  let db := {| snapshots := ensure_collection (snapshots db) collection;
               ops := ensure_collection (ops db) collection |} in
  let currentVersion := match stored_snapshot db collection id with
                        | Some currentSnapshot => snap_v currentSnapshot
                        | None => 0
                        end in
  if negb (match op_v op with
           | Some v => v =? currentVersion
           | None => false
           end)
  then (db, false)
  else
    let storedOp := {| stored_op := op; stored_c := collection; stored_d := id;
                       stored_ts := now |} in
    ({| snapshots := set_doc (snapshots db) collection id (cloneSnapshot snapshot);
        ops := set_doc (ops db) collection id (docOps db collection id ++ [storedOp]) |},
     true).

(** ** [submitOp] *)

Record SubmitResult := {
  result_op : Op;
  result_snapshot : Snapshot;
  result_ops : list StoredOp;
}.

(** [JSON.parse(JSON.stringify(op))] on the op envelope: a property whose
    value is [undefined] is dropped. *)
Definition clone_op (op : Op) : Op :=
  {| op_create := op_create op ≫= json_roundtrip;
     op_op := op_op op ≫= json_roundtrip;
     op_del := op_del op ≫= json_roundtrip;
     op_v := op_v op;
     op_src := op_src op ≫= json_roundtrip;
     op_seq := op_seq op ≫= json_roundtrip |}.

(** The duplicate test of the rebase loop:
    [opCopy.src && opCopy.src === historicalOp.src && opCopy.seq === historicalOp.seq] *)
Definition same_submission (opCopy : Op) (historicalOp : StoredOp) : bool :=
  truthy (read (op_src opCopy))
  && strict_eq (read (op_src opCopy)) (read (op_src (stored_op historicalOp)))
  && strict_eq (read (op_seq opCopy)) (read (op_seq (stored_op historicalOp))).

Definition type_arg (snapshot : Snapshot) : TypeArg :=
  match snap_type snapshot with
  | Some t => TypeName t
  | None => TypeNull
  end.

(** [for (const historicalOp of ops) { ... }]: the op after the loop and the
    entries it was transformed against. *)
Fixpoint rebase (types : Types.TypeRegistry) (snapshot : Snapshot) (opCopy : Op)
    (ops transformedOps : list StoredOp) : Result (Op * list StoredOp) :=
  match ops with
  | [] => Return (opCopy, transformedOps)
  | historicalOp :: rest =>
      if same_submission opCopy historicalOp
      then Throw (OTError ERR_OP_ALREADY_SUBMITTED)
      else
        opCopy' ← transform types (type_arg snapshot) opCopy (stored_op historicalOp);
        rebase types snapshot opCopy' rest (transformedOps ++ [historicalOp])
  end.

(** [submitOp] is an [async] function.  Between two [await]s it runs without
    interruption; at an [await] other submissions may run.  A call is
    therefore a task that is resumed step by step.  The store calls
    themselves ([getSnapshot], [getOps], [commit]) have no [await] inside:
    each runs at the moment it is called, and its value is what the task
    holds while it is suspended. *)
Inductive Task :=
| AwaitSnapshot (retries : Z) (snapshot : Snapshot)
| AwaitOps (retries : Z) (snapshot : Snapshot) (opCopy : Op) (ops : list StoredOp)
| AwaitCommit (retries : Z) (opCopy : Op) (newSnapshot : Snapshot)
              (transformedOps : list StoredOp) (committed : bool)
| Done (outcome : Result SubmitResult).

(** A call in progress: its arguments, the caller's [op] object as it is
    now, and where the call stands. *)
Record Submission := {
  sub_collection : string;
  sub_id : string;
  sub_op : Op;
  sub_maxRetries : Z;
  sub_task : Task;
}.

Definition with_task (s : Submission) (op : Op) (t : Task) : Submission :=
  {| sub_collection := sub_collection s; sub_id := sub_id s; sub_op := op;
     sub_maxRetries := sub_maxRetries s; sub_task := t |}.

(** Steps 4 and 5 of the loop body: apply to a clone of the snapshot, then
    call [commit]. *)
Definition apply_and_commit (types : Types.TypeRegistry) (now : Z) (db : MemoryDb)
    (s : Submission) (retries : Z) (snapshot : Snapshot) (opCopy : Op)
    (transformedOps : list StoredOp) : MemoryDb * Submission :=
  let newSnapshot := cloneSnapshot snapshot in
  match apply types newSnapshot opCopy with
  | Throw e => (db, with_task s (sub_op s) (Done (Throw e)))
  | Return newSnapshot =>
      let '(db', committed) :=
        commit db (sub_collection s) (sub_id s) opCopy newSnapshot now in
      (db', with_task s (sub_op s)
                      (AwaitCommit retries opCopy newSnapshot transformedOps committed))
  end.

(** The call itself: everything up to the first [await]. *)
Definition submitOp (types : Types.TypeRegistry) (db : MemoryDb)
    (collection id : string) (op : Op) (maxRetries : option Z) : Submission :=
  let maxRetries := default 10 maxRetries in
  let retries := 0 in
  {| sub_collection := collection; sub_id := id; sub_op := op;
     sub_maxRetries := maxRetries;
     sub_task := match checkOp types (Object op) with
                 | Throw e => Done (Throw e)
                 | Return _ => AwaitSnapshot retries (getSnapshot db collection id)
                 end |}.

(** Resuming the task: everything from one [await] to the next. *)
Definition resume (types : Types.TypeRegistry) (now : Z) (db : MemoryDb)
    (s : Submission) : MemoryDb * Submission :=
  match sub_task s with
  | AwaitSnapshot retries snapshot =>
      let opCopy := clone_op (sub_op s) in
      let opCopy := match op_v opCopy with
                    | None => set_v opCopy (Some (snap_v snapshot))
                    | Some _ => opCopy
                    end in
      let v := default 0 (op_v opCopy) in
      if negb (v =? snap_v snapshot) then
        if v >? snap_v snapshot
        then (db, with_task s (sub_op s) (Done (Throw (OTError ERR_OT_OP_BADLY_FORMED))))
        else
          let ops := getOps db (sub_collection s) (sub_id s) v (Some (snap_v snapshot)) in
          (db, with_task s (sub_op s) (AwaitOps retries snapshot opCopy ops))
      else apply_and_commit types now db s retries snapshot opCopy []
  | AwaitOps retries snapshot opCopy ops =>
      let v := default 0 (op_v opCopy) in
      if negb (Z.of_nat (length ops) =? snap_v snapshot - v)
      then (db, with_task s (sub_op s)
                          (Done (Throw (OTError ERR_SUBMIT_TRANSFORM_OPS_NOT_FOUND))))
      else
        match rebase types snapshot opCopy ops [] with
        | Throw e => (db, with_task s (sub_op s) (Done (Throw e)))
        | Return (opCopy, transformedOps) =>
            apply_and_commit types now db s retries snapshot opCopy transformedOps
        end
  | AwaitCommit retries opCopy newSnapshot transformedOps committed =>
      if committed
      then (db, with_task s (sub_op s)
                          (Done (Return {| result_op := opCopy;
                                           result_snapshot := newSnapshot;
                                           result_ops := transformedOps |})))
      else
        let retries := retries + 1 in
        if retries >? sub_maxRetries s
        then (db, with_task s (sub_op s)
                            (Done (Throw (OTError ERR_MAX_SUBMIT_RETRIES_EXCEEDED))))
        else
          (* op.v = undefined *)
          let op := set_v (sub_op s) None in
          (db, with_task s op
                         (AwaitSnapshot retries
                            (getSnapshot db (sub_collection s) (sub_id s))))
  | Done _ => (db, s)
  end.

(** A submission that runs alone, with nothing else scheduled between its
    steps: resume until it is done. *)
Fixpoint run_alone (types : Types.TypeRegistry) (now : Z) (fuel : nat)
    (db : MemoryDb) (s : Submission) : MemoryDb * Submission :=
  match fuel with
  | O => (db, s)
  | S fuel' =>
      match sub_task s with
      | Done _ => (db, s)
      | _ => let '(db', s') := resume types now db s in
             run_alone types now fuel' db' s'
      end
  end.

(** Each attempt takes at most three steps, and there are at most
    [maxRetries + 1] attempts. *)
Definition enough_fuel (s : Submission) : nat :=
  3 * (Z.to_nat (sub_maxRetries s) + 2).

Definition submitOp_alone (types : Types.TypeRegistry) (now : Z) (db : MemoryDb)
    (collection id : string) (op : Op) (maxRetries : option Z)
  : MemoryDb * Submission :=
  let s := submitOp types db collection id op maxRetries in
  run_alone types now (enough_fuel s) db s.

(** ** The server as a whole

    Any number of submissions, interleaved at their [await]s. *)
Record System := {
  sys_db : MemoryDb;
  sys_submissions : list Submission;
}.

Inductive Event :=
| Call (collection id : string) (op : Op) (maxRetries : option Z)
| Resume (i : nat) (now : Z).

Definition exec (types : Types.TypeRegistry) (sys : System) (ev : Event) : System :=
  match ev with
  | Call collection id op maxRetries =>
      {| sys_db := sys_db sys;
         sys_submissions :=
           sys_submissions sys ++ [submitOp types (sys_db sys) collection id op maxRetries] |}
  | Resume i now =>
      match sys_submissions sys !! i with
      | None => sys
      | Some s =>
          let '(db', s') := resume types now (sys_db sys) s in
          {| sys_db := db'; sys_submissions := <[i := s']> (sys_submissions sys) |}
      end
  end.

Definition initial : System := {| sys_db := new_MemoryDb; sys_submissions := [] |}.

Definition execs (types : Types.TypeRegistry) (sys : System) (evs : list Event) : System :=
  fold_left (exec types) evs sys.

(** ** The shape of the op log *)

(** The base versions recorded in a log, in order. *)
Definition log_versions (log : list StoredOp) : list (option Z) :=
  (fun h => op_v (stored_op h)) <$> log.

(** [[0, 1, ..., n - 1]] *)
Definition versions_upto (n : nat) : list (option Z) :=
  (fun i => Some (Z.of_nat i)) <$> seq 0 n.

(** The log of every document lists the versions from 0 without gap or
    repetition, and the stored snapshot version is the length of the log. *)
Definition log_invariant (db : MemoryDb) : Prop :=
  forall collection id,
    log_versions (docOps db collection id)
      = versions_upto (length (docOps db collection id))
    /\ snap_v (getSnapshot db collection id)
      = Z.of_nat (length (docOps db collection id)).

End Server.

(* ===================================================================== *)
(** * The client: [Connection] and the replica [Doc] *)
(* ===================================================================== *)

Module Client.
Import Js OT.

(** ** Data *)

(** A callback or event listener supplied by the application.  The design
    requires that it does not call back into the replica, so all the model
    keeps of it is a name, and all that running it leaves is a record of the
    call. *)
Definition Callback := nat.

(** [{ code, message }] *)
Record ErrorEnvelope := {
  err_code : string;
  err_message : string;
}.

(** [OpMessage]: the op fields, the document it is for, and the error. *)
Record OpMessage := {
  msg_c : string;
  msg_d : string;
  msg_op : Op;
  msg_error : option ErrorEnvelope;
}.

(** [PendingOp = Op & { type?, callbacks, source? }] *)
Record PendingOp := {
  pending_op : Op;
  pending_type : option Types.OTType;
  pending_callbacks : list (option Callback);
}.

(** [doc.version]: [null] until a snapshot arrives; a number afterwards.
    Arithmetic on a version that is not a number can also produce
    [undefined] and [NaN]. *)
Inductive Version :=
| VNull
| VUndefined
| VNaN
| VNum (v : Z).

(** What the client throws: [new Error(message)], or whatever the code of
    a type threw. *)
Inductive Thrown :=
| JsError (message : string)
| FromType (e : Error.Exception).

(** Messages to the server. *)
Inductive Request :=
| SubscribeRequest (c d : string)
| UnsubscribeRequest (c d : string)
| OpRequest (c d : string) (op : Op).

(** Arguments handed to callbacks and listeners. *)
Inductive Arg :=
| AError (message : string)
| AValue (x : JsVal)
| ABool (b : bool).

(** What a method does to the world outside the replica. *)
Inductive Effect :=
| Invoked (fn : Callback) (args : list Arg)
| Sent (request : Request)
| Warned (text : string).

(** [EventEmitter] registrations. *)
Record Listener := {
  listener_event : string;
  listener_once : bool;
  listener_fn : Callback;
}.

Record Connection := {
  conn_id : string;
  conn_seq : Z;
  conn_canSend : bool;
  conn_transport : bool;       (* a transport has been bound *)
}.

Record Doc := {
  collection : string;
  id : string;
  version : Version;
  type : option Types.OTType;
  data : JsVal;
  subscribed : bool;
  inflightOp : option PendingOp;
  pendingOps : list PendingOp;
  listeners : list Listener;
}.

(** A replica, its connection and the effects so far. *)
Record World := {
  doc : Doc;
  connection : Connection;
  trace : list Effect;
}.

(** ** Methods as state transformers that may throw

    A method changes the world and then either returns or throws; what it
    changed before throwing stays changed. *)

Inductive Outcome (A : Type) :=
| Normal (a : A)
| Abrupt (e : Thrown).
Arguments Normal {A} a.
Arguments Abrupt {A} e.

Definition M (A : Type) : Type := World -> World * Outcome A.

Definition ret {A} (a : A) : M A := fun w => (w, Normal a).

Definition bind {A B} (k : A -> M B) (m : M A) : M B :=
  fun w => match m w with
           | (w', Normal a) => k a w'
           | (w', Abrupt e) => (w', Abrupt e)
           end.

#[export] Instance M_ret : MRet M := @ret.
#[export] Instance M_bind : MBind M := @bind.

Definition throw {A} (e : Thrown) : M A := fun w => (w, Abrupt e).

Definition read_doc : M Doc := fun w => (w, Normal (doc w)).

Definition read_connection : M Connection := fun w => (w, Normal (connection w)).

Definition update_doc (f : Doc -> Doc) : M unit :=
  fun w => ({| doc := f (doc w); connection := connection w; trace := trace w |},
            Normal tt).

Definition update_connection (f : Connection -> Connection) : M unit :=
  fun w => ({| doc := doc w; connection := f (connection w); trace := trace w |},
            Normal tt).

Definition effect (e : Effect) : M unit :=
  fun w => ({| doc := doc w; connection := connection w; trace := trace w ++ [e] |},
            Normal tt).

(** A call into the code of a type. *)
Definition from_type {A} (r : Error.Result A) : M A :=
  match r with
  | Error.Return a => ret a
  | Error.Throw e => throw (FromType e)
  end.

(** [for (const x of xs) body(x)] *)
Fixpoint for_each {A} (xs : list A) (body : A -> M unit) : M unit :=
  match xs with
  | [] => ret tt
  | x :: rest => _ ← body x; for_each rest body
  end.

(** Field assignments. *)
Definition set_version (v : Version) (d : Doc) : Doc :=
  {| collection := collection d; id := id d; version := v; type := type d;
     data := data d; subscribed := subscribed d; inflightOp := inflightOp d;
     pendingOps := pendingOps d; listeners := listeners d |}.

Definition set_type_data (t : option Types.OTType) (x : JsVal) (d : Doc) : Doc :=
  {| collection := collection d; id := id d; version := version d; type := t;
     data := x; subscribed := subscribed d; inflightOp := inflightOp d;
     pendingOps := pendingOps d; listeners := listeners d |}.

Definition set_subscribed (b : bool) (d : Doc) : Doc :=
  {| collection := collection d; id := id d; version := version d; type := type d;
     data := data d; subscribed := b; inflightOp := inflightOp d;
     pendingOps := pendingOps d; listeners := listeners d |}.

Definition set_inflightOp (o : option PendingOp) (d : Doc) : Doc :=
  {| collection := collection d; id := id d; version := version d; type := type d;
     data := data d; subscribed := subscribed d; inflightOp := o;
     pendingOps := pendingOps d; listeners := listeners d |}.

Definition set_pendingOps (l : list PendingOp) (d : Doc) : Doc :=
  {| collection := collection d; id := id d; version := version d; type := type d;
     data := data d; subscribed := subscribed d; inflightOp := inflightOp d;
     pendingOps := l; listeners := listeners d |}.

Definition set_listeners (l : list Listener) (d : Doc) : Doc :=
  {| collection := collection d; id := id d; version := version d; type := type d;
     data := data d; subscribed := subscribed d; inflightOp := inflightOp d;
     pendingOps := pendingOps d; listeners := l |}.

(** [x++] on a version. *)
Definition increment (v : Version) : Version :=
  match v with
  | VNull => VNum 1
  | VUndefined | VNaN => VNaN
  | VNum n => VNum (n + 1)
  end.

(** ** [EventEmitter] *)

Definition listens_to (event : string) (l : Listener) : bool :=
  String.eqb (listener_event l) event.

(** [this.emit(event, ...args)]: the listeners of the event run in the
    order they were added, and those added with [once] are removed.  An
    ['error'] event nobody listens to throws its argument. *)
Definition emit (event : string) (args : list Arg) : M unit :=
  d ← read_doc;
  let called := List.filter (listens_to event) (listeners d) in
  match called, String.eqb event "error", args with
  | [], true, AError message :: _ => throw (JsError message)
  | _, _, _ =>
      _ ← update_doc (set_listeners
                        (List.filter (fun l => negb (listens_to event l && listener_once l))
                                     (listeners d)));
      for_each called (fun l => effect (Invoked (listener_fn l) args))
  end.

(** [this.once(event, callback)] *)
Definition once (event : string) (callback : Callback) : M unit :=
  update_doc (fun d =>
    set_listeners (listeners d ++ [{| listener_event := event; listener_once := true;
                                      listener_fn := callback |}]) d).

(** [callback?.(...args)] *)
Definition call (callback : option Callback) (args : list Arg) : M unit :=
  match callback with
  | Some fn => effect (Invoked fn args)
  | None => ret tt
  end.

(** ** [Connection] *)

(** [connection._send(message)] *)
Definition _send (request : Request) : M unit :=
  c ← read_connection;
  if negb (conn_transport c) then throw (JsError "No transport bound to connection")
  else if negb (conn_canSend c) then throw (JsError "Connection cannot send messages")
  else effect (Sent request).

Definition sendSubscribe : M unit :=
  d ← read_doc; _send (SubscribeRequest (collection d) (id d)).

(** [connection.sendOp(doc, op)]: the message carries [v], [src], [seq] and
    the first of [create], [del], [op] that the op has. *)
Definition sendOp (op : Op) : M unit :=
  d ← read_doc;
  let message :=
    if present (op_create op)
    then {| op_create := op_create op; op_op := None; op_del := None;
            op_v := op_v op; op_src := op_src op; op_seq := op_seq op |}
    else if present (op_del op)
    then {| op_create := None; op_op := None; op_del := Some (JBool true);
            op_v := op_v op; op_src := op_src op; op_seq := op_seq op |}
    else if present (op_op op)
    then {| op_create := None; op_op := op_op op; op_del := None;
            op_v := op_v op; op_src := op_src op; op_seq := op_seq op |}
    else {| op_create := None; op_op := None; op_del := None;
            op_v := op_v op; op_src := op_src op; op_seq := op_seq op |} in
  _send (OpRequest (collection d) (id d) message).

(** ** [transformX] *)

Definition set_payload (p : PendingOp) (payload : JsVal) : PendingOp :=
  {| pending_op := set_op (pending_op p) payload; pending_type := pending_type p;
     pending_callbacks := pending_callbacks p |}.

(** [transformX(client, server)] mutates both arguments; it returns them as
    they are after the call, with the [Error] it returns, if any.  It throws
    when the [transform] of the type does. *)
Definition transformX (client : PendingOp) (server : OpMessage)
  : Error.Result (PendingOp * OpMessage * option string) :=
  let c := pending_op client in
  let s := msg_op server in
  if present (op_del c) && truthy (read (op_del c)) then
    Error.Return
      (client,
       {| msg_c := msg_c server; msg_d := msg_d server;
          msg_op := {| op_create := None; op_op := None; op_del := None;
                       op_v := op_v s; op_src := op_src s; op_seq := op_seq s |};
          msg_error := msg_error server |},
       None)
  else if truthy (read (op_del s)) then
    Error.Return (client, server, Some "Document was deleted"%string)
  else if truthy (read (op_create s)) then
    Error.Return (client, server, Some "Document already created"%string)
  else if negb (present (op_op s)) || strict_eq (read (op_op s)) JUndefined then
    Error.Return (client, server, None)
  else if present (op_create c) && truthy (read (op_create c)) then
    Error.Return (client, server, Some "Document already created"%string)
  else
    match present (op_op c), pending_type client with
    | true, Some type =>
        clientOp ← Types.transform type (read (op_op c)) (read (op_op s)) Types.left;
        serverOp ← Types.transform type (read (op_op s)) (read (op_op c)) Types.right;
        Error.Return
          (set_payload client clientOp,
           {| msg_c := msg_c server; msg_d := msg_d server;
              msg_op := set_op s serverOp; msg_error := msg_error server |},
           None)
    | _, _ => Error.Return (client, server, None)
    end.

(** ** [Doc] *)

(** [subscribe(callback?)] *)
Definition subscribe (callback : option Callback) : M unit :=
  d ← read_doc;
  if subscribed d then call callback []
  else
    c ← read_connection;
    _ ← (if conn_canSend c then sendSubscribe else ret tt);
    match callback with
    | Some fn => once "subscribe" fn
    | None => ret tt
    end.

(** [flush()] *)
Definition flush : M unit :=
  d ← read_doc;
  c ← read_connection;
  if negb (conn_canSend c) || bool_decide (is_Some (inflightOp d)) then ret tt
  else
    match pendingOps d with
    | [] => ret tt
    | first :: rest =>
        let op := pending_op first in
        let fresh_seq := strict_eq (read (op_seq op)) JUndefined in
        let seq := if fresh_seq then Some (JInt (conn_seq c)) else op_seq op in
        _ ← (if fresh_seq
             then update_connection (fun c =>
                    {| conn_id := conn_id c; conn_seq := conn_seq c + 1;
                       conn_canSend := conn_canSend c;
                       conn_transport := conn_transport c |})
             else ret tt);
        let src := if strict_eq (read (op_src op)) JUndefined
                   then Some (JStr (conn_id c))
                   else op_src op in
        let op := {| op_create := op_create op; op_op := op_op op; op_del := op_del op;
                     op_v := op_v op; op_src := src; op_seq := seq |} in
        let inflight := {| pending_op := op; pending_type := pending_type first;
                           pending_callbacks := pending_callbacks first |} in
        _ ← update_doc (fun d => set_inflightOp (Some inflight) (set_pendingOps rest d));
        sendOp op
    end.

(** [_otApply(op, source)] *)
Definition _otApply (types : Types.TypeRegistry) (op : OpMessage) (source : bool)
  : M unit :=
  let o := msg_op op in
  if negb (strict_eq (read (op_op o)) JUndefined) then
    d ← read_doc;
    match type d with
    | None => emit "error" [AError "Cannot apply op to uncreated document"]
    | Some t =>
        _ ← emit "before op" [AValue (read (op_op o)); ABool source];
        x ← from_type (Types.apply t (data d) (read (op_op o)));
        _ ← update_doc (fun d => set_type_data (type d) x d);
        emit "op" [AValue (read (op_op o)); ABool source]
    end
  else if truthy (read (op_create o)) then
    match get_type types (get_prop (read (op_create o)) "type") with
    | None =>
        (* 'Unknown type: ' + op.create.type, for the string that the
           declaration of the message makes of [type] *)
        emit "error" [AError ("Unknown type: "
                              +:+ match get_prop (read (op_create o)) "type" with
                                  | JStr name => name
                                  | _ => ""
                                  end)]
    | Some t =>
        (* this.type = type; this.data = type.create(op.create.data) *)
        _ ← update_doc (fun d => set_type_data (Some t) (data d) d);
        x ← from_type (Types.create t (get_prop (read (op_create o)) "data"));
        _ ← update_doc (fun d => set_type_data (type d) x d);
        emit "create" [ABool source]
    end
  else if truthy (read (op_del o)) then
    d ← read_doc;
    _ ← update_doc (set_type_data None JUndefined);
    emit "del" [AValue (data d); ABool source]
  else ret tt.

(** [_opAcknowledged(message)] *)
Definition _opAcknowledged (inflight : PendingOp) (message : OpMessage) : M unit :=
  _ ← update_doc (fun d =>
         if present (op_create (pending_op inflight))
            && truthy (read (op_create (pending_op inflight)))
         then set_version (match op_v (msg_op message) with
                           | Some v => VNum v
                           | None => VUndefined
                           end) d
         else set_version (increment (version d)) d);
  _ ← for_each (pending_callbacks inflight) (fun callback => call callback []);
  _ ← update_doc (set_inflightOp None);
  _ ← flush;
  emit "ack" [].

(** [_hardRollback(error)] *)
Definition _hardRollback (error : string) : M unit :=
  d ← read_doc;
  let allOps := match inflightOp d with
                | Some inflight => inflight :: pendingOps d
                | None => pendingOps d
                end in
  _ ← update_doc (fun d =>
         set_version VNull
           (set_type_data None JUndefined (set_pendingOps [] (set_inflightOp None d))));
  _ ← for_each allOps (fun op =>
         for_each (pending_callbacks op) (fun callback => call callback [AError error]));
  _ ← update_doc (set_subscribed false);
  _ ← subscribe None;
  emit "error" [AError error].

(** [_rollback(error)] *)
Definition _rollback (error : string) : M unit := _hardRollback error.

(** The loop of [_handleOp] over [this.pendingOps]: each pending op is
    transformed in place against the message, which changes along the way.
    The result is the message after the loop, or the error that stopped
    it. *)
Fixpoint rebase_pending (done todo : list PendingOp) (message : OpMessage)
  : M (OpMessage + string) :=
  match todo with
  | [] => ret (inl message)
  | pendingOp :: rest =>
      '(pendingOp', message', err) ← from_type (transformX pendingOp message);
      _ ← update_doc (set_pendingOps (done ++ pendingOp' :: rest));
      match err with
      | Some e => ret (inr e)
      | None => rebase_pending (done ++ [pendingOp']) rest message'
      end
  end.

(** [message.v > this.version] and [message.v < this.version], for a
    message version that is a number. *)
Definition version_gt (v : Z) (version : Version) : bool :=
  match version with VNum n => v >? n | _ => false end.

Definition version_lt (v : Z) (version : Version) : bool :=
  match version with VNum n => v <? n | _ => false end.

(** [_handleOp(error, message)], called by the connection as
    [doc._handleOp(message.error, message)]. *)
Definition _handleOp (types : Types.TypeRegistry) (error : option ErrorEnvelope)
    (message : OpMessage) : M unit :=
  d ← read_doc;
  match error with
  | Some error =>
      match inflightOp d with
      | Some _ => _rollback (err_message error)
      | None => emit "error" [AError (err_message error)]
      end
  | None =>
      match inflightOp d with
      | Some inflight =>
          if strict_eq (read (op_src (msg_op message))) (read (op_src (pending_op inflight)))
             && strict_eq (read (op_seq (msg_op message))) (read (op_seq (pending_op inflight)))
          then _opAcknowledged inflight message
          else
            match version d, op_v (msg_op message) with
            | VNull, _ | _, None => ret tt
            | _, Some v =>
                if version_gt v (version d)
                then effect (Warned "Received op from the future, version mismatch")
                else if version_lt v (version d) then ret tt
                else
                  '(inflight', message', err) ← from_type (transformX inflight message);
                  _ ← update_doc (set_inflightOp (Some inflight'));
                  match err with
                  | Some e => _hardRollback e
                  | None =>
                      r ← rebase_pending [] (pendingOps d) message';
                      match r with
                      | inr e => _hardRollback e
                      | inl message'' =>
                          _ ← update_doc (fun d => set_version (increment (version d)) d);
                          _otApply types message'' false
                      end
                  end
            end
      | None =>
          match version d, op_v (msg_op message) with
          | VNull, _ | _, None => ret tt
          | _, Some v =>
              if version_gt v (version d)
              then effect (Warned "Received op from the future, version mismatch")
              else if version_lt v (version d) then ret tt
              else
                r ← rebase_pending [] (pendingOps d) message;
                match r with
                | inr e => _hardRollback e
                | inl message' =>
                    _ ← update_doc (fun d => set_version (increment (version d)) d);
                    _otApply types message' false
                end
          end
      end
  end.

(** [connection._handleOp(message)], for the document the message names. *)
Definition handle_op_message (types : Types.TypeRegistry) (message : OpMessage) : M unit :=
  _handleOp types (msg_error message) message.

(** ** More of [Doc] *)

(** [_ingestSnapshot(snapshot)] *)
Definition _ingestSnapshot (types : Types.TypeRegistry) (snapshot : Snapshot) : M unit :=
  _ ← update_doc (set_version (VNum (snap_v snapshot)));
  match snap_type snapshot with
  | Some name =>
      if truthy (JStr name) then
        match Types.get types name with
        | None => emit "error" [AError ("Unknown type: " +:+ name)]
        | Some t => update_doc (set_type_data (Some t) (snap_data snapshot))
        end
      else update_doc (set_type_data None JUndefined)
  | None => update_doc (set_type_data None JUndefined)
  end.

(** [_handleSubscribe(error, snapshot?)] *)
Definition _handleSubscribe (types : Types.TypeRegistry) (error : option ErrorEnvelope)
    (snapshot : option Snapshot) : M unit :=
  match error with
  | Some error => emit "subscribe" [AError (err_message error)]
  | None =>
      _ ← update_doc (set_subscribed true);
      _ ← match snapshot with
          | Some snapshot => _ingestSnapshot types snapshot
          | None => ret tt
          end;
      _ ← emit "subscribe" [];
      emit "load" []
  end.

(** [_onConnectionStateChanged()] *)
Definition _onConnectionStateChanged : M unit :=
  c ← read_connection;
  if conn_canSend c then flush
  else
    d ← read_doc;
    _ ← match inflightOp d with
        | Some inflight =>
            update_doc (fun d =>
              set_inflightOp None (set_pendingOps (inflight :: pendingOps d) d))
        | None => ret tt
        end;
    update_doc (set_subscribed false).

(** [op as any], where [_otApply] expects a message: [_otApply] reads the
    [op], [create] and [del] fields only. *)
Definition local_message (op : PendingOp) : OpMessage :=
  {| msg_c := ""; msg_d := ""; msg_op := pending_op op; msg_error := None |}.

(** [_submit(op)].  The last statement hands [() => this.flush()] to
    [setTimeout]: the flush runs in a later turn, and is what the method
    returns here. *)
Definition _submit (types : Types.TypeRegistry) (op : PendingOp) : M (M unit) :=
  let o := pending_op op in
  _ ← _otApply types (local_message op) true;
  _ ← (if present (op_create o) && truthy (read (op_create o)) then
         match get_type types (get_prop (read (op_create o)) "type") with
         | Some t =>
             _ ← update_doc (fun d => set_type_data (Some t) (data d) d);
             x ← from_type (Types.create t (get_prop (read (op_create o)) "data"));
             update_doc (fun d => set_type_data (type d) x d)
         | None => ret tt
         end
       else ret tt);
  _ ← update_doc (fun d => set_pendingOps (pendingOps d ++ [op]) d);
  ret flush.

(** [this.inflightOp ? [this.inflightOp, ...this.pendingOps] : this.pendingOps]:
    the ops the server has not acknowledged, in the order they were
    submitted. *)
Definition pipeline (d : Doc) : list PendingOp :=
  match inflightOp d with
  | Some inflight => inflight :: pendingOps d
  | None => pendingOps d
  end.

(** What the application submitted, without the identity that [flush]
    adds. *)
Definition content (op : PendingOp)
  : option JsVal * option JsVal * option JsVal * option Z
    * option Types.OTType * list (option Callback) :=
  (op_create (pending_op op), op_op (pending_op op), op_del (pending_op op),
   op_v (pending_op op), pending_type op, pending_callbacks op).

(** The effects of calling each callback that is there with [args]. *)
Definition calls (args : list Arg) (callbacks : list (option Callback)) : list Effect :=
  flat_map (fun callback =>
              match callback with
              | Some fn => [Invoked fn args]
              | None => []
              end)
           callbacks.

(** The requests among the effects. *)
Definition requests (effects : list Effect) : list Request :=
  flat_map (fun e => match e with Sent r => [r] | _ => [] end) effects.

(** The effects of rolling back: every callback of every dropped op, called
    with the error. *)
Definition rollback_calls (error : string) (dropped : list PendingOp) : list Effect :=
  flat_map (fun op =>
              flat_map (fun callback =>
                          match callback with
                          | Some fn => [Invoked fn [AError error]]
                          | None => []
                          end)
                       (pending_callbacks op))
           dropped.

(** What a step of the replica leaves alone: the replica but for its
    listeners, and the connection; the trace only grows. *)
Definition extends (w w' : World) : Prop :=
  inflightOp (doc w') = inflightOp (doc w) /\
  pendingOps (doc w') = pendingOps (doc w) /\
  type (doc w') = type (doc w) /\
  data (doc w') = data (doc w) /\
  version (doc w') = version (doc w) /\
  subscribed (doc w') = subscribed (doc w) /\
  collection (doc w') = collection (doc w) /\
  id (doc w') = id (doc w) /\
  connection w' = connection w /\
  exists rest, trace w' = trace w ++ rest.

End Client.

(* ===================================================================== *)
(** * The server: the subscription index of [Backend] *)
(* ===================================================================== *)

Module Backend.

(** An [Agent] object.  Agents are compared by reference; the number stands
    for the object. *)
Definition Agent := nat.

(** [Set<Agent>]: the members in insertion order, each once. *)
Definition AgentSet := list Agent.

(** [set.add(agent)] *)
Definition add (agent : Agent) (set : AgentSet) : AgentSet :=
  if bool_decide (agent ∈ set) then set else set ++ [agent].

(** [set.delete(agent)] *)
Definition remove (agent : Agent) (set : AgentSet) : AgentSet :=
  List.filter (fun a => negb (a =? agent)%nat) set.

(** [subscriptionsByDoc: Map<string, Map<string, Set<Agent>>>] *)
Definition Subscriptions := gmap string (gmap string AgentSet).

(** [_subscribe(collection, id, agent)] *)
Definition _subscribe (subscriptionsByDoc : Subscriptions) (collection id : string)
    (agent : Agent) : Subscriptions :=
  let collectionSubs := default ∅ (subscriptionsByDoc !! collection) in
  let docSubs := default [] (collectionSubs !! id) in
  <[collection := <[id := add agent docSubs]> collectionSubs]> subscriptionsByDoc.

(** [_unsubscribe(collection, id, agent)] *)
Definition _unsubscribe (subscriptionsByDoc : Subscriptions) (collection id : string)
    (agent : Agent) : Subscriptions :=
  match subscriptionsByDoc !! collection with
  | None => subscriptionsByDoc
  | Some collectionSubs =>
      match collectionSubs !! id with
      | None => subscriptionsByDoc
      | Some docSubs =>
          let docSubs := remove agent docSubs in
          let collectionSubs :=
            if (length docSubs =? 0)%nat
            then delete id collectionSubs
            else <[id := docSubs]> collectionSubs in
          if (size collectionSubs =? 0)%nat
          then delete collection subscriptionsByDoc
          else <[collection := collectionSubs]> subscriptionsByDoc
      end
  end.

(** [_broadcast(collection, id, message, excludeAgent?)]: the agents whose
    [send] is called with the message, in the order of the calls. *)
Definition _broadcast (subscriptionsByDoc : Subscriptions) (collection id : string)
    (excludeAgent : option Agent) : list Agent :=
  match subscriptionsByDoc !! collection with
  | None => []
  | Some collectionSubs =>
      match collectionSubs !! id with
      | None => []
      | Some docSubs =>
          List.filter (fun agent => negb (bool_decide (Some agent = excludeAgent))) docSubs
      end
  end.

(** The index holds no empty set and no empty map, and no set lists an
    agent twice. *)
Definition tidy (subscriptionsByDoc : Subscriptions) : Prop :=
  forall collection collectionSubs,
    subscriptionsByDoc !! collection = Some collectionSubs ->
    collectionSubs <> ∅ /\
    forall id docSubs,
      collectionSubs !! id = Some docSubs -> docSubs <> [] /\ NoDup docSubs.

End Backend.

(* ===================================================================== *)
(** * Sample operations and scenarios *)
(* ===================================================================== *)

Module Samples.
Import Js Error OT Server.

Definition identity (src : string) (seq : Z) : option JsVal * option JsVal :=
  (Some (JStr src), Some (JInt seq)).

Definition anonymous : option JsVal * option JsVal := (None, None).

Definition create_op (type : string) (data : JsVal) (v : option Z)
    (who : option JsVal * option JsVal) : Op :=
  {| op_create := Some (JObj [("type", JStr type); ("data", data)]);
     op_op := None; op_del := None; op_v := v;
     op_src := fst who; op_seq := snd who |}.

Definition edit_op (payload : JsVal) (v : option Z)
    (who : option JsVal * option JsVal) : Op :=
  {| op_create := None; op_op := Some payload; op_del := None; op_v := v;
     op_src := fst who; op_seq := snd who |}.

Definition delete_op (v : option Z) (who : option JsVal * option JsVal) : Op :=
  {| op_create := None; op_op := None; op_del := Some (JBool true); op_v := v;
     op_src := fst who; op_seq := snd who |}.

(** [{ create: { type: 'counter' }, del: true }] *)
Definition create_and_delete : Op :=
  {| op_create := Some (JObj [("type", JStr "counter")]);
     op_op := None; op_del := Some (JBool true); op_v := None;
     op_src := None; op_seq := None |}.

(** The store after the given submissions, each run to completion before the
    next is made. *)
Definition after_submissions (submitted : list Op) : MemoryDb :=
  fold_left (fun db op =>
               fst (submitOp_alone Registered.types 0 db "docs" "d1" op None))
            submitted new_MemoryDb.

(** *** A resubmission that meets a deleted document first

    The log holds a create, a delete, a second create and an edit that
    client "a" sent with [seq = 2]; the same client then submits an edit
    with [seq = 2] again, against base version 1. *)
Definition log_with_delete : MemoryDb :=
  after_submissions
    [ create_op "counter" (JInt 0) (Some 0) (identity "a" 1);
      delete_op (Some 1) (identity "b" 1);
      create_op "counter" (JInt 0) (Some 2) (identity "b" 2);
      edit_op (JInt 5) (Some 3) (identity "a" 2) ].

Definition resubmitted_behind_delete : Op := edit_op (JInt 5) (Some 1) (identity "a" 2).

(** *** A resubmission under the empty [src] *)
Definition log_of_empty_src : MemoryDb :=
  after_submissions
    [ create_op "counter" (JInt 0) (Some 0) (identity "" 1);
      edit_op (JInt 5) (Some 1) (identity "" 2) ].

Definition resubmitted_empty_src : Op := edit_op (JInt 5) (Some 1) (identity "" 2).

(** *** A plain resubmission *)
Definition log_of_two_clients : MemoryDb :=
  after_submissions
    [ create_op "counter" (JInt 0) (Some 0) (identity "a" 1);
      edit_op (JInt 5) (Some 1) (identity "a" 2);
      edit_op (JInt 3) (Some 2) (identity "b" 1) ].

Definition resubmitted : Op := edit_op (JInt 5) (Some 1) (identity "a" 2).

Definition stored (op : Op) : StoredOp :=
  {| stored_op := op; stored_c := "docs"; stored_d := "d1"; stored_ts := 0 |}.

(** *** Two submissions in the same turn

    The document holds "hello" at version 1.  Two clients insert against
    version 1, and both calls are made before either is resumed. *)
Definition insert_op (p : Z) (text : string) (v : option Z)
    (who : option JsVal * option JsVal) : Op :=
  edit_op (Registered.of_text_op (TextType.InsertOp p text)) v who.

Definition insert_A : Op := insert_op 0 "A" (Some 1) (identity "1" 2).
Definition insert_B : Op := insert_op 3 "B" (Some 1) (identity "2" 1).

Definition hello_created : System :=
  execs Registered.types initial
    [ Call "docs" "d1" (create_op "simple-text" (JStr "hello") (Some 0) (identity "1" 1)) None;
      Resume 0 0; Resume 0 0 ].

(** Submission 1 is [insert_A], submission 2 is [insert_B]; they take turns. *)
Definition concurrent_inserts : System :=
  execs Registered.types hello_created
    [ Call "docs" "d1" insert_A None;
      Call "docs" "d1" insert_B None;
      Resume 1 0; Resume 2 0; Resume 1 0; Resume 2 0; Resume 2 0; Resume 2 0 ].

(** *** A replica with an inflight op and a pending op *)
Definition rejected_world : Client.World :=
  {| Client.doc :=
       {| Client.collection := "docs"; Client.id := "d1";
          Client.version := Client.VNum 1;
          Client.type := Some Registered.counterType;
          Client.data := JInt 8;
          Client.subscribed := true;
          Client.inflightOp :=
            Some {| Client.pending_op := edit_op (JInt 5) (Some 1) (identity "1" 2);
                    Client.pending_type := Some Registered.counterType;
                    Client.pending_callbacks := [Some 1%nat] |};
          Client.pendingOps :=
            [ {| Client.pending_op := edit_op (JInt 3) (Some 1) anonymous;
                 Client.pending_type := Some Registered.counterType;
                 Client.pending_callbacks := [Some 2%nat; None] |} ];
          Client.listeners :=
            [ {| Client.listener_event := "error"; Client.listener_once := false;
                 Client.listener_fn := 9%nat |} ] |};
     Client.connection :=
       {| Client.conn_id := "1"; Client.conn_seq := 3; Client.conn_canSend := true;
          Client.conn_transport := true |};
     Client.trace := [] |}.

Definition rejection : Client.OpMessage :=
  {| Client.msg_c := "docs"; Client.msg_d := "d1";
     Client.msg_op := {| op_create := None; op_op := None; op_del := None;
                         op_v := None; op_src := Some (JStr "1");
                         op_seq := Some (JInt 2) |};
     Client.msg_error := Some {| Client.err_code := "ERR_DOC_WAS_DELETED";
                                 Client.err_message := "Document was deleted" |} |}.

(** *** A replica that has inserted while another client did

    The document holds "hello" at version 1; the replica has applied
    [insert_A] and has it in flight when [insert_B] arrives. *)
Definition inserting_world : Client.World :=
  {| Client.doc :=
       {| Client.collection := "docs"; Client.id := "d1";
          Client.version := Client.VNum 1;
          Client.type := Some Registered.textType;
          Client.data := JStr "Ahello";
          Client.subscribed := true;
          Client.inflightOp :=
            Some {| Client.pending_op := insert_A;
                    Client.pending_type := Some Registered.textType;
                    Client.pending_callbacks := [None] |};
          Client.pendingOps := [];
          Client.listeners := [] |};
     Client.connection :=
       {| Client.conn_id := "1"; Client.conn_seq := 3; Client.conn_canSend := true;
          Client.conn_transport := true |};
     Client.trace := [] |}.

(** *** A rejection that reaches a replica whose connection cannot send *)
Definition offline_world : Client.World :=
  {| Client.doc := Client.doc rejected_world;
     Client.connection :=
       {| Client.conn_id := "1"; Client.conn_seq := 3; Client.conn_canSend := false;
          Client.conn_transport := true |};
     Client.trace := [] |}.

(** The connection of [offline_world] when it can send again. *)
Definition reconnected (w : Client.World) : Client.World :=
  {| Client.doc := Client.doc w;
     Client.connection :=
       {| Client.conn_id := "1"; Client.conn_seq := 3; Client.conn_canSend := true;
          Client.conn_transport := true |};
     Client.trace := Client.trace w |}.

Definition remote_insert : Client.OpMessage :=
  {| Client.msg_c := "docs"; Client.msg_d := "d1"; Client.msg_op := insert_B;
     Client.msg_error := None |}.

End Samples.

(* ===================================================================== *)
(** * Theorems *)
(* ===================================================================== *)

(** ** Strings *)

Section StringFacts.

Lemma substring_all (s : string) (n : nat) :
  (String.length s <= n)%nat -> substring 0 n s = s.
Proof.
  revert n. induction s as [|c s IH]; intros [|n] H; simpl in *; try reflexivity; try lia.
  f_equal. apply IH. lia.
Qed.

Lemma substring_beyond (s : string) (n m : nat) :
  (String.length s <= n)%nat -> substring n m s = ""%string.
Proof.
  revert n m. induction s as [|c s IH]; intros [|n] [|m] H; simpl in *;
    try reflexivity; try lia; apply IH; lia.
Qed.

Lemma append_empty_r (s : string) : (s +:+ "")%string = s.
Proof.
  induction s as [|c s IH]; [reflexivity |].
  change (String c (s +:+ "") = String c s). now rewrite IH.
Qed.

End StringFacts.

(** ** The simple-text type *)

Section TextTypeFacts.
Import Js TextType.

Example apply_insert_example : apply "hello" (InsertOp 1 "X") = "hXello"%string.
Proof. reflexivity. Qed.

Example apply_delete_example : apply "hello" (DeleteOp 1 2) = "hlo"%string.
Proof. reflexivity. Qed.

Example transform_insert_example :
  transform (InsertOp 3 "X") (InsertOp 1 "Y") Types.left = InsertOp 4 "X".
Proof. reflexivity. Qed.

(** C1.  The convergence equation fails for the simple-text type: on the
    snapshot "ab", the delete of the first character and the insert of "X"
    at position 0 are both valid, yet applying the delete and then the
    transformed insert gives "Xb", while applying the insert and then the
    transformed delete gives "ab" (the delete removes the inserted "X",
    because [transform] shifts a delete over an insert at the same position
    only for the side [right]). *)
Theorem text_TP1_fails_delete_insert_same_position :
  valid "ab" (DeleteOp 0 1) /\ valid "ab" (InsertOp 0 "X") /\
  apply (apply "ab" (DeleteOp 0 1)) (transform (InsertOp 0 "X") (DeleteOp 0 1) Types.right)
    = "Xb"%string /\
  apply (apply "ab" (InsertOp 0 "X")) (transform (DeleteOp 0 1) (InsertOp 0 "X") Types.left)
    = "ab"%string /\
  ~ TP1 "ab" (DeleteOp 0 1) (InsertOp 0 "X").
Proof.
  repeat split; try (simpl; lia); try reflexivity.
  unfold TP1. vm_compute. discriminate.
Qed.

(** The same equation also fails when an insert falls strictly inside the
    range of a concurrent delete: the delete is not widened to take the
    inserted text with it. *)
Lemma text_TP1_fails_insert_inside_delete :
  valid "abcd" (InsertOp 1 "X") /\ valid "abcd" (DeleteOp 0 2) /\
  apply (apply "abcd" (InsertOp 1 "X")) (transform (DeleteOp 0 2) (InsertOp 1 "X") Types.right)
    = "bcd"%string /\
  apply (apply "abcd" (DeleteOp 0 2)) (transform (InsertOp 1 "X") (DeleteOp 0 2) Types.left)
    = "Xcd"%string.
Proof. repeat split; try (simpl; lia); reflexivity. Qed.

Lemma slice_prefix (s : string) (p : Z) :
  0 <= p -> slice s 0 (Some p) = substring 0 (Z.to_nat p) s.
Proof.
  intros Hp. unfold slice, relative_index.
  change (0 <? 0) with false. cbv iota.
  rewrite (proj2 (Z.ltb_ge p 0)) by lia.
  rewrite (Z.min_l 0) by lia. change (Z.to_nat 0) with 0%nat.
  rewrite Z.sub_0_r.
  destruct (Z.le_gt_cases p (Z.of_nat (String.length s))) as [Hle|Hgt].
  - rewrite Z.min_l by lia. rewrite Z.max_l by lia. reflexivity.
  - rewrite Z.min_r by lia. rewrite Z.max_l by lia.
    rewrite Nat2Z.id. rewrite !substring_all by lia. reflexivity.
Qed.

Lemma slice_suffix_beyond (s : string) (p : Z) :
  Z.of_nat (String.length s) <= p -> slice s p None = ""%string.
Proof.
  intros Hp. unfold slice, relative_index.
  rewrite (proj2 (Z.ltb_ge p 0)) by lia.
  rewrite Z.min_r by lia. rewrite Nat2Z.id.
  apply substring_beyond. lia.
Qed.

Lemma as_int_JInt (z : Z) : Registered.as_int (JInt z) = Some z.
Proof.
  unfold Registered.as_int, JInt. rewrite Qfloor_Z.
  now rewrite (proj2 (Qeq_bool_iff _ _) (Qeq_refl _)).
Qed.

(** The registry's view of an op decodes back to the op. *)
Lemma as_text_op_of_text_op (op : TextOp) :
  Registered.as_text_op (Registered.of_text_op op) = Some op.
Proof.
  destruct op as [p t | p c]; unfold Registered.as_text_op, Registered.of_text_op;
    cbn [get_prop assoc String.eqb Ascii.eqb Bool.eqb default from_option id];
    now rewrite ?as_int_JInt.
Qed.

(** C10.  [apply] is a total function of the snapshot and the op: as the
    registry calls it, it returns for every string snapshot and every insert
    or delete op, wherever the positions lie.  With a non-negative position
    and count, an insert at or past the end of the string appends the text,
    and a delete whose range reaches or passes the end keeps exactly the
    characters before [pos] (all of them when [pos] itself is past the end)
    and removes nothing else. *)
Theorem text_apply_out_of_range (s : string) (p count : Z) (text : string) :
  0 <= p -> 0 <= count ->
  (forall op, Types.apply Registered.textType (JStr s) (Registered.of_text_op op)
              = Error.Return (JStr (apply s op))) /\
  (Z.of_nat (String.length s) <= p ->
     apply s (InsertOp p text) = (s +:+ text)%string) /\
  (Z.of_nat (String.length s) <= p + count ->
     apply s (DeleteOp p count) = substring 0 (Z.to_nat p) s) /\
  (Z.of_nat (String.length s) <= p ->
     apply s (DeleteOp p count) = s).
Proof.
  intros Hp Hc. split; [| split; [| split]]; [intros op | intros Hlen ..].
  - cbn [Types.apply Registered.textType]. now rewrite as_text_op_of_text_op.
  - unfold apply. rewrite slice_prefix by lia. rewrite slice_suffix_beyond by lia.
    rewrite substring_all by lia. now rewrite append_empty_r.
  - unfold apply. rewrite slice_prefix by lia. rewrite slice_suffix_beyond by lia.
    now rewrite append_empty_r.
  - unfold apply. rewrite slice_prefix by lia. rewrite slice_suffix_beyond by lia.
    rewrite substring_all by lia. now rewrite append_empty_r.
Qed.

Lemma text_apply_out_of_range_witness :
  apply "hello" (InsertOp 9 "X") = "helloX"%string /\
  apply "hello" (DeleteOp 3 7) = "hel"%string /\
  apply "hello" (DeleteOp 9 2) = "hello"%string.
Proof.
  destruct (text_apply_out_of_range "hello" 9 2 "X") as (_ & Hi & _ & Hd); [lia | lia |].
  destruct (text_apply_out_of_range "hello" 3 7 "X") as (_ & _ & Hm & _); [lia | lia |].
  split; [| split].
  - apply Hi. simpl. lia.
  - apply Hm. simpl. lia.
  - apply Hd. simpl. lia.
Defined.

End TextTypeFacts.

(** ** Convergence of two inserts

    The convergence equation does hold for the pairs the tie-break of
    [transform] was written for: two inserts. *)

Section TextInserts.
Import Js TextType.

#[local] Abbreviation chars := list_ascii_of_string.

Lemma chars_append (a b : string) : chars (a +:+ b) = chars a ++ chars b.
Proof.
  induction a as [|c a IH]; [reflexivity |].
  change (c :: chars (a +:+ b) = c :: chars a ++ chars b). now rewrite IH.
Qed.

Lemma chars_length (s : string) : length (chars s) = String.length s.
Proof. induction s as [|c s IH]; simpl; [reflexivity | now rewrite IH]. Qed.

Lemma chars_substring (s : string) (n m : nat) :
  chars (substring n m s) = take m (drop n (chars s)).
Proof.
  revert n m. induction s as [|c s IH]; intros n m.
  - destruct n, m; simpl; now rewrite ?take_nil.
  - destruct n as [|n].
    + destruct m as [|m]; [reflexivity |].
      simpl. rewrite IH. now rewrite drop_0.
    + simpl. apply IH.
Qed.

Lemma chars_inj (a b : string) : chars a = chars b -> a = b.
Proof.
  intros H. rewrite <- (string_of_list_ascii_of_string a),
              <- (string_of_list_ascii_of_string b). now rewrite H.
Qed.

(** Splicing [t] into a list at index [n]. *)
Lemma splice_app {A} (s1 s2 t : list A) (n : nat) :
  n = length s1 -> take n (s1 ++ s2) ++ t ++ drop n (s1 ++ s2) = s1 ++ t ++ s2.
Proof. intros ->. now rewrite take_app_length, drop_app_length. Qed.

Lemma splice_commute {A} (s t u : list A) (n m : nat) :
  (n <= m <= length s)%nat ->
  take (m + length t) (take n s ++ t ++ drop n s) ++ u
    ++ drop (m + length t) (take n s ++ t ++ drop n s)
  = take n (take m s ++ u ++ drop m s) ++ t
    ++ drop n (take m s ++ u ++ drop m s).
Proof.
  intros Hnm.
  set (s1 := take n s). set (s2 := take (m - n) (drop n s)). set (s3 := drop m s).
  assert (Hs : s = s1 ++ s2 ++ s3).
  { unfold s1, s2, s3. rewrite <- (take_drop n s) at 1. f_equal.
    rewrite <- (take_drop (m - n) (drop n s)) at 1. f_equal.
    rewrite drop_drop. f_equal. lia. }
  assert (H1 : length s1 = n) by (unfold s1; rewrite length_take; lia).
  assert (H2 : length s2 = (m - n)%nat)
    by (unfold s2; rewrite length_take, length_drop; lia).
  assert (Hn : drop n s = s2 ++ s3).
  { rewrite Hs. now rewrite drop_app_length' by lia. }
  assert (Hm : take m s = s1 ++ s2).
  { rewrite Hs, app_assoc. rewrite take_app_length'; [reflexivity |].
    rewrite length_app. lia. }
  fold s1 s3. rewrite Hn, Hm.
  replace (s1 ++ t ++ s2 ++ s3) with ((s1 ++ t ++ s2) ++ s3)
    by (now rewrite <- !app_assoc).
  rewrite (splice_app (s1 ++ t ++ s2) s3 u) by (rewrite !length_app; lia).
  replace ((s1 ++ s2) ++ u ++ s3) with (s1 ++ s2 ++ u ++ s3)
    by (now rewrite <- !app_assoc).
  rewrite (splice_app s1 (s2 ++ u ++ s3) t) by lia.
  now rewrite <- !app_assoc.
Qed.

Lemma slice_suffix (s : string) (p : Z) :
  0 <= p <= Z.of_nat (String.length s) ->
  chars (slice s p None) = drop (Z.to_nat p) (chars s).
Proof.
  intros Hp. unfold slice, relative_index.
  rewrite (proj2 (Z.ltb_ge p 0)) by lia. rewrite Z.min_l by lia.
  rewrite chars_substring. apply take_ge.
  rewrite length_drop, chars_length. lia.
Qed.

Lemma chars_apply_insert (s : string) (p : Z) (t : string) :
  0 <= p ->
  chars (apply s (InsertOp p t))
  = take (Z.to_nat p) (chars s) ++ chars t ++ drop (Z.to_nat p) (chars s).
Proof.
  intros Hp. unfold apply. rewrite !chars_append, slice_prefix by lia.
  rewrite chars_substring, drop_0. do 2 f_equal.
  destruct (Z.le_gt_cases p (Z.of_nat (String.length s))) as [Hle|Hgt].
  - apply slice_suffix. lia.
  - rewrite slice_suffix_beyond by lia. rewrite drop_ge; [reflexivity |].
    rewrite chars_length. lia.
Qed.

(** Two valid inserts converge, whichever is applied first. *)
Lemma text_TP1_inserts (s : string) (p q : Z) (t u : string) :
  valid s (InsertOp p t) -> valid s (InsertOp q u) ->
  TP1 s (InsertOp p t) (InsertOp q u).
Proof.
  unfold valid, TP1. intros Hp Hq. apply chars_inj.
  assert (Hlen : forall x, Z.to_nat (x + Z.of_nat (String.length t))
                           = (Z.to_nat x + length (chars t))%nat /\
                           Z.to_nat (x + Z.of_nat (String.length u))
                           = (Z.to_nat x + length (chars u))%nat \/ x < 0).
  { intros x. rewrite !chars_length. lia. }
  unfold transform, pos, set_pos, is_right.
  destruct (Z.ltb_spec p q) as [Hpq|Hpq]; cbn [orb andb].
  - rewrite (proj2 (Z.ltb_ge q p)) by lia.
    rewrite (proj2 (Z.eqb_neq q p)) by lia. cbn [orb andb].
    rewrite !chars_apply_insert by lia.
    destruct (Hlen q) as [[-> _]|]; [| lia].
    apply splice_commute. rewrite chars_length. lia.
  - destruct (Z.eqb_spec p q) as [->|Hne]; cbn [orb andb].
    + rewrite Z.ltb_irrefl, !Z.eqb_refl. cbn [orb andb].
      rewrite !chars_apply_insert by lia.
      destruct (Hlen q) as [[-> _]|]; [| lia].
      apply splice_commute. rewrite chars_length. lia.
    + rewrite (proj2 (Z.ltb_lt q p)) by lia. cbn [orb].
      rewrite !chars_apply_insert by lia.
      destruct (Hlen p) as [[_ ->]|]; [| lia].
      symmetry. apply splice_commute. rewrite chars_length. lia.
Qed.

End TextInserts.

(** ** The counter type *)

Section CounterTypeFacts.
Import Js CounterType.

Example counter_create_examples :
  create None = 0 /\ create (Some (Finite (inject_Z 10))) = 10 /\
  create (Some (Finite (314 # 100))) = 3 /\ create (Some (Finite (inject_Z (-5)))) = -5.
Proof. repeat split. Qed.

(** Dropping the fraction towards zero is the floor from zero upwards and
    the ceiling below. *)
Lemma truncate_floor_ceiling (q : Q) :
  truncate q = if Qle_bool 0 q then Qfloor q else Qceiling q.
Proof.
  destruct q as [n d]. unfold truncate, Qceiling, Qfloor, Qle_bool, Qopp.
  cbn [Qnum Qden]. rewrite Z.mul_1_r. change (0 * Z.pos d) with 0.
  destruct (Z.leb_spec 0 n) as [Hn|Hn].
  - apply Z.quot_div_nonneg; lia.
  - rewrite <- (Z.opp_involutive n) at 1. rewrite Z.quot_opp_l by lia.
    f_equal. apply Z.quot_div_nonneg; lia.
Qed.

Lemma wrap_int32_in_range (z : Z) :
  - 2 ^ 31 <= z < 2 ^ 31 -> wrap_int32 z = z.
Proof.
  intros H. unfold wrap_int32. rewrite Z.mod_small; lia.
Qed.

(** C5, as stated, does not hold.  [create(-3.5)] is [-3], and the
    floor of [-3.5] is [-4]. *)
Lemma counter_create_is_not_floor :
  create (Some (Finite (-7 # 2))) = -3 /\ Qfloor (-7 # 2) = -4 /\
  ~ (forall q : Q, create (Some (Finite q)) = Qfloor q).
Proof.
  split; [reflexivity | split; [reflexivity |]].
  intros H. specialize (H (-7 # 2)). vm_compute in H. discriminate.
Qed.

(** C5 (amended).  For a finite number [x], [create(x)] is [x] with its
    fraction dropped towards zero (the floor of [x] when [x >= 0], the
    ceiling when [x < 0]), wrapped into the signed 32-bit range; it is the
    floor of [x] whenever [0 <= x < 2^31].  [create(NaN)] and
    [create(±Infinity)] are 0, and so is [create()]. *)
Theorem counter_create_truncates (q : Q) :
  create (Some (Finite q))
    = wrap_int32 (if Qle_bool 0 q then Qfloor q else Qceiling q) /\
  ((0 <= q)%Q -> (q < inject_Z (2 ^ 31))%Q -> create (Some (Finite q)) = Qfloor q) /\
  create (Some NaN) = 0 /\
  (forall negative, create (Some (Infinity negative)) = 0) /\
  create None = 0.
Proof.
  assert (Hgen : create (Some (Finite q))
                 = wrap_int32 (if Qle_bool 0 q then Qfloor q else Qceiling q)).
  { unfold create, ToInt32. now rewrite truncate_floor_ceiling. }
  split; [exact Hgen | split; [| repeat split]].
  intros H0 Hlt. rewrite Hgen.
  rewrite (proj2 (Qle_bool_iff 0 q) H0).
  apply wrap_int32_in_range.
  assert (Hf0 : 0 <= Qfloor q).
  { change 0 with (Qfloor (inject_Z 0)). apply Qfloor_resp_le. exact H0. }
  assert (Hf1 : Qfloor q < 2 ^ 31).
  { rewrite Zlt_Qlt. eapply Qle_lt_trans; [apply Qfloor_le | exact Hlt]. }
  lia.
Qed.

Lemma counter_create_truncates_witness :
  create (Some (Finite (37 # 10))) = Qfloor (37 # 10).
Proof.
  apply (proj1 (proj2 (counter_create_truncates (37 # 10)))).
  - unfold Qle. simpl. lia.
  - unfold Qlt. simpl. lia.
Defined.

End CounterTypeFacts.

(** ** The OT kernel *)

Section KernelFacts.
Import Js Error OT.

Variable types : Types.TypeRegistry.

Lemma guard_or_throw_returns (b : bool) (code : ErrorCode) (u : unit) :
  guard_or_throw b code = Return u -> b = true.
Proof. destruct b; [reflexivity | discriminate]. Qed.

(** Inversion of a bind that returned. *)
Lemma bind_returns {A B} (r : Result A) (k : A -> Result B) (b : B) :
  (r ≫= k) = Return b -> exists a, r = Return a /\ k a = Return b.
Proof. destruct r as [a|e]; [eauto | discriminate]. Qed.

(** The version step of [apply], in the form the server proofs use. *)
Lemma apply_version_step (snapshot snapshot' : Snapshot) (op : Op) :
  apply types snapshot op = Return snapshot' ->
  snap_v snapshot' = snap_v snapshot + 1.
Proof.
  unfold apply. intros H.
  apply bind_returns in H as (_ & _ & H).
  destruct (isCreateOp op).
  - apply bind_returns in H as (_ & _ & H).
    destruct (get_type types _) as [type|]; [| discriminate].
    apply bind_returns in H as (data & _ & H).
    injection H as <-. reflexivity.
  - destruct (isDeleteOp op).
    + injection H as <-. reflexivity.
    + destruct (isEditOp op).
      * apply bind_returns in H as (_ & _ & H).
        apply bind_returns in H as (_ & _ & H).
        destruct (get_type types _) as [type|]; [| discriminate].
        apply bind_returns in H as (data & _ & H).
        injection H as <-. reflexivity.
      * injection H as <-. reflexivity.
Qed.

(** An [apply] that returned has passed the version check. *)
Lemma apply_version_check (snapshot snapshot' : Snapshot) (op : Op) (v : Z) :
  apply types snapshot op = Return snapshot' ->
  op_v op = Some v -> snap_v snapshot = v.
Proof.
  unfold apply. intros H Hv.
  apply bind_returns in H as (u & H & _).
  apply guard_or_throw_returns in H. rewrite Hv in H.
  destruct (Z.eqb_spec (snap_v snapshot) v); [assumption | discriminate].
Qed.

(** C2.  Whenever [apply(snapshot, op)] returns, the version of the
    snapshot is exactly one more than before, whichever branch was taken:
    create, delete, edit, or the op with none of the three fields. *)
Theorem apply_increments_version (snapshot snapshot' : Snapshot) (op : Op) :
  apply types snapshot op = Return snapshot' ->
  snap_v snapshot' = snap_v snapshot + 1.
Proof. exact (apply_version_step snapshot snapshot' op). Qed.

(** C3 (amended).  For a Delete operation [op] and an applied operation of
    any shape with an agreeing base version, [transform] returns [op]
    unchanged but for the version increment when the applied operation is
    an Edit, a Delete or a no-op; when it is a Create, [transform] throws
    [ERR_DOC_ALREADY_CREATED]. *)
Theorem transform_of_delete_op (type : TypeArg) (op appliedOp : Op) :
  is_delete_only op ->
  versions_agree op appliedOp ->
  transform types type op appliedOp
  = if negb (isDeleteOp appliedOp) && isCreateOp appliedOp
    then Throw (OTError ERR_DOC_ALREADY_CREATED)
    else Return (increment_v op).
Proof.
  intros (Hdel & Hcreate & Hedit) Hv. unfold transform.
  assert (Hguard : (match op_v op, op_v appliedOp with
                    | Some v, Some v' => negb (v =? v')
                    | _, _ => false
                    end) = false).
  { destruct (op_v op) as [v|] eqn:Ev, (op_v appliedOp) as [v'|] eqn:Ev';
      try reflexivity.
    rewrite (Hv v v' Ev Ev'), Z.eqb_refl. reflexivity. }
  rewrite Hguard, Hdel, Hcreate, Hedit. simpl.
  destruct (isDeleteOp appliedOp); simpl; [reflexivity |].
  destruct (isCreateOp appliedOp); simpl; [reflexivity |].
  rewrite !andb_false_r. reflexivity.
Qed.

Lemma guard_or_throw_false (code : ErrorCode) :
  guard_or_throw false code = Throw (OTError code).
Proof. reflexivity. Qed.

(** C4 (amended).  [checkOp] accepts only an object that carries at least
    one of [create], [del], [op]; an object that carries none of them is
    rejected as badly formed, and so is a value that is not an object.  An
    object that carries [create] is judged on its [create] alone: whatever
    [del] and [op] fields it has besides do not change the verdict. *)
Theorem checkOp_requires_a_shape (x : Unknown) :
  (checkOp types x = Return tt ->
     exists o, x = Object o /\ (1 <= shapes o)%nat) /\
  (forall o, x = Object o -> shapes o = 0%nat ->
     checkOp types x = Throw (OTError ERR_OT_OP_BADLY_FORMED)) /\
  (x = NotAnObject -> checkOp types x = Throw (OTError ERR_OT_OP_BADLY_FORMED)) /\
  (forall o del payload, x = Object o -> isCreateOp o = true ->
     checkOp types (Object (with_del_op o del payload)) = checkOp types x).
Proof.
  split; [| split; [| split]].
  - destruct x as [|o]; [discriminate |]. intros H. exists o. split; [reflexivity |].
    unfold shapes, isCreateOp, carries_del, isEditOp.
    unfold checkOp in H. apply bind_returns in H as (u & Hshape & _).
    destruct (present (op_create o) && negb (is_nullish (read (op_create o))));
      [simpl; lia |].
    destruct (present (op_del o) && negb (is_nullish (read (op_del o))));
      [simpl; lia |].
    apply guard_or_throw_returns in Hshape. rewrite Hshape. simpl. lia.
  - intros o -> H0. unfold shapes, isCreateOp, carries_del, isEditOp in H0.
    unfold checkOp.
    destruct (present (op_create o) && negb (is_nullish (read (op_create o))));
      [simpl in H0; lia |].
    destruct (present (op_del o) && negb (is_nullish (read (op_del o))));
      [simpl in H0; lia |].
    destruct (present (op_op o)); [simpl in H0; lia |]. reflexivity.
  - intros ->. reflexivity.
  - intros o del payload -> Hc. unfold isCreateOp in Hc.
    unfold checkOp, with_del_op. cbn [op_create op_del op_op op_src op_seq].
    rewrite Hc. reflexivity.
Qed.

End KernelFacts.

Section KernelExamples.
Import Js Error OT Samples.

Example apply_create_counter :
  apply Registered.types (createEmptySnapshot "doc1") (create_op "counter" (JInt 10) None anonymous)
  = Return {| snap_id := "doc1"; snap_v := 1;
              snap_type := Some "http://sharejs.org/types/counter";
              snap_data := JInt 10; snap_m := None |}.
Proof. vm_compute. reflexivity. Qed.

Example apply_each_shape :
  let created := {| snap_id := "doc1"; snap_v := 1;
                    snap_type := Some "http://sharejs.org/types/counter";
                    snap_data := JInt 10; snap_m := None |} in
  snap_v <$> match apply Registered.types created (edit_op (JInt 5) (Some 1) anonymous) with
             | Return s => Some s | Throw _ => None end = Some 2 /\
  snap_v <$> match apply Registered.types created (delete_op (Some 1) anonymous) with
             | Return s => Some s | Throw _ => None end = Some 2 /\
  snap_v <$> match apply Registered.types created
                     {| op_create := None; op_op := None; op_del := None;
                        op_v := None; op_src := None; op_seq := None |} with
             | Return s => Some s | Throw _ => None end = Some 2.
Proof. repeat split; vm_compute; reflexivity. Qed.

Lemma apply_increments_version_witness :
  snap_v {| snap_id := "doc1"; snap_v := 1;
            snap_type := Some "http://sharejs.org/types/counter";
            snap_data := JInt 10; snap_m := None |}
  = snap_v (createEmptySnapshot "doc1") + 1.
Proof.
  apply (apply_increments_version Registered.types _ _ (create_op "counter" (JInt 10) None anonymous)).
  vm_compute. reflexivity.
Defined.

(** C3, as stated, does not hold.  Transforming a Delete against an
    applied Create with the same base version throws. *)
Lemma delete_against_create_throws :
  is_delete_only (delete_op (Some 0) anonymous) /\
  versions_agree (delete_op (Some 0) anonymous) (create_op "counter" (JInt 10) (Some 0) anonymous) /\
  transform Registered.types TypeNull (delete_op (Some 0) anonymous) (create_op "counter" (JInt 10) (Some 0) anonymous)
  = Throw (OTError ERR_DOC_ALREADY_CREATED).
Proof.
  split; [repeat split | split; [| reflexivity]].
  intros v v' Hv Hv'. simpl in *. congruence.
Qed.

Lemma transform_of_delete_op_witness :
  transform Registered.types (TypeObject Registered.counterType)
            (delete_op (Some 1) anonymous) (edit_op (JInt 5) (Some 1) anonymous)
  = Return (delete_op (Some 2) anonymous).
Proof.
  apply (transform_of_delete_op Registered.types (TypeObject Registered.counterType)
                          (delete_op (Some 1) anonymous) (edit_op (JInt 5) (Some 1) anonymous)).
  - repeat split.
  - intros v v' Hv Hv'. simpl in *. congruence.
Defined.

End KernelExamples.

Section CheckOpExamples.
Import Js Error OT Samples.

Example checkOp_accepts_create :
  checkOp Registered.types (Object (create_op "counter" (JInt 0) None anonymous))
  = Return tt.
Proof. vm_compute. reflexivity. Qed.

Example checkOp_rejects_empty_object :
  checkOp Registered.types
          (Object {| op_create := None; op_op := None; op_del := None; op_v := None;
                     op_src := None; op_seq := None |})
  = Throw (OTError ERR_OT_OP_BADLY_FORMED).
Proof. vm_compute. reflexivity. Qed.

(** C4, as stated, does not hold.  The object
    [{ create: { type: 'counter' }, del: true }] carries two of the three
    fields and is accepted. *)
Lemma checkOp_accepts_two_shapes :
  shapes create_and_delete = 2%nat /\
  checkOp Registered.types (Object create_and_delete) = Return tt.
Proof. split; vm_compute; reflexivity. Qed.

Lemma checkOp_requires_a_shape_witness :
  exists o, Object (edit_op (JInt 5) None anonymous) = Object o /\ (1 <= shapes o)%nat.
Proof.
  apply (proj1 (checkOp_requires_a_shape Registered.types
                  (Object (edit_op (JInt 5) None anonymous)))).
  vm_compute. reflexivity.
Defined.

End CheckOpExamples.

(** Case analysis on the condition of the first conditional in the goal. *)
Ltac case_if :=
  match goal with
  | |- context [if ?b then _ else _] => destruct b
  end.

(** ** The store *)

Section StoreFacts.
Import Js Error OT Server.

Lemma lookup_ensure_collection {A} (m : gmap string (gmap string A))
    (collection collection' id : string) :
  ensure_collection m collection !! collection' ≫= (fun docs => docs !! id)
  = m !! collection' ≫= (fun docs => docs !! id).
Proof.
  unfold ensure_collection. destruct (m !! collection) eqn:E; [reflexivity |].
  destruct (decide (collection = collection')) as [<-|Hne].
  - rewrite lookup_insert_eq, E. simpl. apply lookup_empty.
  - rewrite lookup_insert_ne by exact Hne. reflexivity.
Qed.

Lemma lookup_set_doc_eq {A} (m : gmap string (gmap string A))
    (collection id : string) (x : A) :
  set_doc m collection id x !! collection ≫= (fun docs => docs !! id) = Some x.
Proof. unfold set_doc. rewrite lookup_insert_eq. simpl. apply lookup_insert_eq. Qed.

Lemma lookup_set_doc_ne {A} (m : gmap string (gmap string A))
    (collection id collection' id' : string) (x : A) :
  (collection, id) ≠ (collection', id') ->
  set_doc m collection id x !! collection' ≫= (fun docs => docs !! id')
  = m !! collection' ≫= (fun docs => docs !! id').
Proof.
  intros Hne. unfold set_doc.
  destruct (decide (collection = collection')) as [<-|Hc].
  - rewrite lookup_insert_eq. simpl.
    rewrite lookup_insert_ne by congruence.
    destruct (m !! collection); [reflexivity | apply lookup_empty].
  - rewrite lookup_insert_ne by exact Hc. reflexivity.
Qed.

Lemma getSnapshot_version (db : MemoryDb) (collection id : string) :
  snap_v (getSnapshot db collection id)
  = match stored_snapshot db collection id with
    | Some s => snap_v s
    | None => 0
    end.
Proof. unfold getSnapshot. destruct (stored_snapshot db collection id); reflexivity. Qed.

Lemma versions_upto_S (n : nat) :
  versions_upto (S n) = versions_upto n ++ [Some (Z.of_nat n)].
Proof. unfold versions_upto. rewrite seq_S, fmap_app. reflexivity. Qed.

Lemma new_MemoryDb_invariant : log_invariant new_MemoryDb.
Proof. intros collection id. split; reflexivity. Qed.

(** A commit keeps the log invariant, provided the snapshot handed to it is
    one version ahead of the op. *)
Lemma commit_invariant (db : MemoryDb) (collection id : string) (op : Op)
    (snapshot : Snapshot) (now : Z) :
  log_invariant db ->
  (forall v, op_v op = Some v -> snap_v snapshot = v + 1) ->
  log_invariant (fst (commit db collection id op snapshot now)).
Proof.
  intros Hinv Hv. unfold commit.
  set (db1 := {| snapshots := ensure_collection (snapshots db) collection;
                 ops := ensure_collection (ops db) collection |}).
  assert (Hsnap : forall c d, stored_snapshot db1 c d = stored_snapshot db c d).
  { intros c d. apply lookup_ensure_collection. }
  assert (Hops : forall c d, docOps db1 c d = docOps db c d).
  { intros c d. unfold docOps. f_equal. apply lookup_ensure_collection. }
  assert (Hinv1 : log_invariant db1).
  { intros c d. specialize (Hinv c d). rewrite Hops.
    rewrite getSnapshot_version, Hsnap, <- getSnapshot_version. exact Hinv. }
  destruct (op_v op) as [v|] eqn:Ev; [| exact Hinv1].
  destruct (Z.eqb_spec v (match stored_snapshot db1 collection id with
                          | Some currentSnapshot => snap_v currentSnapshot
                          | None => 0
                          end)) as [Hcur|Hcur]; [| exact Hinv1].
  cbn [negb fst].
  set (storedOp := {| stored_op := op; stored_c := collection; stored_d := id;
                      stored_ts := now |}).
  set (db2 := {| snapshots := set_doc (snapshots db1) collection id (cloneSnapshot snapshot);
                 ops := set_doc (ops db1) collection id
                                (docOps db1 collection id ++ [storedOp]) |}).
  intros c d.
  destruct (decide ((collection, id) = (c, d))) as [Heq|Hne].
  - injection Heq as <- <-.
    assert (Hd2 : docOps db2 collection id = docOps db1 collection id ++ [storedOp]).
    { unfold docOps at 1. unfold db2. cbn [ops]. rewrite lookup_set_doc_eq. reflexivity. }
    assert (Hs2 : stored_snapshot db2 collection id = Some (cloneSnapshot snapshot)).
    { unfold stored_snapshot, db2. cbn [snapshots]. apply lookup_set_doc_eq. }
    destruct (Hinv1 collection id) as [Hlog Hver].
    rewrite getSnapshot_version in Hver.
    rewrite getSnapshot_version, Hs2, Hd2.
    unfold log_versions in *. rewrite fmap_app, length_app, Hlog.
    rewrite Nat.add_1_r, versions_upto_S.
    cbn [length fmap list_fmap stored_op storedOp snap_v cloneSnapshot].
    rewrite (Hv v eq_refl), Ev. split; [| lia].
    do 3 f_equal. lia.
  - assert (Hd2 : docOps db2 c d = docOps db1 c d).
    { unfold docOps, db2. cbn [ops]. rewrite lookup_set_doc_ne by exact Hne. reflexivity. }
    assert (Hs2 : stored_snapshot db2 c d = stored_snapshot db1 c d).
    { unfold stored_snapshot, db2. cbn [snapshots]. apply lookup_set_doc_ne. exact Hne. }
    rewrite getSnapshot_version, Hs2, Hd2, <- getSnapshot_version.
    exact (Hinv1 c d).
Qed.

End StoreFacts.

(** ** The commit loop *)

Section CommitLoopFacts.
Import Js Error OT Server.

Variable types : Types.TypeRegistry.

Lemma apply_and_commit_invariant (now : Z) (db : MemoryDb) (s : Submission)
    (retries : Z) (snapshot : Snapshot) (opCopy : Op) (transformedOps : list StoredOp) :
  log_invariant db ->
  log_invariant (fst (apply_and_commit types now db s retries snapshot opCopy transformedOps)).
Proof.
  intros Hinv. unfold apply_and_commit.
  destruct (apply types (cloneSnapshot snapshot) opCopy) as [newSnapshot|e] eqn:Happly;
    [| exact Hinv].
  pose proof (commit_invariant db (sub_collection s) (sub_id s) opCopy newSnapshot now Hinv)
    as Hcommit.
  destruct (commit db (sub_collection s) (sub_id s) opCopy newSnapshot now) as [db' committed].
  apply Hcommit. intros v Hv.
  rewrite (apply_version_step types _ _ _ Happly).
  rewrite (apply_version_check types _ _ _ v Happly Hv). reflexivity.
Qed.

Lemma resume_invariant (now : Z) (db : MemoryDb) (s : Submission) :
  log_invariant db -> log_invariant (fst (resume types now db s)).
Proof.
  intros Hinv. unfold resume.
  destruct (sub_task s) as [retries snapshot | retries snapshot opCopy ops
                            | retries opCopy newSnapshot transformedOps committed | outcome].
  - case_if.
    + case_if; exact Hinv.
    + apply apply_and_commit_invariant, Hinv.
  - case_if; [exact Hinv |].
    destruct (rebase types snapshot opCopy ops []) as [[opCopy' transformedOps]|e];
      [| exact Hinv].
    apply apply_and_commit_invariant, Hinv.
  - destruct committed; [exact Hinv |].
    case_if; exact Hinv.
  - exact Hinv.
Qed.

Lemma exec_invariant (sys : System) (ev : Event) :
  log_invariant (sys_db sys) -> log_invariant (sys_db (exec types sys ev)).
Proof.
  intros Hinv. destruct ev as [collection id op maxRetries | i now]; cbn [exec].
  - exact Hinv.
  - destruct (sys_submissions sys !! i) as [s|]; [| exact Hinv].
    pose proof (resume_invariant now (sys_db sys) s Hinv) as H.
    destruct (resume types now (sys_db sys) s) as [db' s']. exact H.
Qed.

Lemma execs_invariant (evs : list Event) (sys : System) :
  log_invariant (sys_db sys) -> log_invariant (sys_db (execs types sys evs)).
Proof.
  revert sys. induction evs as [|ev evs IH]; intros sys Hinv; [exact Hinv |].
  apply IH, exec_invariant, Hinv.
Qed.

(** C9.  Start from the empty store and let any number of [submitOp] calls
    run, interleaved in any order at their [await]s.  In the store that
    results, the log of every document lists the base versions
    [0, 1, ..., n - 1] in this order, where [n] is its length (so the entry
    at index [i] has [v = i], with no gap and no repetition), and the version
    of the stored snapshot is [n]. *)
Theorem op_log_is_contiguous (evs : list Event) (collection id : string) :
  let db := sys_db (execs types initial evs) in
  log_versions (docOps db collection id)
    = versions_upto (length (docOps db collection id)) /\
  (forall i h, docOps db collection id !! i = Some h ->
               op_v (stored_op h) = Some (Z.of_nat i)) /\
  snap_v (getSnapshot db collection id) = Z.of_nat (length (docOps db collection id)).
Proof.
  intros db.
  destruct (execs_invariant evs initial new_MemoryDb_invariant collection id)
    as [Hlog Hver].
  fold db in Hlog, Hver. split; [exact Hlog | split; [| exact Hver]].
  intros i h Hi.
  assert (Hl : log_versions (docOps db collection id) !! i = Some (op_v (stored_op h))).
  { unfold log_versions. rewrite list_lookup_fmap, Hi. reflexivity. }
  rewrite Hlog in Hl. unfold versions_upto in Hl.
  rewrite list_lookup_fmap in Hl.
  destruct (seq 0 (length (docOps db collection id)) !! i) as [j|] eqn:Hj;
    [| discriminate].
  apply lookup_seq in Hj as [-> _]. simpl in Hl. congruence.
Qed.

End CommitLoopFacts.

(** ** Rebase and resubmission *)

Section RebaseFacts.
Import Js Error OT Server.

Variable types : Types.TypeRegistry.

Lemma transform_keeps_identity (type : TypeArg) (op appliedOp op' : Op) :
  transform types type op appliedOp = Return op' ->
  op_src op' = op_src op /\ op_seq op' = op_seq op.
Proof.
  unfold transform. intros H.
  apply bind_returns in H as (_ & _ & H).
  apply bind_returns in H as (op1 & H1 & H).
  injection H as <-.
  assert (Hop1 : op_src op1 = op_src op /\ op_seq op1 = op_seq op).
  { repeat match type of H1 with
           | (if ?b then _ else _) = _ => destruct b
           end; try discriminate; try (injection H1 as <-; split; reflexivity).
    apply bind_returns in H1 as (_ & _ & H1).
    apply bind_returns in H1 as (resolvedType & _ & H1).
    apply bind_returns in H1 as (payload & _ & H1).
    injection H1 as <-. split; reflexivity. }
  exact Hop1.
Qed.

Lemma same_submission_identity (op op' : Op) (h : StoredOp) :
  op_src op' = op_src op -> op_seq op' = op_seq op ->
  same_submission op' h = same_submission op h.
Proof. intros Hsrc Hseq. unfold same_submission. rewrite Hsrc, Hseq. reflexivity. Qed.

Lemma rebase_keeps_identity (snapshot : Snapshot) (ops acc acc' : list StoredOp)
    (op op' : Op) :
  rebase types snapshot op ops acc = Return (op', acc') ->
  op_src op' = op_src op /\ op_seq op' = op_seq op.
Proof.
  revert op acc. induction ops as [|h ops IH]; intros op acc H; simpl in H.
  - injection H as <- _. split; reflexivity.
  - destruct (same_submission op h); [discriminate |].
    apply bind_returns in H as (op1 & H1 & H).
    apply transform_keeps_identity in H1 as [Hsrc Hseq].
    apply IH in H as [Hsrc' Hseq']. split; congruence.
Qed.

Lemma rebase_app (snapshot : Snapshot) (pre rest acc : list StoredOp) (op : Op) :
  rebase types snapshot op (pre ++ rest) acc
  = match rebase types snapshot op pre acc with
    | Return (op', acc') => rebase types snapshot op' rest acc'
    | Throw e => Throw e
    end.
Proof.
  revert op acc. induction pre as [|h pre IH]; intros op acc; simpl; [reflexivity |].
  destruct (same_submission op h); [reflexivity |].
  destruct (transform types (type_arg snapshot) op (stored_op h)) as [op1|e];
    simpl; [apply IH | reflexivity].
Qed.

(** The loop cannot get past an entry that carries the identity of the op:
    either an earlier transform has already thrown, or the loop throws
    [ERR_OP_ALREADY_SUBMITTED] there. *)
Lemma rebase_stops_at_resubmission (snapshot : Snapshot) (pre post : list StoredOp)
    (h : StoredOp) (op : Op) :
  same_submission op h = true ->
  rebase types snapshot op (pre ++ h :: post) []
  = Throw match rebase types snapshot op pre [] with
          | Return _ => OTError ERR_OP_ALREADY_SUBMITTED
          | Throw e => e
          end.
Proof.
  intros Hsame. rewrite rebase_app.
  destruct (rebase types snapshot op pre []) as [[op' acc']|e] eqn:Hpre; [| reflexivity].
  apply rebase_keeps_identity in Hpre as [Hsrc Hseq].
  simpl. rewrite (same_submission_identity op op' h Hsrc Hseq), Hsame. reflexivity.
Qed.

Lemma filter_in_range (log : list StoredOp) (off : nat) (k V : Z) :
  log_versions log = (fun i => Some (Z.of_nat i)) <$> seq off (length log) ->
  Z.of_nat (off + length log) <= V ->
  List.filter (in_range k (Some V)) log = drop (Z.to_nat k - off) log.
Proof.
  revert off. induction log as [|h log IH]; intros off Hlog HV.
  - now rewrite drop_nil.
  - simpl in Hlog. injection Hlog as Hh Hrest.
    simpl in HV. simpl List.filter. unfold in_range at 1. rewrite Hh.
    rewrite (proj2 (Z.ltb_lt (Z.of_nat off) V)) by lia. rewrite andb_true_r.
    rewrite (IH (S off) Hrest) by lia.
    destruct (Z.geb_spec (Z.of_nat off) k) as [Hge|Hlt].
    + replace (Z.to_nat k - off)%nat with 0%nat by lia.
      replace (Z.to_nat k - S off)%nat with 0%nat by lia.
      reflexivity.
    + replace (Z.to_nat k - off)%nat with (S (Z.to_nat k - S off)) by lia.
      reflexivity.
Qed.

(** On a store with contiguous logs, [getOps] returns every entry the rebase
    needs. *)
Lemma getOps_complete (db : MemoryDb) (collection id : string) (k : Z) :
  log_invariant db ->
  0 <= k <= snap_v (getSnapshot db collection id) ->
  Z.of_nat (length (getOps db collection id k
                           (Some (snap_v (getSnapshot db collection id)))))
  = snap_v (getSnapshot db collection id) - k.
Proof.
  intros Hinv Hk. destruct (Hinv collection id) as [Hlog Hver].
  unfold getOps. rewrite (filter_in_range _ 0); [| exact Hlog | lia].
  rewrite length_drop. lia.
Qed.

Lemma clone_op_identity (op : Op) (src : string) (seq : Z) :
  op_src op = Some (JStr src) -> op_seq op = Some (JInt seq) ->
  op_src (clone_op op) = Some (JStr src) /\ op_seq (clone_op op) = Some (JInt seq).
Proof. intros Hsrc Hseq. unfold clone_op. simpl. rewrite Hsrc, Hseq. split; reflexivity. Qed.

(** The first step of a submission whose base version is behind the
    snapshot: the op is copied and the log range is fetched. *)
Lemma resume_fetches_ops (now : Z) (db : MemoryDb) (s : Submission)
    (retries k : Z) (snapshot : Snapshot) :
  sub_task s = AwaitSnapshot retries snapshot ->
  op_v (sub_op s) = Some k ->
  k < snap_v snapshot ->
  resume types now db s
  = (db, with_task s (sub_op s)
           (AwaitOps retries snapshot (clone_op (sub_op s))
              (getOps db (sub_collection s) (sub_id s) k (Some (snap_v snapshot))))).
Proof.
  intros Htask Hv Hk. unfold resume. rewrite Htask.
  assert (Hcv : op_v (clone_op (sub_op s)) = Some k) by exact Hv.
  rewrite !Hcv. cbn [default]. rewrite ?Hcv. cbn [default]. unfold id.
  rewrite (proj2 (Z.eqb_neq k (snap_v snapshot))) by lia. cbn [negb].
  replace (k >? snap_v snapshot) with false
    by (symmetry; rewrite Z.gtb_ltb; apply Z.ltb_ge; lia).
  reflexivity.
Qed.

(** The second step, when the rebase loop throws. *)
Lemma resume_rebase_throws (now : Z) (db : MemoryDb) (s : Submission)
    (retries k : Z) (snapshot : Snapshot) (opCopy : Op) (ops : list StoredOp)
    (e : Exception) :
  sub_task s = AwaitOps retries snapshot opCopy ops ->
  op_v opCopy = Some k ->
  Z.of_nat (length ops) = snap_v snapshot - k ->
  rebase types snapshot opCopy ops [] = Throw e ->
  resume types now db s = (db, with_task s (sub_op s) (Done (Throw e))).
Proof.
  intros Htask Hv Hlen Hrebase. unfold resume. rewrite Htask, Hv. cbn [default].
  unfold id.
  rewrite Hlen, Z.eqb_refl. cbn [negb]. rewrite Hrebase. reflexivity.
Qed.

(** C6 (amended).  Take a store with contiguous logs, and an op that
    [checkOp] accepts, with a base version [k] behind the snapshot, a
    non-empty [src] and a [seq].  If an entry [h] of the log range
    [[k, snapshot.v)] carries the same [src] and [seq], then [submitOp]
    fails and leaves the store exactly as it was.  The error is
    [ERR_OP_ALREADY_SUBMITTED] when the op transforms without error over the
    entries before [h]; otherwise it is the error thrown on the way there. *)
Theorem submitOp_rejects_resubmission (now : Z) (db : MemoryDb) (collection id : string)
    (op : Op) (maxRetries : option Z) (k : Z) (src : string) (seq : Z)
    (pre post : list StoredOp) (h : StoredOp) :
  log_invariant db ->
  checkOp types (Object op) = Return tt ->
  op_v op = Some k ->
  0 <= k < snap_v (getSnapshot db collection id) ->
  op_src op = Some (JStr src) -> src ≠ ""%string -> op_seq op = Some (JInt seq) ->
  getOps db collection id k (Some (snap_v (getSnapshot db collection id)))
    = pre ++ h :: post ->
  op_src (stored_op h) = Some (JStr src) -> op_seq (stored_op h) = Some (JInt seq) ->
  submitOp_alone types now db collection id op maxRetries
  = (db,
     {| sub_collection := collection; sub_id := id; sub_op := op;
        sub_maxRetries := default 10 maxRetries;
        sub_task :=
          Done (Throw match rebase types (getSnapshot db collection id)
                                   (clone_op op) pre [] with
                      | Return _ => OTError ERR_OP_ALREADY_SUBMITTED
                      | Throw e => e
                      end) |}).
Proof.
  intros Hinv Hcheck Hv Hk Hsrc Hne Hseq Hops Hhsrc Hhseq.
  destruct (clone_op_identity op src seq Hsrc Hseq) as [Hcsrc Hcseq].
  assert (Hsame : same_submission (clone_op op) h = true).
  { unfold same_submission. rewrite Hcsrc, Hcseq, Hhsrc, Hhseq. simpl.
    rewrite String.eqb_refl, andb_true_r.
    rewrite (proj2 (Qeq_bool_iff _ _) (Qeq_refl _)), andb_true_r.
    destruct (String.eqb_spec src ""); [contradiction | reflexivity]. }
  pose proof (getOps_complete db collection id k Hinv ltac:(lia)) as Hlen.
  unfold submitOp_alone, submitOp. rewrite Hcheck.
  unfold enough_fuel. cbn [sub_maxRetries].
  generalize (Z.to_nat (default 10 maxRetries)). intros m.
  replace (3 * (m + 2))%nat with (S (S (3 * m + 4))) by lia.
  cbn [run_alone sub_task].
  erewrite resume_fetches_ops; [| reflexivity | exact Hv | lia].
  cbn [with_task sub_collection sub_id sub_op sub_maxRetries sub_task].
  erewrite resume_rebase_throws;
    [| reflexivity | exact Hv | exact Hlen
     | rewrite Hops; apply rebase_stops_at_resubmission, Hsame].
  cbn [with_task sub_collection sub_id sub_op sub_maxRetries sub_task].
  destruct (3 * m + 4)%nat; reflexivity.
Qed.

End RebaseFacts.

(** ** The replica *)

Section ReplicaFacts.
Import Js OT Client.

Lemma extends_refl (w : World) : extends w w.
Proof. repeat split. exists []. now rewrite app_nil_r. Qed.

Lemma for_each_effects {A} (xs : list A) (f : A -> Effect) (w : World) :
  for_each xs (fun x => effect (f x)) w
  = ({| doc := doc w; connection := connection w; trace := trace w ++ map f xs |},
     Normal tt).
Proof.
  revert w. induction xs as [|x xs IH]; intros w; simpl.
  - rewrite app_nil_r. now destruct w.
  - unfold mbind, M_bind, bind. simpl. rewrite IH. simpl.
    now rewrite <- app_assoc.
Qed.

Lemma callbacks_called (error : string) (callbacks : list (option Callback)) (w : World) :
  for_each callbacks (fun callback => call callback [AError error]) w
  = ({| doc := doc w; connection := connection w;
        trace := trace w ++ flat_map (fun callback =>
                                        match callback with
                                        | Some fn => [Invoked fn [AError error]]
                                        | None => []
                                        end) callbacks |},
     Normal tt).
Proof.
  revert w. induction callbacks as [|cb cbs IH]; intros w; simpl.
  - rewrite app_nil_r. now destruct w.
  - unfold mbind, M_bind, bind. destruct cb as [fn|]; simpl; rewrite IH; simpl.
    + now rewrite <- app_assoc.
    + reflexivity.
Qed.

Lemma rollback_calls_made (error : string) (ops : list PendingOp) (w : World) :
  for_each ops (fun op =>
     for_each (pending_callbacks op) (fun callback => call callback [AError error])) w
  = ({| doc := doc w; connection := connection w;
        trace := trace w ++ rollback_calls error ops |},
     Normal tt).
Proof.
  revert w. induction ops as [|op ops IH]; intros w; simpl.
  - rewrite app_nil_r. now destruct w.
  - unfold mbind, M_bind, bind. rewrite callbacks_called. rewrite IH. simpl.
    now rewrite <- app_assoc.
Qed.

Lemma emit_extends (event : string) (args : list Arg) (w : World) :
  extends w (fst (emit event args w)).
Proof.
  unfold emit, mbind, M_bind, bind, read_doc. simpl.
  set (called := List.filter (listens_to event) (listeners (doc w))).
  assert (Hgo : extends w
            (fst ((let (w', o) :=
                     update_doc (set_listeners
                       (List.filter (fun l => negb (listens_to event l && listener_once l))
                                    (listeners (doc w)))) w in
                   match o with
                   | Normal a => for_each called (fun l => effect (Invoked (listener_fn l) args)) w'
                   | Abrupt e => (w', Abrupt e)
                   end)))).
  { simpl. rewrite for_each_effects. simpl. repeat split. eexists. reflexivity. }
  destruct called as [|l ls]; [| exact Hgo].
  destruct (String.eqb event "error"); [| exact Hgo].
  destruct args as [|[message|x|b] args]; exact Hgo.
Qed.

Lemma subscribe_again (w : World) :
  subscribed (doc w) = false ->
  subscribe None w
  = if conn_canSend (connection w)
    then if conn_transport (connection w)
         then ({| doc := doc w; connection := connection w;
                  trace := trace w
                           ++ [Sent (SubscribeRequest (collection (doc w)) (id (doc w)))] |},
               Normal tt)
         else (w, Abrupt (JsError "No transport bound to connection"))
    else (w, Normal tt).
Proof.
  intros Hsub.
  unfold subscribe, sendSubscribe, _send, mbind, M_bind, bind, read_doc, read_connection.
  cbn [fst snd]. rewrite Hsub.
  destruct (conn_canSend (connection w)) eqn:HcanSend; cbn.
  - destruct (conn_transport (connection w)); cbn; [| reflexivity].
    rewrite HcanSend. reflexivity.
  - reflexivity.
Qed.

Lemma requests_app (l k : list Effect) : requests (l ++ k) = requests l ++ requests k.
Proof. unfold requests. apply flat_map_app. Qed.

Lemma requests_Invoked {A} (f : A -> Callback) (args : list Arg) (xs : list A) :
  requests (map (fun x => Invoked (f x) args) xs) = [].
Proof. induction xs; [reflexivity | exact IHxs]. Qed.

(** What [emit] adds to the trace holds no request. *)
Lemma emit_trace (event : string) (args : list Arg) (w : World) :
  exists rest, trace (fst (emit event args w)) = trace w ++ rest /\ requests rest = [].
Proof.
  unfold emit, mbind, M_bind, bind, read_doc. simpl.
  set (called := List.filter (listens_to event) (listeners (doc w))).
  assert (Hgo : exists rest,
            trace (fst ((let (w', o) :=
                           update_doc (set_listeners
                             (List.filter (fun l => negb (listens_to event l && listener_once l))
                                          (listeners (doc w)))) w in
                         match o with
                         | Normal a =>
                             for_each called (fun l => effect (Invoked (listener_fn l) args)) w'
                         | Abrupt e => (w', Abrupt e)
                         end))) = trace w ++ rest /\ requests rest = []).
  { simpl. rewrite for_each_effects. simpl. eexists. split; [reflexivity |].
    apply (requests_Invoked listener_fn). }
  assert (Hstay : exists rest, trace w = trace w ++ rest /\ requests rest = []).
  { exists []. split; [now rewrite app_nil_r | reflexivity]. }
  destruct called as [|l ls]; [| exact Hgo].
  destruct (String.eqb event "error"); [| exact Hgo].
  destruct args as [|[message|x|b] args]; first [exact Hstay | exact Hgo].
Qed.

(** C7 (amended).  When an op message that carries an error reaches a
    replica whose [inflightOp] is set, the replica ends up with no inflight
    op, no pending ops, no type, no data and a [null] version, and is marked
    as not subscribed.  Every callback of the inflight op and of every
    pending op has been called with the error, in queue order, before
    anything else happens.  When the connection can send, the subscribe
    request for the document is the next thing sent.  When the connection
    cannot send, no request is sent at all, and getting the connection back
    sends none either: [_onConnectionStateChanged] finds nothing to flush and
    changes nothing, so the replica stays unsubscribed.  All this holds
    whether the handler then returns or throws (an ['error'] event without
    listener throws). *)
Theorem rejected_inflight_is_rolled_back (types : Types.TypeRegistry)
    (message : OpMessage) (error : ErrorEnvelope) (inflight : PendingOp) (w : World) :
  msg_error message = Some error ->
  inflightOp (doc w) = Some inflight ->
  let w' := fst (handle_op_message types message w) in
  inflightOp (doc w') = None /\
  pendingOps (doc w') = [] /\
  type (doc w') = None /\
  data (doc w') = JUndefined /\
  version (doc w') = VNull /\
  subscribed (doc w') = false /\
  (exists rest,
     trace w' = trace w
                ++ rollback_calls (err_message error) (inflight :: pendingOps (doc w))
                ++ rest /\
     (conn_canSend (connection w) = true -> conn_transport (connection w) = true ->
      exists rest',
        rest = Sent (SubscribeRequest (collection (doc w)) (id (doc w))) :: rest') /\
     (conn_canSend (connection w) = false -> requests rest = [])) /\
  (conn_canSend (connection w) = false ->
   forall w2, doc w2 = doc w' -> conn_canSend (connection w2) = true ->
              _onConnectionStateChanged w2 = (w2, Normal tt)).
Proof.
  intros Herr Hinflight w'.
  assert (Hmain :
    inflightOp (doc w') = None /\
    pendingOps (doc w') = [] /\
    type (doc w') = None /\
    data (doc w') = JUndefined /\
    version (doc w') = VNull /\
    subscribed (doc w') = false /\
    (exists rest,
       trace w' = trace w
                  ++ rollback_calls (err_message error) (inflight :: pendingOps (doc w))
                  ++ rest /\
       (conn_canSend (connection w) = true -> conn_transport (connection w) = true ->
        exists rest',
          rest = Sent (SubscribeRequest (collection (doc w)) (id (doc w))) :: rest') /\
       (conn_canSend (connection w) = false -> requests rest = []))).
  { subst w'.
    unfold handle_op_message, _handleOp. rewrite Herr.
    unfold mbind, M_bind, bind, read_doc. cbn [fst snd]. rewrite Hinflight.
    unfold _rollback, _hardRollback, mbind, M_bind, bind, read_doc. rewrite Hinflight.
    cbn [update_doc doc connection trace].
    rewrite rollback_calls_made. cbn [update_doc doc connection trace].
    set (w1 := {| doc := set_subscribed false
                           (set_version VNull
                              (set_type_data None JUndefined
                                 (set_pendingOps [] (set_inflightOp None (doc w)))));
                  connection := connection w;
                  trace := trace w
                           ++ rollback_calls (err_message error)
                                             (inflight :: pendingOps (doc w)) |}).
    rewrite (subscribe_again w1 eq_refl).
    change (connection w1) with (connection w).
    destruct (conn_canSend (connection w)) eqn:HcanSend;
      [destruct (conn_transport (connection w)) eqn:Htransport |].
    - match goal with
      | |- context [emit ?ev ?args ?w0] =>
          pose proof (emit_extends ev args w0) as Hemit;
          pose proof (emit_trace ev args w0) as (rest & Hrest & _);
          destruct (emit ev args w0) as [w2 o]
      end.
      destruct Hemit as (Hi & Hp & Ht & Hd & Hv & Hs & _).
      cbn [fst doc connection trace] in *. rewrite Hi, Hp, Ht, Hd, Hv, Hs, Hrest.
      repeat split. eexists. split; [| split].
      + unfold w1. cbn [trace]. rewrite <- !app_assoc. reflexivity.
      + intros _ _. eexists. reflexivity.
      + discriminate.
    - cbn [fst]. repeat split. exists []. split; [now rewrite app_nil_r |].
      split; discriminate.
    - match goal with
      | |- context [emit ?ev ?args ?w0] =>
          pose proof (emit_extends ev args w0) as Hemit;
          pose proof (emit_trace ev args w0) as (rest & Hrest & Hquiet);
          destruct (emit ev args w0) as [w2 o]
      end.
      destruct Hemit as (Hi & Hp & Ht & Hd & Hv & Hs & _).
      cbn [fst doc connection trace] in *. rewrite Hi, Hp, Ht, Hd, Hv, Hs, Hrest.
      repeat split. exists rest. split; [| split].
      + unfold w1. cbn [trace]. rewrite <- !app_assoc. reflexivity.
      + discriminate.
      + intros _. exact Hquiet. }
  destruct Hmain as (Hi & Hp & Ht & Hd & Hv & Hs & Htrace).
  repeat (split; [assumption |]).
  intros _ w2 Hdoc HcanSend2.
  unfold _onConnectionStateChanged, flush, mbind, M_bind, bind, read_connection, read_doc.
  cbn [fst snd]. rewrite HcanSend2. cbn [fst snd]. rewrite HcanSend2, Hdoc, Hi, Hp.
  reflexivity.
Qed.

End ReplicaFacts.

(** ** Scenarios *)

Section Scenarios.
Import Js Error OT Server Samples.

Lemma run_alone_invariant (types : Types.TypeRegistry) (now : Z) (fuel : nat)
    (db : MemoryDb) (s : Submission) :
  log_invariant db -> log_invariant (fst (run_alone types now fuel db s)).
Proof.
  revert db s. induction fuel as [|fuel IH]; intros db s Hinv; [exact Hinv |].
  simpl. destruct (sub_task s); try exact Hinv;
    (pose proof (resume_invariant types now db s Hinv) as Hstep;
     destruct (resume types now db s) as [db' s']; apply IH, Hstep).
Qed.

Lemma after_submissions_invariant (submitted : list Op) :
  log_invariant (after_submissions submitted).
Proof.
  unfold after_submissions. generalize new_MemoryDb_invariant.
  generalize new_MemoryDb. induction submitted as [|op ops IH]; intros db Hinv;
    [exact Hinv |].
  simpl. apply IH. unfold submitOp_alone. apply run_alone_invariant, Hinv.
Qed.

(** C6, as stated, does not hold, in two ways.  First: the range
    [[1, 4)] of the log holds an entry with the [src] and [seq] of the
    submitted op, yet the submission fails with [ERR_DOC_WAS_DELETED], thrown
    by the transform against the delete that comes first.  Second: with the
    empty string as [src], the entry at version 1 has the [src] and [seq] of
    the submitted op, and the submission is committed all the same. *)
Lemma resubmission_not_always_already_submitted :
  ((exists h, h ∈ getOps log_with_delete "docs" "d1" 1
                     (Some (snap_v (getSnapshot log_with_delete "docs" "d1")))
              /\ op_src (stored_op h) = op_src resubmitted_behind_delete
              /\ op_seq (stored_op h) = op_seq resubmitted_behind_delete)
   /\ sub_task (snd (submitOp_alone Registered.types 0 log_with_delete "docs" "d1"
                                    resubmitted_behind_delete None))
      = Done (Throw (OTError ERR_DOC_WAS_DELETED)))
  /\
  ((exists h, h ∈ getOps log_of_empty_src "docs" "d1" 1
                     (Some (snap_v (getSnapshot log_of_empty_src "docs" "d1")))
              /\ op_src (stored_op h) = op_src resubmitted_empty_src
              /\ op_seq (stored_op h) = op_seq resubmitted_empty_src)
   /\ returned (match sub_task (snd (submitOp_alone Registered.types 0 log_of_empty_src
                                       "docs" "d1" resubmitted_empty_src None)) with
                | Done outcome => outcome
                | _ => Throw IllTypedPayload
                end) = true
   /\ length (docOps (fst (submitOp_alone Registered.types 0 log_of_empty_src
                             "docs" "d1" resubmitted_empty_src None)) "docs" "d1")
      = 3%nat).
Proof.
  split; [split | split; [| split]].
  - exists (stored (edit_op (JInt 5) (Some 3) (identity "a" 2))).
    split; [| split; reflexivity].
    vm_compute. do 2 right. left.
  - vm_compute. reflexivity.
  - exists (stored (edit_op (JInt 5) (Some 1) (identity "" 2))).
    split; [| split; reflexivity].
    vm_compute. left.
  - vm_compute. reflexivity.
  - vm_compute. reflexivity.
Qed.

(** The same resubmission, with nothing in the way. *)
Lemma submitOp_rejects_resubmission_witness :
  submitOp_alone Registered.types 0 log_of_two_clients "docs" "d1" resubmitted None
  = (log_of_two_clients,
     {| sub_collection := "docs"; sub_id := "d1"; sub_op := resubmitted;
        sub_maxRetries := 10;
        sub_task := Done (Throw (OTError ERR_OP_ALREADY_SUBMITTED)) |}).
Proof.
  apply (submitOp_rejects_resubmission Registered.types 0 log_of_two_clients
           "docs" "d1" resubmitted None 1 "a" 2 []
           [stored (edit_op (JInt 3) (Some 2) (identity "b" 1))]
           (stored (edit_op (JInt 5) (Some 1) (identity "a" 2)))).
  - apply after_submissions_invariant.
  - vm_compute. reflexivity.
  - reflexivity.
  - vm_compute. split; [discriminate | reflexivity].
  - reflexivity.
  - discriminate.
  - reflexivity.
  - vm_compute. reflexivity.
  - reflexivity.
  - reflexivity.
Defined.

(** A step changes the caller's op only when it starts a retry. *)
Lemma resume_keeps_op (types : Types.TypeRegistry) (now : Z) (db : MemoryDb)
    (s : Submission) :
  (forall retries opCopy newSnapshot transformedOps,
     sub_task s <> AwaitCommit retries opCopy newSnapshot transformedOps false) ->
  sub_op (snd (resume types now db s)) = sub_op s.
Proof.
  intros Hretry. unfold resume, apply_and_commit.
  destruct (sub_task s) as [retries snapshot | retries snapshot opCopy ops
                            | retries opCopy newSnapshot transformedOps committed | outcome].
  - repeat match goal with
           | |- context [if ?b then _ else _] => destruct b
           | |- context [match apply ?a ?b ?c with _ => _ end] => destruct (apply a b c)
           | |- context [let '(_, _) := ?p in _] => destruct p
           end; reflexivity.
  - repeat match goal with
           | |- context [if ?b then _ else _] => destruct b
           | |- context [match rebase ?a ?b ?c ?d ?e with _ => _ end] =>
               destruct (rebase a b c d e) as [[? ?]|?]
           | |- context [match apply ?a ?b ?c with _ => _ end] => destruct (apply a b c)
           | |- context [let '(_, _) := ?p in _] => destruct p
           end; reflexivity.
  - destruct committed; [reflexivity |].
    exfalso. exact (Hretry retries opCopy newSnapshot transformedOps eq_refl).
  - reflexivity.
Qed.

(** C8.  Two clients insert into "hello" against version 1, and both calls
    of [submitOp] are made before either is resumed.  The first commits; the
    commit of the second meets a version conflict, and the retry sets [v] of
    the caller's op object to [undefined].  So the caller's op is modified,
    and the retry does not start from the op as submitted: it takes the
    current version as base, is not transformed against the first insert,
    and puts "B" at position 3 of "Ahello". *)
Theorem submitOp_retry_modifies_callers_op :
  op_v insert_B = Some 1 /\
  (sub_op <$> sys_submissions concurrent_inserts !! 2%nat) = Some (set_v insert_B None) /\
  (sub_task <$> sys_submissions concurrent_inserts !! 2%nat)
  = Some (Done (Return
       {| result_op := insert_op 3 "B" (Some 2) (identity "2" 1);
          result_snapshot :=
            {| snap_id := "d1"; snap_v := 3;
               snap_type := Some "http://sharejs.org/types/simple-text";
               snap_data := JStr "AheBllo"; snap_m := None |};
          result_ops := [] |})) /\
  TextType.apply (TextType.apply "hello" (TextType.InsertOp 0 "A"))
                 (TextType.transform (TextType.InsertOp 3 "B") (TextType.InsertOp 0 "A")
                                     Types.left)
  = "AhelBlo"%string.
Proof. repeat split; vm_compute; reflexivity. Qed.

Lemma op_log_is_contiguous_witness :
  op_v (stored_op (stored (insert_op 0 "A" (Some 1) (identity "1" 2)))) = Some 1.
Proof.
  apply (proj1 (proj2 (op_log_is_contiguous Registered.types
           [ Call "docs" "d1"
                  (create_op "simple-text" (JStr "hello") (Some 0) (identity "1" 1)) None;
             Resume 0 0; Resume 0 0;
             Call "docs" "d1" insert_A None; Resume 1 0; Resume 1 0 ]
           "docs" "d1")) 1%nat).
  vm_compute. reflexivity.
Defined.

End Scenarios.

Section ReplicaScenario.
Import Js OT Client Samples.

Lemma rejected_inflight_is_rolled_back_witness :
  let w' := fst (handle_op_message Registered.types rejection rejected_world) in
  inflightOp (doc w') = None /\ pendingOps (doc w') = [] /\ type (doc w') = None /\
  data (doc w') = JUndefined /\ version (doc w') = VNull /\ subscribed (doc w') = false /\
  trace w' = [ Invoked 1%nat [AError "Document was deleted"];
               Invoked 2%nat [AError "Document was deleted"];
               Sent (SubscribeRequest "docs" "d1");
               Invoked 9%nat [AError "Document was deleted"] ].
Proof.
  destruct (rejected_inflight_is_rolled_back Registered.types rejection
              {| err_code := "ERR_DOC_WAS_DELETED"; err_message := "Document was deleted" |}
              {| pending_op := edit_op (JInt 5) (Some 1) (identity "1" 2);
                 pending_type := Some Registered.counterType;
                 pending_callbacks := [Some 1%nat] |}
              rejected_world eq_refl eq_refl)
    as (Hi & Hp & Ht & Hd & Hv & Hs & _).
  repeat split; assumption.
Defined.

(** A rejection that arrives while the connection cannot send starts no
    resubscribe.  The replica of [offline_world] has an op in flight and the
    message carries an error; the rollback sends nothing (the trace holds the
    three calls and no request) and leaves the replica unsubscribed, and
    when the connection can send again [_onConnectionStateChanged] sends
    nothing either. *)
Lemma offline_rejection_starts_no_resubscribe :
  msg_error rejection <> None /\
  inflightOp (doc offline_world) <> None /\
  let w' := fst (handle_op_message Registered.types rejection offline_world) in
  trace w' = [ Invoked 1%nat [AError "Document was deleted"];
               Invoked 2%nat [AError "Document was deleted"];
               Invoked 9%nat [AError "Document was deleted"] ] /\
  requests (trace w') = [] /\
  subscribed (doc w') = false /\
  let w'' := fst (_onConnectionStateChanged (reconnected w')) in
  requests (trace w'') = [] /\
  subscribed (doc w'') = false.
Proof. repeat split; discriminate. Qed.

End ReplicaScenario.

(* ===================================================================== *)
(** * Further properties *)
(* ===================================================================== *)

(** ** The simple-text type: lengths, validity, inverses *)

Section TextTypeLaws.
Import Js TextType.

#[local] Abbreviation chars := list_ascii_of_string.

Lemma relative_index_bounds (k len : Z) :
  0 <= len -> 0 <= relative_index k len <= len.
Proof.
  intros Hlen. unfold relative_index. destruct (Z.ltb_spec k 0); lia.
Qed.

(** [s.slice(0, e)] is a prefix and [s.slice(a)] the matching suffix,
    whatever the index. *)
Lemma chars_slice_to (s : string) (e : Z) :
  chars (slice s 0 (Some e))
  = take (Z.to_nat (relative_index e (Z.of_nat (String.length s)))) (chars s).
Proof.
  unfold slice. change (relative_index 0 (Z.of_nat (String.length s)))
    with (Z.min 0 (Z.of_nat (String.length s))).
  rewrite Z.min_l by lia. rewrite chars_substring, drop_0. f_equal.
  pose proof (relative_index_bounds e (Z.of_nat (String.length s))). lia.
Qed.

Lemma chars_slice_from (s : string) (a : Z) :
  chars (slice s a None)
  = drop (Z.to_nat (relative_index a (Z.of_nat (String.length s)))) (chars s).
Proof.
  unfold slice. rewrite chars_substring.
  pose proof (relative_index_bounds a (Z.of_nat (String.length s))).
  apply take_ge. rewrite length_drop, chars_length. lia.
Qed.

Lemma string_length_chars (s : string) : String.length s = length (chars s).
Proof. symmetry. apply chars_length. Qed.

Lemma length_apply_insert (s : string) (p : Z) (text : string) :
  String.length (apply s (InsertOp p text))
  = (String.length s + String.length text)%nat.
Proof.
  rewrite !string_length_chars. unfold apply.
  rewrite !chars_append, chars_slice_to, chars_slice_from, !length_app.
  rewrite length_take, length_drop.
  pose proof (relative_index_bounds p (Z.of_nat (String.length s))).
  rewrite <- !string_length_chars. lia.
Qed.

Lemma chars_apply_delete (s : string) (p c : Z) :
  0 <= p -> 0 <= c ->
  chars (apply s (DeleteOp p c))
  = take (Z.to_nat p) (chars s) ++ drop (Z.to_nat p + Z.to_nat c) (chars s).
Proof.
  intros Hp Hc. unfold apply. rewrite chars_append, chars_slice_to, chars_slice_from.
  unfold relative_index.
  rewrite (proj2 (Z.ltb_ge p 0)), (proj2 (Z.ltb_ge (p + c) 0)) by lia.
  f_equal.
  - destruct (Z.le_gt_cases p (Z.of_nat (String.length s))).
    + now rewrite Z.min_l by lia.
    + rewrite Z.min_r by lia. rewrite !take_ge; [reflexivity | |];
        rewrite chars_length; lia.
  - destruct (Z.le_gt_cases (p + c) (Z.of_nat (String.length s))).
    + rewrite Z.min_l by lia. f_equal. lia.
    + rewrite Z.min_r by lia. rewrite !drop_ge; [reflexivity | |];
        rewrite chars_length; lia.
Qed.

Lemma length_apply_delete (s : string) (p count : Z) :
  0 <= p -> 0 <= count ->
  Z.of_nat (String.length (apply s (DeleteOp p count)))
  = Z.of_nat (String.length s)
    - Z.max 0 (Z.min (p + count) (Z.of_nat (String.length s)) - p).
Proof.
  intros Hp Hc. rewrite (string_length_chars (apply _ _)), chars_apply_delete by lia.
  rewrite length_app, length_take, length_drop, chars_length. lia.
Qed.

(** X4.  The length of the text after an op.  An insert adds the length of its
    text, whatever the position, negative or beyond the end: no character is
    lost.  A delete with a non-negative position and count removes exactly
    the characters of its range that the snapshot has, and none when the
    range starts beyond the end. *)
Theorem text_apply_length (s : string) (p count : Z) (text : string) :
  String.length (apply s (InsertOp p text))
  = (String.length s + String.length text)%nat /\
  (0 <= p -> 0 <= count ->
   Z.of_nat (String.length (apply s (DeleteOp p count)))
   = Z.of_nat (String.length s)
     - Z.max 0 (Z.min (p + count) (Z.of_nat (String.length s)) - p)).
Proof. split; [apply length_apply_insert | apply length_apply_delete]. Qed.

Lemma text_apply_length_witness :
  Z.of_nat (String.length (apply "hello" (DeleteOp 3 7)))
  = Z.of_nat (String.length "hello")
    - Z.max 0 (Z.min (3 + 7) (Z.of_nat (String.length "hello")) - 3).
Proof. apply (text_apply_length "hello" 3 7 ""); lia. Defined.

End TextTypeLaws.

Section TextTypeConvergence.
Import Js TextType.

#[local] Abbreviation chars := list_ascii_of_string.

(** Cutting [k] elements out of a list at index [n], read by index. *)
Lemma lookup_cut {A} (l : list A) (n k i : nat) :
  (n <= length l)%nat ->
  (take n l ++ drop (n + k) l) !! i = l !! (if decide (i < n)%nat then i else (i + k)%nat).
Proof.
  intros Hn. destruct (decide (i < n)%nat) as [Hi|Hi].
  - rewrite lookup_app_l by (rewrite length_take; lia). now apply lookup_take_lt.
  - rewrite lookup_app_r by (rewrite length_take; lia).
    rewrite lookup_drop, length_take. f_equal. lia.
Qed.

Lemma length_cut {A} (l : list A) (n k : nat) :
  (n + k <= length l)%nat -> length (take n l ++ drop (n + k) l) = (length l - k)%nat.
Proof. intros H. rewrite length_app, length_take, length_drop. lia. Qed.

(** Case analysis on every integer comparison in the goal. *)
Ltac case_compare :=
  repeat match goal with
         | |- context [?a <=? ?b] => destruct (Z.leb_spec a b)
         | |- context [?a >=? ?b] => destruct (Z.geb_spec a b)
         | |- context [?a <? ?b] => destruct (Z.ltb_spec a b)
         | |- context [?a =? ?b] => destruct (Z.eqb_spec a b)
         end.

(** The length of the snapshot after a valid op. *)
Lemma length_apply_valid (s : string) (op : TextOp) :
  valid s op ->
  Z.of_nat (String.length (apply s op))
  = match op with
    | InsertOp _ text => Z.of_nat (String.length s) + Z.of_nat (String.length text)
    | DeleteOp _ count => Z.of_nat (String.length s) - count
    end.
Proof.
  destruct op as [p t | p c]; unfold valid; intros H.
  - rewrite (string_length_chars (apply _ _)), chars_apply_insert by lia.
    rewrite !length_app, length_take, length_drop, !chars_length. lia.
  - rewrite (string_length_chars (apply _ _)), chars_apply_delete by lia.
    rewrite length_app, length_take, length_drop, chars_length. lia.
Qed.

(** X2.  After a concurrent op has been applied, the transformed op is valid on
    the new snapshot: its position and count are non-negative and its range
    lies inside the string.  This holds for every pair of valid ops and both
    sides. *)
Theorem text_transform_valid (s : string) (a b : TextOp) (side : Types.Side) :
  valid s a -> valid s b -> valid (apply s b) (transform a b side).
Proof.
  intros Ha Hb. pose proof (length_apply_valid s b Hb) as Hlen.
  destruct a as [p t | p c], b as [q u | q d]; unfold valid in *;
    unfold transform, pos, set_pos; cbn [orb andb];
    try (destruct (is_right side));
    case_compare; cbn [orb andb]; unfold valid; rewrite ?Hlen; lia.
Qed.

Lemma text_transform_valid_witness :
  valid (apply "hello" (DeleteOp 1 3)) (transform (DeleteOp 2 3) (DeleteOp 1 3) Types.left).
Proof.
  apply (text_transform_valid "hello" (DeleteOp 2 3) (DeleteOp 1 3) Types.left);
    simpl; lia.
Defined.

(** Two valid deletes converge, whichever is applied first: overlapping
    ranges are removed once. *)
Lemma text_TP1_two_deletes (s : string) (p c q d : Z) :
  valid s (DeleteOp p c) -> valid s (DeleteOp q d) ->
  TP1 s (DeleteOp p c) (DeleteOp q d).
Proof.
  unfold valid, TP1. intros Ha Hb. apply chars_inj.
  pose proof (chars_length s) as Hs.
  unfold transform; case_compare;
    (rewrite !chars_apply_delete by lia;
     apply list_eq; intros i;
     rewrite !lookup_cut by (rewrite ?length_cut; lia);
     repeat case_decide; f_equal; lia).
Qed.

(** X1.  Convergence of ops of the same kind.  Two valid inserts, and two valid
    deletes, satisfy the convergence equation of the [OTType] interface:
    applying one and then the other transformed against it gives the same
    text in both orders.  Inserts at the same position are ordered by the
    side; overlapping deletes remove the overlap once. *)
Theorem text_TP1_same_kind (s : string) (a b : TextOp) :
  valid s a -> valid s b -> isInsertOp a = isInsertOp b -> TP1 s a b.
Proof.
  intros Ha Hb Hkind. destruct a as [p t|p c], b as [q u|q d]; try discriminate.
  - now apply text_TP1_inserts.
  - now apply text_TP1_two_deletes.
Qed.

Lemma text_TP1_same_kind_witness : TP1 "hello world" (DeleteOp 2 5) (DeleteOp 4 6).
Proof.
  apply (text_TP1_same_kind "hello world" (DeleteOp 2 5) (DeleteOp 4 6));
    [simpl; lia | simpl; lia | reflexivity].
Defined.

(** X3.  Undoing an insert: the inverse of a valid insert is a delete that gives
    the snapshot back. *)
Theorem text_invert_insert (s : string) (p : Z) (text : string) :
  valid s (InsertOp p text) ->
  exists undo, invert (InsertOp p text) = Some undo /\
               valid (apply s (InsertOp p text)) undo /\
               apply (apply s (InsertOp p text)) undo = s.
Proof.
  unfold valid. intros Hp. eexists. split; [reflexivity |].
  pose proof (length_apply_valid s (InsertOp p text) Hp) as Hlen.
  split; [unfold valid; lia |].
  apply chars_inj. rewrite chars_apply_delete, chars_apply_insert by lia.
  rewrite take_app_length' by (rewrite length_take, chars_length; lia).
  rewrite Nat2Z.id.
  replace (Z.to_nat p + String.length text)%nat
    with (length (take (Z.to_nat p) (chars s) ++ chars text))
    by (rewrite length_app, length_take, !chars_length; lia).
  rewrite app_assoc, drop_app_length. apply take_drop.
Qed.

Lemma text_invert_insert_witness :
  exists undo, invert (InsertOp 2 "XY") = Some undo /\
               valid (apply "hello" (InsertOp 2 "XY")) undo /\
               apply (apply "hello" (InsertOp 2 "XY")) undo = "hello"%string.
Proof. apply (text_invert_insert "hello" 2 "XY"). simpl. lia. Defined.

End TextTypeConvergence.

(** ** The counter type: the range of [create] *)

Section CounterTypeLaws.
Import Js CounterType.

Lemma wrap_int32_range (z : Z) : - 2 ^ 31 <= wrap_int32 z < 2 ^ 31.
Proof.
  unfold wrap_int32.
  pose proof (Z.mod_pos_bound (z + 2 ^ 31) (2 ^ 32) ltac:(lia)). lia.
Qed.

Lemma truncate_integer (z : Z) : truncate (inject_Z z) = z.
Proof. unfold truncate, inject_Z. simpl. apply Z.quot_1_r. Qed.

(** X5.  The range of [create].  Whatever it is given, [create] returns a signed
    32-bit integer; it returns an integer of that range unchanged, so
    creating from a created value changes nothing.  Past the range it wraps
    around: [create(2^31)] is [-2^31], and [create(x + 2^32) = create(x)]
    for every integer [x]. *)
Theorem counter_create_int32 (data : option JsNum) :
  - 2 ^ 31 <= create data < 2 ^ 31 /\
  create (Some (Finite (inject_Z (create data)))) = create data /\
  (forall z, - 2 ^ 31 <= z < 2 ^ 31 -> create (Some (Finite (inject_Z z))) = z) /\
  (forall z, create (Some (Finite (inject_Z (z + 2 ^ 32))))
             = create (Some (Finite (inject_Z z)))) /\
  create (Some (Finite (inject_Z (2 ^ 31)))) = - 2 ^ 31.
Proof.
  assert (Hfix : forall z, - 2 ^ 31 <= z < 2 ^ 31 ->
                           create (Some (Finite (inject_Z z))) = z).
  { intros z Hz. unfold create, ToInt32. rewrite truncate_integer.
    unfold wrap_int32. rewrite Z.mod_small; lia. }
  assert (Hrange : - 2 ^ 31 <= create data < 2 ^ 31).
  { destruct data as [[| |q]|]; unfold create, ToInt32;
      try apply wrap_int32_range; lia. }
  split; [exact Hrange | split; [apply Hfix, Hrange | split; [exact Hfix |]]].
  split; [| reflexivity].
  intros z. unfold create, ToInt32. rewrite !truncate_integer. unfold wrap_int32.
  replace (z + 2 ^ 32 + 2 ^ 31) with (z + 2 ^ 31 + 1 * 2 ^ 32) by lia.
  now rewrite Z.mod_add by lia.
Qed.

Lemma counter_create_int32_witness :
  create (Some (Finite (inject_Z 2147483647))) = 2147483647.
Proof.
  apply (proj1 (proj2 (proj2 (counter_create_int32 None))) 2147483647). lia.
Defined.

End CounterTypeLaws.

(** ** JSON copies *)

Section JsonFacts.
Import Js OT.

(** Copying a copy changes nothing: what [JSON.stringify] writes, it reads
    back and writes again the same. *)
Lemma json_roundtrip_idempotent :
  forall x y, json_roundtrip x = Some y -> json_roundtrip y = Some y.
Proof.
  fix IH 1. intros x y H.
  destruct x as [| |b|n|s|elems|props]; simpl in H.
  - discriminate.
  - injection H as <-. reflexivity.
  - injection H as <-. reflexivity.
  - destruct n; injection H as <-; reflexivity.
  - injection H as <-. reflexivity.
  - injection H as <-. simpl. do 2 f_equal.
    induction elems as [|e elems IHl]; [reflexivity |].
    simpl. rewrite IHl. f_equal.
    destruct (json_roundtrip e) as [e'|] eqn:He; simpl.
    + now rewrite (IH e e' He).
    + reflexivity.
  - injection H as <-. simpl. do 2 f_equal.
    induction props as [|[k e] props IHl]; [reflexivity |].
    simpl. destruct (json_roundtrip e) as [e'|] eqn:He.
    + simpl. rewrite (IH e e' He). now rewrite IHl.
    + exact IHl.
Qed.

Lemma json_roundtrip_default_idempotent (x : JsVal) :
  default JUndefined (json_roundtrip (default JUndefined (json_roundtrip x)))
  = default JUndefined (json_roundtrip x).
Proof.
  destruct (json_roundtrip x) as [y|] eqn:Hx; simpl; [| reflexivity].
  now rewrite (json_roundtrip_idempotent x y Hx).
Qed.

(** X6.  [cloneSnapshot] keeps the id, the version and the type, and a clone of
    a clone is the clone: whatever the deep copy of the data changes
    ([undefined] members, numbers that are not finite), it changes the first
    time. *)
Theorem cloneSnapshot_idempotent (snapshot : Snapshot) :
  cloneSnapshot (cloneSnapshot snapshot) = cloneSnapshot snapshot /\
  snap_id (cloneSnapshot snapshot) = snap_id snapshot /\
  snap_v (cloneSnapshot snapshot) = snap_v snapshot /\
  snap_type (cloneSnapshot snapshot) = snap_type snapshot.
Proof.
  split; [| repeat split].
  unfold cloneSnapshot. cbn [snap_id snap_v snap_type snap_data snap_m].
  now rewrite json_roundtrip_default_idempotent.
Qed.

End JsonFacts.

(** ** The kernel: what [checkOp] guarantees, what [apply] and [transform] change *)

Section KernelLaws.
Import Js Error OT.

Variable types : Types.TypeRegistry.

(** X7.  An accepted op has its identity whole or not at all: [src] and [seq]
    are both absent (or [null]), or [src] is a string and [seq] a number. *)
Theorem checkOp_identity_paired (o : Op) :
  checkOp types (Object o) = Return tt ->
  (is_nullish (read (op_src o)) = true /\ is_nullish (read (op_seq o)) = true) \/
  (typeof_string (read (op_src o)) = true /\ typeof_number (read (op_seq o)) = true).
Proof.
  unfold checkOp. intros H.
  apply bind_returns in H as (_ & _ & H).
  apply bind_returns in H as (u1 & H1 & H).
  apply bind_returns in H as (u2 & H2 & H).
  apply guard_or_throw_returns in H1, H2, H.
  destruct (is_nullish (read (op_src o))), (is_nullish (read (op_seq o)));
    simpl in *; try discriminate; [left | right]; split; try reflexivity.
  - now destruct (typeof_string (read (op_src o))).
  - now destruct (typeof_number (read (op_seq o))).
Qed.

(** X8.  An accepted Create names a registered type, so applying it to a document
    that does not exist, at an agreeing version, cannot fail in the kernel:
    the outcome is that of the type's own [create], and the new snapshot
    carries the type's URI and the next version. *)
Theorem checkOp_create_applies (o : Op) (snapshot : Snapshot) :
  checkOp types (Object o) = Return tt ->
  isCreateOp o = true ->
  has_type snapshot = false ->
  (forall v, op_v o = Some v -> v = snap_v snapshot) ->
  exists name type,
    get_prop (read (op_create o)) "type" = JStr name /\
    Types.get types name = Some type /\
    apply types snapshot o
    = match Types.create type (get_prop (read (op_create o)) "data") with
      | Return data =>
          Return {| snap_id := snap_id snapshot; snap_v := snap_v snapshot + 1;
                    snap_type := Some (Types.uri type); snap_data := data;
                    snap_m := snap_m snapshot |}
      | Throw e => Throw e
      end.
Proof.
  intros Hcheck Hcreate Htype Hv.
  unfold checkOp in Hcheck. apply bind_returns in Hcheck as (u & Hshape & _).
  unfold isCreateOp in Hcreate. rewrite Hcreate in Hshape.
  apply bind_returns in Hshape as (_ & _ & Hshape).
  destruct (get_prop (read (op_create o)) "type") as [| | | |name| |] eqn:Hname;
    try discriminate.
  apply guard_or_throw_returns in Hshape. unfold Types.has in Hshape.
  apply bool_decide_eq_true in Hshape as [type Hget].
  exists name, type. split; [reflexivity | split; [exact Hget |]].
  unfold apply.
  assert (Hguard : (match op_v o with
                    | Some v => negb (snap_v snapshot =? v)
                    | None => false
                    end) = false).
  { destruct (op_v o) as [v|] eqn:Ev; [| reflexivity].
    rewrite (Hv v eq_refl), Z.eqb_refl. reflexivity. }
  rewrite Hguard. unfold isCreateOp. rewrite Hcreate, Htype, Hname.
  cbn [negb guard_or_throw mbind Result_bind bind get_type].
  unfold Types.get in *. rewrite Hget.
  destruct (Types.create type _); reflexivity.
Qed.

Lemma transform_writes (type : TypeArg) (op appliedOp op' : Op) :
  transform types type op appliedOp = Return op' ->
  op_v op' = (fun v => v + 1) <$> op_v op /\
  op_create op' = op_create op /\ op_del op' = op_del op /\
  op_src op' = op_src op /\ op_seq op' = op_seq op /\
  (isEditOp op && isEditOp appliedOp = false -> op_op op' = op_op op).
Proof.
  unfold transform. intros H.
  apply bind_returns in H as (_ & _ & H).
  apply bind_returns in H as (op1 & H1 & H).
  injection H as <-.
  assert (Hop1 : op1 = op \/
                 (isEditOp appliedOp && isEditOp op = true /\
                  exists payload, op1 = set_op op payload)).
  { repeat match type of H1 with
           | (if ?b then _ else _) = _ => destruct b eqn:?
           end; try discriminate; try (injection H1 as <-; now left).
    apply bind_returns in H1 as (_ & _ & H1).
    apply bind_returns in H1 as (resolvedType & _ & H1).
    apply bind_returns in H1 as (payload & _ & H1).
    injection H1 as <-. right. split; [reflexivity | eauto]. }
  destruct Hop1 as [-> | (Hboth & payload & ->)].
  - repeat split; reflexivity.
  - repeat split; try reflexivity.
    rewrite andb_comm, Hboth. discriminate.
Qed.

(** X9.  What [transform] writes: when it returns, the base version is one
    higher (if there was one) and the [create], [del], [src] and [seq] fields
    are as before; the payload is as before too unless both ops are edits. *)
Theorem transform_frame (type : TypeArg) (op appliedOp op' : Op) :
  transform types type op appliedOp = Return op' ->
  op_v op' = (fun v => v + 1) <$> op_v op /\
  op_create op' = op_create op /\ op_del op' = op_del op /\
  op_src op' = op_src op /\ op_seq op' = op_seq op /\
  (isEditOp op && isEditOp appliedOp = false -> op_op op' = op_op op).
Proof. exact (transform_writes type op appliedOp op'). Qed.

(** X10.  The Create row and the no-op row of the transform table.  A Create
    cannot be rebased over anything but a no-op: over a Delete it fails with
    [ERR_DOC_WAS_DELETED], over a Create or an Edit with
    [ERR_DOC_ALREADY_CREATED].  An op with none of the three fields is
    rebased over everything, and only its version moves. *)
Theorem transform_of_create_and_noop (type : TypeArg) (op appliedOp : Op) :
  versions_agree op appliedOp ->
  (is_create_only op ->
   transform types type op appliedOp
   = if isDeleteOp appliedOp then Throw (OTError ERR_DOC_WAS_DELETED)
     else if isCreateOp appliedOp || isEditOp appliedOp
          then Throw (OTError ERR_DOC_ALREADY_CREATED)
          else Return (increment_v op)) /\
  (is_noop op -> transform types type op appliedOp = Return (increment_v op)).
Proof.
  intros Hv.
  assert (Hguard : (match op_v op, op_v appliedOp with
                    | Some v, Some v' => negb (v =? v')
                    | _, _ => false
                    end) = false).
  { destruct (op_v op) as [v|] eqn:Ev, (op_v appliedOp) as [v'|] eqn:Ev';
      try reflexivity.
    rewrite (Hv v v' Ev Ev'), Z.eqb_refl. reflexivity. }
  split; intros (H1 & H2 & H3); unfold transform; rewrite Hguard, H1, H2, H3;
    cbn [negb guard_or_throw mbind Result_bind bind orb andb];
    destruct (isDeleteOp appliedOp), (isCreateOp appliedOp), (isEditOp appliedOp);
    reflexivity.
Qed.

(** X11.  The existence transitions of [apply].  When it returns, the id and the
    metadata are as before, and: a Create found no type and left the URI of
    a registered type; otherwise a Delete left neither type nor data;
    otherwise an Edit found a type and kept it; an op with none of the three
    fields changed nothing but the version. *)
Theorem apply_transitions (snapshot snapshot' : Snapshot) (op : Op) :
  apply types snapshot op = Return snapshot' ->
  snap_id snapshot' = snap_id snapshot /\
  snap_m snapshot' = snap_m snapshot /\
  if isCreateOp op then
    has_type snapshot = false /\
    exists name type, Types.get types name = Some type /\
                      snap_type snapshot' = Some (Types.uri type)
  else if isDeleteOp op then
    snap_type snapshot' = None /\ snap_data snapshot' = JUndefined
  else if isEditOp op then
    has_type snapshot = true /\ snap_type snapshot' = snap_type snapshot
  else
    snap_type snapshot' = snap_type snapshot /\ snap_data snapshot' = snap_data snapshot.
Proof.
  unfold apply. intros H.
  apply bind_returns in H as (_ & _ & H).
  destruct (isCreateOp op).
  - apply bind_returns in H as (u & Hg & H).
    apply guard_or_throw_returns in Hg.
    destruct (get_prop (read (op_create op)) "type") as [| | | |name| |];
      try discriminate.
    cbn [get_type] in H.
    destruct (Types.get types name) as [type|] eqn:Hget; [| discriminate].
    apply bind_returns in H as (data & _ & H).
    injection H as <-. repeat split.
    + now destruct (has_type snapshot).
    + eauto.
  - destruct (isDeleteOp op).
    + injection H as <-. repeat split.
    + destruct (isEditOp op).
      * apply bind_returns in H as (u & Hg & H).
        apply guard_or_throw_returns in Hg.
        apply bind_returns in H as (_ & _ & H).
        destruct (get_type types _) as [type|]; [| discriminate].
        apply bind_returns in H as (data & _ & H).
        injection H as <-. repeat split. exact Hg.
      * injection H as <-. repeat split.
Qed.

(** X12.  The illegal transitions, in the order [apply] checks them.  A version
    that disagrees is reported before anything else; then a Create on a
    document that exists is [ERR_DOC_ALREADY_CREATED], and an Edit on one that
    does not is [ERR_DOC_DOES_NOT_EXIST].  A Delete is never refused for the
    state of the document: deleting what does not exist returns. *)
Theorem apply_illegal_transitions (snapshot : Snapshot) (op : Op) :
  (forall v, op_v op = Some v -> v <> snap_v snapshot ->
     apply types snapshot op
     = Throw (OTError ERR_APPLY_OP_VERSION_DOES_NOT_MATCH_SNAPSHOT)) /\
  ((forall v, op_v op = Some v -> v = snap_v snapshot) ->
   (isCreateOp op = true -> has_type snapshot = true ->
      apply types snapshot op = Throw (OTError ERR_DOC_ALREADY_CREATED)) /\
   (is_edit_only op -> has_type snapshot = false ->
      apply types snapshot op = Throw (OTError ERR_DOC_DOES_NOT_EXIST)) /\
   (is_delete_only op ->
      apply types snapshot op
      = Return {| snap_id := snap_id snapshot; snap_v := snap_v snapshot + 1;
                  snap_type := None; snap_data := JUndefined;
                  snap_m := snap_m snapshot |})).
Proof.
  split.
  - intros v Hv Hne. unfold apply. rewrite Hv.
    destruct (Z.eqb_spec (snap_v snapshot) v); [congruence | reflexivity].
  - intros Hv.
    assert (Hguard : (match op_v op with
                      | Some v => negb (snap_v snapshot =? v)
                      | None => false
                      end) = false).
    { destruct (op_v op) as [v|] eqn:Ev; [| reflexivity].
      rewrite (Hv v eq_refl), Z.eqb_refl. reflexivity. }
    split; [| split].
    + intros Hc Ht. unfold apply. rewrite Hguard, Hc, Ht. reflexivity.
    + intros (He & Hc & Hd) Ht. unfold apply. rewrite Hguard, He, Hc, Hd, Ht.
      reflexivity.
    + intros (Hd & Hc & He). unfold apply. rewrite Hguard, Hc, Hd. reflexivity.
Qed.

End KernelLaws.

Section KernelLawsWitnesses.
Import Js Error OT Samples.

Lemma checkOp_identity_paired_witness :
  (is_nullish (read (op_src (edit_op (JInt 5) None (identity "a" 1)))) = true /\
   is_nullish (read (op_seq (edit_op (JInt 5) None (identity "a" 1)))) = true) \/
  (typeof_string (read (op_src (edit_op (JInt 5) None (identity "a" 1)))) = true /\
   typeof_number (read (op_seq (edit_op (JInt 5) None (identity "a" 1)))) = true).
Proof.
  apply (checkOp_identity_paired Registered.types). vm_compute. reflexivity.
Defined.

Lemma checkOp_create_applies_witness :
  exists name type,
    get_prop (read (op_create (create_op "counter" (JInt 7) None anonymous))) "type"
    = JStr name /\
    Types.get Registered.types name = Some type /\
    apply Registered.types (createEmptySnapshot "d1")
          (create_op "counter" (JInt 7) None anonymous)
    = match Types.create type
              (get_prop (read (op_create (create_op "counter" (JInt 7) None anonymous)))
                        "data") with
      | Return data =>
          Return {| snap_id := snap_id (createEmptySnapshot "d1");
                    snap_v := snap_v (createEmptySnapshot "d1") + 1;
                    snap_type := Some (Types.uri type); snap_data := data;
                    snap_m := snap_m (createEmptySnapshot "d1") |}
      | Throw e => Throw e
      end.
Proof.
  apply (checkOp_create_applies Registered.types).
  - vm_compute. reflexivity.
  - reflexivity.
  - reflexivity.
  - discriminate.
Defined.

Lemma transform_frame_witness :
  op_v (edit_op (JInt 3) (Some 2) anonymous)
  = (fun v => v + 1) <$> op_v (edit_op (JInt 3) (Some 1) anonymous).
Proof.
  apply (transform_frame Registered.types (TypeObject Registered.counterType)
           (edit_op (JInt 3) (Some 1) anonymous) (edit_op (JInt 5) (Some 1) anonymous)
           (edit_op (JInt 3) (Some 2) anonymous)).
  vm_compute. reflexivity.
Defined.

Lemma transform_of_create_and_noop_witness :
  transform Registered.types TypeNull
            (create_op "counter" (JInt 0) (Some 3) anonymous)
            (edit_op (JInt 5) (Some 3) anonymous)
  = Throw (OTError ERR_DOC_ALREADY_CREATED).
Proof.
  apply (proj1 (transform_of_create_and_noop Registered.types TypeNull
                  (create_op "counter" (JInt 0) (Some 3) anonymous)
                  (edit_op (JInt 5) (Some 3) anonymous)
                  ltac:(intros v v' Hv Hv'; simpl in *; congruence))).
  repeat split.
Defined.

Lemma apply_transitions_witness :
  snap_type {| snap_id := "d1"; snap_v := 3; snap_type := None;
               snap_data := JUndefined; snap_m := None |} = None /\
  snap_data {| snap_id := "d1"; snap_v := 3; snap_type := None;
               snap_data := JUndefined; snap_m := None |} = JUndefined.
Proof.
  apply (apply_transitions Registered.types
           {| snap_id := "d1"; snap_v := 2;
              snap_type := Some "http://sharejs.org/types/counter";
              snap_data := JInt 4; snap_m := None |}
           _ (delete_op (Some 2) anonymous)).
  vm_compute. reflexivity.
Defined.

Lemma apply_illegal_transitions_witness :
  apply Registered.types (createEmptySnapshot "d1") (edit_op (JInt 5) None anonymous)
  = Throw (OTError ERR_DOC_DOES_NOT_EXIST).
Proof.
  apply (proj2 (apply_illegal_transitions Registered.types (createEmptySnapshot "d1")
                  (edit_op (JInt 5) None anonymous))).
  - discriminate.
  - repeat split.
  - reflexivity.
Defined.

End KernelLawsWitnesses.

(** ** The store: compare-and-swap, round trips, ranges *)

Section StoreLaws.
Import Js Error OT Server.

(** The version [commit] compares the op against is the version
    [getSnapshot] reports. *)
Lemma current_version (db : MemoryDb) (collection id : string) :
  match stored_snapshot db collection id with
  | Some currentSnapshot => snap_v currentSnapshot
  | None => 0
  end = snap_v (getSnapshot db collection id).
Proof. symmetry. apply getSnapshot_version. Qed.

(** Everything [commit] does, in terms of what the store holds. *)
Lemma commit_effect (db db' : MemoryDb) (collection id : string) (op : Op)
    (snapshot : Snapshot) (now : Z) (committed : bool) :
  commit db collection id op snapshot now = (db', committed) ->
  (committed = false /\ op_v op <> Some (snap_v (getSnapshot db collection id)) /\
   forall c d, stored_snapshot db' c d = stored_snapshot db c d /\
               docOps db' c d = docOps db c d) \/
  (committed = true /\ op_v op = Some (snap_v (getSnapshot db collection id)) /\
   stored_snapshot db' collection id = Some (cloneSnapshot snapshot) /\
   docOps db' collection id
   = docOps db collection id
     ++ [{| stored_op := op; stored_c := collection; stored_d := id; stored_ts := now |}] /\
   forall c d, (collection, id) <> (c, d) ->
               stored_snapshot db' c d = stored_snapshot db c d /\
               docOps db' c d = docOps db c d).
Proof.
  unfold commit.
  set (db1 := {| snapshots := ensure_collection (snapshots db) collection;
                 ops := ensure_collection (ops db) collection |}).
  assert (Hsnap : forall c d, stored_snapshot db1 c d = stored_snapshot db c d).
  { intros c d. apply lookup_ensure_collection. }
  assert (Hops : forall c d, docOps db1 c d = docOps db c d).
  { intros c d. unfold docOps. f_equal. apply lookup_ensure_collection. }
  rewrite (current_version db1), getSnapshot_version, Hsnap, <- getSnapshot_version.
  destruct (op_v op) as [v|] eqn:Ev.
  - destruct (Z.eqb_spec v (snap_v (getSnapshot db collection id))) as [->|Hne];
      cbn [negb]; intros H; injection H as <- <-.
    + right. split; [reflexivity | split; [reflexivity |]].
      split; [| split].
      * unfold stored_snapshot. cbn [snapshots]. apply lookup_set_doc_eq.
      * unfold docOps at 1. cbn [ops]. rewrite lookup_set_doc_eq, Hops. reflexivity.
      * intros c d Hne. split.
        -- unfold stored_snapshot at 1. cbn [snapshots].
           rewrite lookup_set_doc_ne by exact Hne. apply Hsnap.
        -- unfold docOps at 1. cbn [ops]. rewrite lookup_set_doc_ne by exact Hne.
           apply Hops.
    + left. split; [reflexivity | split; [congruence |]].
      intros c d. split; [apply Hsnap | apply Hops].
  - cbn [negb]. intros H. injection H as <- <-.
    left. split; [reflexivity | split; [discriminate |]].
    intros c d. split; [apply Hsnap | apply Hops].
Qed.

Lemma getSnapshot_stored (db db' : MemoryDb) (c d : string) :
  stored_snapshot db' c d = stored_snapshot db c d ->
  getSnapshot db' c d = getSnapshot db c d.
Proof. unfold getSnapshot. now intros ->. Qed.

(** X13.  [commit] is a compare-and-swap on the version: it succeeds exactly when
    the op carries the version the store reports for the document.  When it
    does not succeed, every snapshot and every log reads as before. *)
Theorem commit_compare_and_swap (db : MemoryDb) (collection id : string) (op : Op)
    (snapshot : Snapshot) (now : Z) :
  (snd (commit db collection id op snapshot now) = true
   <-> op_v op = Some (snap_v (getSnapshot db collection id))) /\
  (snd (commit db collection id op snapshot now) = false ->
   forall c d from to,
     getSnapshot (fst (commit db collection id op snapshot now)) c d = getSnapshot db c d /\
     getOps (fst (commit db collection id op snapshot now)) c d from to
     = getOps db c d from to).
Proof.
  destruct (commit db collection id op snapshot now) as [db' committed] eqn:Hc.
  apply commit_effect in Hc as [(-> & Hv & Hsame) | (-> & Hv & _)]; cbn [fst snd].
  - split; [split; [discriminate | contradiction] |].
    intros _ c d from to. destruct (Hsame c d) as [Hs Ho].
    split; [now apply getSnapshot_stored | unfold getOps; now rewrite Ho].
  - split; [split; [intros _; exact Hv | reflexivity] | discriminate].
Qed.

Lemma commit_compare_and_swap_witness :
  snd (commit new_MemoryDb "docs" "d1" (Samples.delete_op (Some 0) Samples.anonymous)
              (createEmptySnapshot "d1") 0) = true.
Proof.
  apply (proj1 (commit_compare_and_swap new_MemoryDb "docs" "d1"
                  (Samples.delete_op (Some 0) Samples.anonymous)
                  (createEmptySnapshot "d1") 0)).
  reflexivity.
Defined.

Lemma commit_stores (db : MemoryDb) (collection id : string) (op : Op)
    (snapshot : Snapshot) (now : Z) :
  snd (commit db collection id op snapshot now) = true ->
  let db' := fst (commit db collection id op snapshot now) in
  getSnapshot db' collection id = cloneSnapshot snapshot /\
  docOps db' collection id
  = docOps db collection id
    ++ [{| stored_op := op; stored_c := collection; stored_d := id; stored_ts := now |}] /\
  forall c d, (collection, id) <> (c, d) ->
              getSnapshot db' c d = getSnapshot db c d /\ docOps db' c d = docOps db c d.
Proof.
  destruct (commit db collection id op snapshot now) as [db' committed] eqn:Hc.
  apply commit_effect in Hc as [(-> & _) | (_ & _ & Hs & Ho & Hother)]; cbn [fst snd];
    [discriminate |].
  intros _. split; [| split; [exact Ho |]].
  - unfold getSnapshot. rewrite Hs.
    unfold cloneSnapshot. cbn [snap_id snap_v snap_type snap_data snap_m].
    now rewrite json_roundtrip_default_idempotent.
  - intros c d Hne. destruct (Hother c d Hne) as [Hs' Ho'].
    split; [now apply getSnapshot_stored | exact Ho'].
Qed.

(** X14.  What a successful [commit] stores is what the store gives back:
    [getSnapshot] returns the clone of the committed snapshot, the log of the
    document ends with the op (stamped with its collection, id and time), and
    no other document is touched. *)
Theorem commit_then_read (db : MemoryDb) (collection id : string) (op : Op)
    (snapshot : Snapshot) (now : Z) :
  snd (commit db collection id op snapshot now) = true ->
  let db' := fst (commit db collection id op snapshot now) in
  getSnapshot db' collection id = cloneSnapshot snapshot /\
  docOps db' collection id
  = docOps db collection id
    ++ [{| stored_op := op; stored_c := collection; stored_d := id; stored_ts := now |}] /\
  forall c d, (collection, id) <> (c, d) ->
              getSnapshot db' c d = getSnapshot db c d /\ docOps db' c d = docOps db c d.
Proof. exact (commit_stores db collection id op snapshot now). Qed.

Lemma commit_then_read_witness :
  getSnapshot (fst (commit new_MemoryDb "docs" "d1"
                           (Samples.delete_op (Some 0) Samples.anonymous)
                           (createEmptySnapshot "d1") 0)) "docs" "d1"
  = cloneSnapshot (createEmptySnapshot "d1").
Proof.
  exact (proj1 (commit_then_read new_MemoryDb "docs" "d1"
                  (Samples.delete_op (Some 0) Samples.anonymous)
                  (createEmptySnapshot "d1") 0 eq_refl)).
Defined.

(** The filter of [getOps] on a log that counts up from [off]. *)
Lemma filter_in_range_slice (log : list StoredOp) (off : nat) (k t : Z) :
  log_versions log = (fun i => Some (Z.of_nat i)) <$> seq off (length log) ->
  List.filter (in_range k (Some t)) log
  = drop (Z.to_nat k - off) (take (Z.to_nat t - off) log).
Proof.
  revert off. induction log as [|h log IH]; intros off Hlog.
  - now rewrite take_nil, drop_nil.
  - simpl in Hlog. injection Hlog as Hh Hrest.
    simpl List.filter. unfold in_range at 1. rewrite Hh.
    rewrite (IH (S off) Hrest).
    destruct (Z.ltb_spec (Z.of_nat off) t) as [Hlt|Hge].
    + replace (Z.to_nat t - off)%nat with (S (Z.to_nat t - S off)) by lia.
      destruct (Z.geb_spec (Z.of_nat off) k) as [Hk|Hk]; cbn [andb].
      * replace (Z.to_nat k - off)%nat with 0%nat by lia.
        replace (Z.to_nat k - S off)%nat with 0%nat by lia.
        reflexivity.
      * replace (Z.to_nat k - off)%nat with (S (Z.to_nat k - S off)) by lia.
        reflexivity.
    + rewrite andb_false_r.
      replace (Z.to_nat t - off)%nat with 0%nat by lia.
      replace (Z.to_nat t - S off)%nat with 0%nat by lia.
      now rewrite !take_0, !drop_nil.
Qed.

Lemma filter_in_range_from (log : list StoredOp) (off : nat) (k : Z) :
  log_versions log = (fun i => Some (Z.of_nat i)) <$> seq off (length log) ->
  List.filter (in_range k None) log = drop (Z.to_nat k - off) log.
Proof.
  revert off. induction log as [|h log IH]; intros off Hlog.
  - now rewrite drop_nil.
  - simpl in Hlog. injection Hlog as Hh Hrest.
    simpl List.filter. unfold in_range at 1. rewrite Hh, andb_true_r.
    rewrite (IH (S off) Hrest).
    destruct (Z.geb_spec (Z.of_nat off) k) as [Hk|Hk].
    + replace (Z.to_nat k - off)%nat with 0%nat by lia.
      replace (Z.to_nat k - S off)%nat with 0%nat by lia.
      reflexivity.
    + replace (Z.to_nat k - off)%nat with (S (Z.to_nat k - S off)) by lia.
      reflexivity.
Qed.

(** X15.  On a store with contiguous logs, [getOps(c, id, from, to)] is the slice
    of the log from index [from] up to, not including, index [to], in log
    order: the entry at position [i] of the result has base version
    [from + i].  Without [to] it is the whole tail from [from]. *)
Theorem getOps_is_a_slice (db : MemoryDb) (collection id : string) (from to : Z) :
  log_invariant db ->
  0 <= from ->
  getOps db collection id from (Some to)
  = drop (Z.to_nat from) (take (Z.to_nat to) (docOps db collection id)) /\
  getOps db collection id from None = drop (Z.to_nat from) (docOps db collection id) /\
  (forall i h, getOps db collection id from (Some to) !! i = Some h ->
               op_v (stored_op h) = Some (from + Z.of_nat i)) /\
  (from <= to <= snap_v (getSnapshot db collection id) ->
   Z.of_nat (length (getOps db collection id from (Some to))) = to - from).
Proof.
  intros Hinv Hfrom. destruct (Hinv collection id) as [Hlog Hver].
  assert (Hslice : getOps db collection id from (Some to)
                   = drop (Z.to_nat from) (take (Z.to_nat to) (docOps db collection id))).
  { unfold getOps. rewrite (filter_in_range_slice _ 0 from to Hlog).
    now rewrite !Nat.sub_0_r. }
  split; [exact Hslice | split; [| split]].
  - unfold getOps. rewrite (filter_in_range_from _ 0 from Hlog). now rewrite Nat.sub_0_r.
  - intros i h Hi. rewrite Hslice, lookup_drop in Hi.
    apply lookup_take_Some in Hi as [Hi _].
    assert (Hl : log_versions (docOps db collection id) !! (Z.to_nat from + i)%nat
                 = Some (op_v (stored_op h))).
    { unfold log_versions. rewrite list_lookup_fmap, Hi. reflexivity. }
    rewrite Hlog in Hl. unfold versions_upto in Hl. rewrite list_lookup_fmap in Hl.
    destruct (seq 0 (length (docOps db collection id)) !! (Z.to_nat from + i)%nat)
      as [j|] eqn:Hj; [| discriminate].
    apply lookup_seq in Hj as [-> _]. simpl in Hl. injection Hl as <-. f_equal. lia.
  - intros Hto. rewrite Hslice, length_drop, length_take. lia.
Qed.

Lemma getOps_is_a_slice_witness :
  Z.of_nat (length (getOps Samples.log_of_two_clients "docs" "d1" 1 (Some 3))) = 3 - 1.
Proof.
  apply (getOps_is_a_slice Samples.log_of_two_clients "docs" "d1" 1 3).
  - apply after_submissions_invariant.
  - lia.
  - vm_compute. split; discriminate.
Defined.

End StoreLaws.

(** ** The commit loop when nothing else runs *)

Section SubmitLaws.
Import Js Error OT Server.
Variable types : Types.TypeRegistry.

Lemma rebase_returns (snapshot : Snapshot) (ops acc acc' : list StoredOp) (op op' : Op) :
  rebase types snapshot op ops acc = Return (op', acc') ->
  acc' = acc ++ ops /\
  op_v op' = (fun v => v + Z.of_nat (length ops)) <$> op_v op /\
  op_create op' = op_create op /\ op_del op' = op_del op /\
  op_src op' = op_src op /\ op_seq op' = op_seq op.
Proof.
  revert op acc. induction ops as [|h ops IH]; intros op acc H; simpl in H.
  - injection H as <- <-. rewrite app_nil_r. repeat split.
    destruct (op_v op) as [v|]; simpl; [f_equal; lia | reflexivity].
  - destruct (same_submission op h); [discriminate |].
    apply bind_returns in H as (op1 & H1 & H).
    apply transform_writes in H1 as (Hv & Hc & Hd & Hsrc & Hseq & _).
    apply IH in H as (-> & Hv' & Hc' & Hd' & Hsrc' & Hseq').
    rewrite <- app_assoc. repeat split; try congruence.
    rewrite Hv', Hv. destruct (op_v op) as [v|]; simpl; [f_equal; lia | reflexivity].
Qed.

(** X16.  The rebase loop of [submitOp], when it runs to its end, has pushed
    exactly the fetched entries, in order, onto [transformedOps], has moved
    the base version of the op forward by their number, and has left the
    [create], [del], [src] and [seq] fields of the op alone. *)
Theorem rebase_advances_version (snapshot : Snapshot) (ops acc acc' : list StoredOp)
    (op op' : Op) :
  rebase types snapshot op ops acc = Return (op', acc') ->
  acc' = acc ++ ops /\
  op_v op' = (fun v => v + Z.of_nat (length ops)) <$> op_v op /\
  op_create op' = op_create op /\ op_del op' = op_del op /\
  op_src op' = op_src op /\ op_seq op' = op_seq op.
Proof. exact (rebase_returns snapshot ops acc acc' op op'). Qed.

Lemma run_alone_done (now : Z) (fuel : nat) (db : MemoryDb) (s : Submission)
    (outcome : Result SubmitResult) :
  sub_task s = Done outcome -> run_alone types now fuel db s = (db, s).
Proof. intros H. destruct fuel; simpl; [reflexivity | now rewrite H]. Qed.

Lemma run_alone_more (now : Z) (n m : nat) (db db' : MemoryDb) (s s' : Submission)
    (outcome : Result SubmitResult) :
  run_alone types now n db s = (db', s') ->
  sub_task s' = Done outcome ->
  (n <= m)%nat ->
  run_alone types now m db s = (db', s').
Proof.
  revert m db s. induction n as [|n IH]; intros m db s Hrun Hdone Hle.
  - simpl in Hrun. injection Hrun as <- <-. eapply run_alone_done, Hdone.
  - destruct m as [|m]; [lia |]. simpl in *.
    destruct (sub_task s); try exact Hrun;
      destruct (resume types now db s) as [db1 s1];
      (apply IH; [exact Hrun | exact Hdone | lia]).
Qed.

(** Steps 4 and 5 on the snapshot the store holds now: the commit cannot
    meet a conflict. *)
Lemma apply_and_commit_alone (now : Z) (db db1 : MemoryDb) (s s1 : Submission)
    (retries v : Z) (opCopy : Op) (transformedOps : list StoredOp) :
  op_v opCopy = Some v ->
  apply_and_commit types now db s retries
    (getSnapshot db (sub_collection s) (sub_id s)) opCopy transformedOps = (db1, s1) ->
  (db1 = db /\ exists e, s1 = with_task s (sub_op s) (Done (Throw e))) \/
  (exists newSnapshot,
     apply types (cloneSnapshot (getSnapshot db (sub_collection s) (sub_id s))) opCopy
     = Return newSnapshot /\
     op_v opCopy = Some (snap_v (getSnapshot db (sub_collection s) (sub_id s))) /\
     commit db (sub_collection s) (sub_id s) opCopy newSnapshot now = (db1, true) /\
     s1 = with_task s (sub_op s)
            (AwaitCommit retries opCopy newSnapshot transformedOps true)).
Proof.
  intros Hv. unfold apply_and_commit.
  destruct (apply types _ opCopy) as [newSnapshot|e] eqn:Happly.
  - destruct (commit db _ _ opCopy newSnapshot now) as [db' committed] eqn:Hcommit.
    intros H. injection H as <- <-. right. exists newSnapshot.
    pose proof (apply_version_check types _ _ _ v Happly Hv) as Hcur.
    change (snap_v (cloneSnapshot ?x)) with (snap_v x) in Hcur.
    split; [reflexivity | split; [now rewrite Hcur |]].
    pose proof Hcommit as Hc.
    apply commit_effect in Hc as [(-> & Hne & _) | (-> & _)].
    + exfalso. apply Hne. now rewrite Hcur.
    + split; [exact Hcommit | reflexivity].
  - intros H. injection H as <- <-. left. split; [reflexivity | eauto].
Qed.

Lemma getOps_empty_range (db : MemoryDb) (collection id : string) (k : Z) :
  getOps db collection id k (Some k) = [].
Proof.
  unfold getOps. induction (docOps db collection id) as [|h log IH]; [reflexivity |].
  simpl. rewrite IH. unfold in_range. destruct (op_v (stored_op h)) as [v|]; [| reflexivity].
  destruct (Z.geb_spec v k), (Z.ltb_spec v k); try reflexivity. lia.
Qed.

(** One call of [submitOp] with nothing else scheduled, step by step. *)
Lemma submitOp_alone_steps (now : Z) (db : MemoryDb) (collection id : string)
    (op : Op) (maxRetries : option Z) :
  exists db' s',
    run_alone types now 3 db (submitOp types db collection id op maxRetries) = (db', s') /\
    sub_op s' = op /\
    ((db' = db /\ exists e, sub_task s' = Done (Throw e)) \/
     (exists opCopy newSnapshot,
        sub_task s'
        = Done (Return {| result_op := opCopy; result_snapshot := newSnapshot;
                          result_ops :=
                            getOps db collection id
                              (default (snap_v (getSnapshot db collection id)) (op_v op))
                              (Some (snap_v (getSnapshot db collection id))) |}) /\
        op_v opCopy = Some (snap_v (getSnapshot db collection id)) /\
        apply types (cloneSnapshot (getSnapshot db collection id)) opCopy
        = Return newSnapshot /\
        commit db collection id opCopy newSnapshot now = (db', true))).
Proof.
  unfold submitOp.
  destruct (checkOp types (Object op)) as [u|e] eqn:Hcheck.
  2:{ eexists _, _. split; [reflexivity |]. split; [reflexivity |].
      left. split; [reflexivity | eauto]. }
  set (snapshot := getSnapshot db collection id).
  set (s0 := {| sub_collection := collection; sub_id := id; sub_op := op;
                sub_maxRetries := default 10 maxRetries;
                sub_task := AwaitSnapshot 0 snapshot |}).
  set (opCopy := match op_v (clone_op op) with
                 | None => set_v (clone_op op) (Some (snap_v snapshot))
                 | Some _ => clone_op op
                 end).
  set (v := default (snap_v snapshot) (op_v op)).
  assert (Hv : op_v opCopy = Some v).
  { unfold opCopy, v. change (op_v (clone_op op)) with (op_v op).
    destruct (op_v op) as [k|] eqn:Ek; [exact Ek | reflexivity]. }
  assert (Hfinish : forall db1 s1 retries transformedOps opCopy1 v1,
             op_v opCopy1 = Some v1 ->
             apply_and_commit types now db s0 retries snapshot opCopy1 transformedOps
             = (db1, s1) ->
             exists db' s',
               run_alone types now 1 db1 s1 = (db', s') /\ sub_op s' = op /\
               ((db' = db /\ exists e, sub_task s' = Done (Throw e)) \/
                (exists newSnapshot,
                   sub_task s'
                   = Done (Return {| result_op := opCopy1;
                                     result_snapshot := newSnapshot;
                                     result_ops := transformedOps |}) /\
                   op_v opCopy1 = Some (snap_v snapshot) /\
                   apply types (cloneSnapshot snapshot) opCopy1 = Return newSnapshot /\
                   commit db collection id opCopy1 newSnapshot now = (db', true)))).
  { intros db1 s1 retries transformedOps opCopy1 v1 Hv1 Hac.
    apply (apply_and_commit_alone now db db1 s0 s1 retries v1) in Hac; [| exact Hv1].
    destruct Hac as [(-> & e & ->) | (newSnapshot & Happly & Hver & Hcommit & ->)].
    - eexists _, _. split; [reflexivity |]. split; [reflexivity |].
      left. split; [reflexivity | eauto].
    - eexists _, _. split; [reflexivity |]. split; [reflexivity |].
      right. exists newSnapshot. repeat split; assumption. }
  change (run_alone types now 3 db s0)
    with (let '(db1, s1) := resume types now db s0 in run_alone types now 2 db1 s1).
  unfold resume. cbn [sub_task s0 sub_op sub_collection sub_id].
  fold opCopy. rewrite Hv. change (default 0 (Some v)) with v.
  destruct (Z.eqb_spec v (snap_v snapshot)) as [Heq|Hne]; cbn [negb].
  - (* the op is at the head *)
    destruct (apply_and_commit types now db s0 0 snapshot opCopy []) as [db1 s1] eqn:Hac.
    destruct (Hfinish db1 s1 0 [] opCopy v Hv Hac) as (db' & s' & Hrun & Hop & Hres).
    exists db', s'. split; [| split; [exact Hop |]].
    + destruct Hres as [(_ & e & Hdone) | (ns & Hdone & _)];
        eapply run_alone_more; eauto.
    + destruct Hres as [Hl | (ns & Hdone & Hrest)]; [now left |].
      right. exists opCopy, ns. split; [| exact Hrest].
      rewrite Hdone. fold v. rewrite Heq, getOps_empty_range. reflexivity.
  - destruct (v >? snap_v snapshot) eqn:Hgt.
    + eexists _, _. split; [reflexivity |]. split; [reflexivity |].
      left. split; [reflexivity | eauto].
    + set (fetched := getOps db collection id v (Some (snap_v snapshot))).
      set (s1 := with_task s0 op (AwaitOps 0 snapshot opCopy fetched)).
      change (run_alone types now 2 db s1)
        with (let '(db2, s2) := resume types now db s1 in run_alone types now 1 db2 s2).
      unfold resume. cbn [sub_task s1 with_task sub_op sub_collection sub_id s0].
      rewrite Hv. change (default 0 (Some v)) with v.
      destruct (negb (Z.of_nat (length fetched) =? snap_v snapshot - v)).
      * eexists _, _. split; [reflexivity |]. split; [reflexivity |].
        left. split; [reflexivity | eauto].
      * destruct (rebase types snapshot opCopy fetched []) as [[opCopy' ts]|e] eqn:Hrb.
        2:{ eexists _, _. split; [reflexivity |]. split; [reflexivity |].
            left. split; [reflexivity | eauto]. }
        apply rebase_returns in Hrb as (-> & Hv' & _).
        rewrite Hv in Hv'. simpl in Hv'.
        destruct (apply_and_commit types now db s1 0 snapshot opCopy' ([] ++ fetched))
          as [db2 s2] eqn:Hac.
        change (apply_and_commit types now db s1 0 snapshot opCopy' ([] ++ fetched))
          with (apply_and_commit types now db s0 0 snapshot opCopy' fetched) in Hac.
        destruct (Hfinish db2 s2 0 fetched opCopy' _ Hv' Hac)
          as (db' & s' & Hrun & Hop & Hres).
        exists db', s'. split; [exact Hrun | split; [exact Hop |]].
        destruct Hres as [Hl | (ns & Hdone & Hrest)]; [now left |].
        right. exists opCopy', ns. split; [exact Hdone | exact Hrest].
Qed.

(** X17.  A submission of an op whose base version is an integer or absent
    (the ops of this model), running with nothing else scheduled, makes a
    single attempt: three steps bring it to its end, whatever the retry
    limit.  The caller's op object is as it was, and a submission that fails
    leaves the store as it was. *)
Theorem submitOp_alone_single_attempt (now : Z) (db : MemoryDb) (collection id : string)
    (op : Op) (maxRetries : option Z) :
  let s0 := submitOp types db collection id op maxRetries in
  submitOp_alone types now db collection id op maxRetries = run_alone types now 3 db s0 /\
  sub_op (snd (run_alone types now 3 db s0)) = op /\
  (exists outcome, sub_task (snd (run_alone types now 3 db s0)) = Done outcome) /\
  (forall e, sub_task (snd (run_alone types now 3 db s0)) = Done (Throw e) ->
             fst (run_alone types now 3 db s0) = db).
Proof.
  intros s0.
  destruct (submitOp_alone_steps now db collection id op maxRetries)
    as (db' & s' & Hrun & Hop & Hres).
  fold s0 in Hrun. rewrite Hrun. cbn [fst snd].
  assert (Hdone : exists outcome, sub_task s' = Done outcome).
  { destruct Hres as [(_ & e & H) | (opCopy & ns & H & _)]; rewrite H; eauto. }
  split; [| split; [exact Hop | split; [exact Hdone |]]].
  - destruct Hdone as [outcome Hdone]. unfold submitOp_alone. fold s0.
    eapply run_alone_more; [exact Hrun | exact Hdone |].
    unfold enough_fuel. lia.
  - intros e He. destruct Hres as [(-> & _) | (opCopy & ns & H & _)]; [reflexivity |].
    rewrite H in He. discriminate.
Qed.

(** X18.  When a submission that runs with nothing else scheduled succeeds, the
    op it returns has the version of the snapshot it met as base version, the
    snapshot it returns is one version higher, the ops it returns are what
    [getOps] holds from the base version of the submitted op (the snapshot
    version, when the op has none) up to the snapshot version, the log of the
    document has grown by the returned op and by nothing else, the store
    returns the new snapshot, and no other document has changed. *)
Theorem submitOp_alone_commits (now : Z) (db : MemoryDb) (collection id : string)
    (op : Op) (maxRetries : option Z) (result : SubmitResult) :
  sub_task (snd (submitOp_alone types now db collection id op maxRetries))
  = Done (Return result) ->
  let db' := fst (submitOp_alone types now db collection id op maxRetries) in
  let current := snap_v (getSnapshot db collection id) in
  op_v (result_op result) = Some current /\
  snap_v (result_snapshot result) = current + 1 /\
  result_ops result
  = getOps db collection id (default current (op_v op)) (Some current) /\
  docOps db' collection id
  = docOps db collection id
    ++ [{| stored_op := result_op result; stored_c := collection; stored_d := id;
           stored_ts := now |}] /\
  getSnapshot db' collection id = cloneSnapshot (result_snapshot result) /\
  forall c d, (collection, id) <> (c, d) ->
              getSnapshot db' c d = getSnapshot db c d /\ docOps db' c d = docOps db c d.
Proof.
  destruct (submitOp_alone_steps now db collection id op maxRetries)
    as (db' & s' & Hrun & Hop & Hres).
  assert (Hdone : exists outcome, sub_task s' = Done outcome).
  { destruct Hres as [(_ & e & H) | (opCopy & ns & H & _)]; rewrite H; eauto. }
  destruct Hdone as [outcome Hdone].
  assert (Halone : submitOp_alone types now db collection id op maxRetries = (db', s')).
  { unfold submitOp_alone. eapply run_alone_more; [exact Hrun | exact Hdone |].
    unfold enough_fuel. lia. }
  rewrite Halone. cbn [fst snd]. intros Hresult.
  destruct Hres as [(_ & e & H) | (opCopy & ns & H & Hv & Happly & Hcommit)];
    rewrite H in Hresult; [discriminate |].
  injection Hresult as <-. cbn [result_op result_snapshot result_ops].
  split; [exact Hv | split; [| split; [reflexivity |]]].
  - apply apply_version_step in Happly. exact Happly.
  - pose proof (commit_stores db collection id opCopy ns now) as Hread.
    rewrite Hcommit in Hread. cbn [fst snd] in Hread.
    destruct (Hread eq_refl) as (Hs & Ho & Hother).
    split; [exact Ho | split; [exact Hs | exact Hother]].
Qed.

End SubmitLaws.

Section SubmitLawsWitnesses.
Import Js Error OT Server Samples.

Lemma rebase_advances_version_witness :
  exists op' acc',
    rebase Registered.types (getSnapshot log_of_two_clients "docs" "d1")
           (edit_op (JInt 7) (Some 1) (identity "c" 1))
           (getOps log_of_two_clients "docs" "d1" 1 (Some 3)) [] = Return (op', acc') /\
    acc' = [] ++ getOps log_of_two_clients "docs" "d1" 1 (Some 3).
Proof.
  eexists _, _. split; [vm_compute; reflexivity |].
  eapply (rebase_advances_version Registered.types
            (getSnapshot log_of_two_clients "docs" "d1")
            (getOps log_of_two_clients "docs" "d1" 1 (Some 3)) [] _
            (edit_op (JInt 7) (Some 1) (identity "c" 1)) _).
  vm_compute. reflexivity.
Defined.

Lemma submitOp_alone_single_attempt_witness :
  fst (run_alone Registered.types 0 3 log_of_two_clients
         (submitOp Registered.types log_of_two_clients "docs" "d1"
            (edit_op (JInt 7) (Some 4) (identity "c" 1)) None))
  = log_of_two_clients.
Proof.
  apply (proj2 (proj2 (proj2
           (submitOp_alone_single_attempt Registered.types 0 log_of_two_clients
              "docs" "d1" (edit_op (JInt 7) (Some 4) (identity "c" 1)) None)))
           (OTError ERR_OT_OP_BADLY_FORMED)).
  vm_compute. reflexivity.
Defined.

Lemma submitOp_alone_commits_witness :
  exists result,
    sub_task (snd (submitOp_alone Registered.types 0 log_of_two_clients "docs" "d1"
                     (edit_op (JInt 7) (Some 1) (identity "c" 1)) None))
    = Done (Return result) /\
    op_v (result_op result) = Some (snap_v (getSnapshot log_of_two_clients "docs" "d1")).
Proof.
  eexists. split; [vm_compute; reflexivity |].
  apply (submitOp_alone_commits Registered.types 0 log_of_two_clients "docs" "d1"
           (edit_op (JInt 7) (Some 1) (identity "c" 1)) None).
  vm_compute. reflexivity.
Defined.

End SubmitLawsWitnesses.

(** ** The replica: the op pipeline *)

Section PipelineLaws.
Import Js OT Client.

Ltac run :=
  unfold mbind, M_bind, bind, read_doc, read_connection, update_doc, update_connection,
         effect, ret, throw;
  cbn [fst snd doc connection trace].

Lemma flush_idle (w : World) :
  conn_canSend (connection w) = false \/ is_Some (inflightOp (doc w))
  \/ pendingOps (doc w) = [] ->
  flush w = (w, Normal tt).
Proof.
  intros H. unfold flush. run.
  destruct (conn_canSend (connection w)); cbn [negb orb]; [| reflexivity].
  destruct (inflightOp (doc w)) as [i|] eqn:Hi.
  - rewrite bool_decide_true by eauto. reflexivity.
  - rewrite bool_decide_false by (intros [x Hx]; discriminate).
    destruct H as [H | [[x H] | H]]; try discriminate. rewrite H. reflexivity.
Qed.

(** The op that [flush] puts in flight: the head of the queue, with [seq]
    and [src] filled in where they were [undefined]. *)
Lemma flush_sends (w : World) (first : PendingOp) (rest : list PendingOp) :
  conn_canSend (connection w) = true ->
  inflightOp (doc w) = None ->
  pendingOps (doc w) = first :: rest ->
  exists sent message o,
    let w' := fst (flush w) in
    snd (flush w) = o /\
    doc w' = set_inflightOp (Some sent) (set_pendingOps rest (doc w)) /\
    pending_type sent = pending_type first /\
    pending_callbacks sent = pending_callbacks first /\
    op_create (pending_op sent) = op_create (pending_op first) /\
    op_op (pending_op sent) = op_op (pending_op first) /\
    op_del (pending_op sent) = op_del (pending_op first) /\
    op_v (pending_op sent) = op_v (pending_op first) /\
    op_seq (pending_op sent)
    = (if strict_eq (read (op_seq (pending_op first))) JUndefined
       then Some (JInt (conn_seq (connection w)))
       else op_seq (pending_op first)) /\
    op_src (pending_op sent)
    = (if strict_eq (read (op_src (pending_op first))) JUndefined
       then Some (JStr (conn_id (connection w)))
       else op_src (pending_op first)) /\
    conn_seq (connection w')
    = (if strict_eq (read (op_seq (pending_op first))) JUndefined
       then conn_seq (connection w) + 1
       else conn_seq (connection w)) /\
    conn_id (connection w') = conn_id (connection w) /\
    conn_canSend (connection w') = true /\
    conn_transport (connection w') = conn_transport (connection w) /\
    (if conn_transport (connection w)
     then trace w' = trace w
                     ++ [Sent (OpRequest (collection (doc w)) (id (doc w)) message)]
          /\ o = Normal tt
     else trace w' = trace w /\ o = Abrupt (JsError "No transport bound to connection")) /\
    op_v message = op_v (pending_op sent) /\
    op_src message = op_src (pending_op sent) /\
    op_seq message = op_seq (pending_op sent).
Proof.
  intros HcanSend Hinflight Hpending. unfold flush. run.
  rewrite HcanSend, Hinflight, Hpending.
  rewrite bool_decide_false by (intros [x Hx]; discriminate). cbn [negb orb].
  unfold sendOp, _send. run.
  destruct (strict_eq (read (op_seq (pending_op first))) JUndefined) eqn:Hseq;
    run; cbn [conn_transport conn_canSend conn_seq conn_id]; rewrite HcanSend;
    destruct (conn_transport (connection w)) eqn:Htransport; cbn [negb];
    run; cbn [collection id set_inflightOp set_pendingOps];
    eexists _, _, _; cbn [fst snd doc connection trace conn_seq conn_id conn_canSend
                          conn_transport pending_op pending_type pending_callbacks
                          op_create op_op op_del op_v op_src op_seq];
    (split; [reflexivity |]); (split; [reflexivity |]);
    repeat (split; [first [reflexivity | eassumption | split; reflexivity] |]).
  all: repeat match goal with
         | |- context [if ?b then _ else _] => destruct b
         end; cbn [op_v op_src op_seq]; repeat split; reflexivity.
Qed.

(** What [flush] leaves alone, whether it sends or not. *)
Lemma flush_keeps (w : World) :
  let w' := fst (flush w) in
  map content (pipeline (doc w')) = map content (pipeline (doc w)) /\
  version (doc w') = version (doc w) /\
  type (doc w') = type (doc w) /\
  data (doc w') = data (doc w) /\
  subscribed (doc w') = subscribed (doc w) /\
  listeners (doc w') = listeners (doc w) /\
  collection (doc w') = collection (doc w) /\
  id (doc w') = id (doc w) /\
  conn_id (connection w') = conn_id (connection w) /\
  conn_canSend (connection w') = conn_canSend (connection w) /\
  conn_transport (connection w') = conn_transport (connection w) /\
  exists sent, trace w' = trace w ++ map Sent sent /\ (length sent <= 1)%nat.
Proof.
  destruct (conn_canSend (connection w)) eqn:HcanSend;
    [destruct (inflightOp (doc w)) as [i|] eqn:Hinflight;
     [| destruct (pendingOps (doc w)) as [|first rest] eqn:Hpending] |].
  1, 2, 4: rewrite flush_idle by eauto; cbn [fst]; rewrite ?HcanSend;
    repeat (split; [reflexivity |]); exists []; split;
    [now rewrite app_nil_r | simpl; lia].
  destruct (flush_sends w first rest HcanSend Hinflight Hpending)
    as (sent & message & o & _ & Hdoc & Htype & Hcallbacks & Hcreate & Hop & Hdel & Hv
        & _ & _ & _ & Hid & Hsend & Htransport & Htrace & _).
  cbn zeta. rewrite Hdoc, Hid, Hsend, Htransport, ?HcanSend.
  unfold pipeline. rewrite Hinflight, Hpending.
  cbn [set_inflightOp set_pendingOps inflightOp pendingOps version type data subscribed
       listeners collection id map].
  split; [unfold content; now rewrite Htype, Hcallbacks, Hcreate, Hop, Hdel, Hv |].
  repeat (split; [reflexivity |]).
  destruct (conn_transport (connection w)).
  - destruct Htrace as [-> _]. eexists [_]. split; [reflexivity | simpl; lia].
  - destruct Htrace as [-> _]. exists []. split; [now rewrite app_nil_r | simpl; lia].
Qed.

(** X19.  [flush] neither drops, nor duplicates, nor reorders an op: the ops that
    await acknowledgement are the same before and after, in the same order
    and with the same content.  It adds at most one request to what has been
    sent, and nothing else to the trace; it changes no other field of the
    replica.  While an op is in flight, or while the connection cannot send,
    it does nothing at all.  The op it puts in flight carries a [src] and a
    [seq]. *)
Theorem flush_one_in_flight (w : World) :
  let w' := fst (flush w) in
  map content (pipeline (doc w')) = map content (pipeline (doc w)) /\
  (exists sent, trace w' = trace w ++ map Sent sent /\ (length sent <= 1)%nat) /\
  version (doc w') = version (doc w) /\
  type (doc w') = type (doc w) /\
  data (doc w') = data (doc w) /\
  subscribed (doc w') = subscribed (doc w) /\
  (is_Some (inflightOp (doc w)) \/ conn_canSend (connection w) = false -> w' = w) /\
  (forall sent, inflightOp (doc w) = None -> inflightOp (doc w') = Some sent ->
                strict_eq (read (op_src (pending_op sent))) JUndefined = false /\
                strict_eq (read (op_seq (pending_op sent))) JUndefined = false).
Proof.
  pose proof (flush_keeps w) as (Hpipe & Hv & Ht & Hd & Hs & _ & _ & _ & _ & _ & _ & Htrace).
  cbn zeta. split; [exact Hpipe | split; [exact Htrace |]].
  repeat (split; [assumption |]). split.
  - intros H. rewrite flush_idle; [reflexivity |]. destruct H; eauto.
  - intros sent Hinflight Hsent.
    destruct (conn_canSend (connection w)) eqn:HcanSend;
      [destruct (pendingOps (doc w)) as [|first rest] eqn:Hpending |].
    1, 3: rewrite flush_idle in Hsent by eauto; cbn [fst] in Hsent; congruence.
    destruct (flush_sends w first rest HcanSend Hinflight Hpending)
      as (sent' & message & o & _ & Hdoc & _ & _ & _ & _ & _ & _ & Hseq & Hsrc & _).
    cbn zeta in Hdoc. rewrite Hdoc in Hsent. cbn [set_inflightOp inflightOp] in Hsent.
    injection Hsent as <-. rewrite Hseq, Hsrc. split.
    + destruct (strict_eq (read (op_src (pending_op first))) JUndefined) eqn:E;
        [reflexivity | exact E].
    + destruct (strict_eq (read (op_seq (pending_op first))) JUndefined) eqn:E;
        [reflexivity | exact E].
Qed.

Lemma flush_one_in_flight_witness :
  fst (flush Samples.rejected_world) = Samples.rejected_world.
Proof.
  apply (flush_one_in_flight Samples.rejected_world).
  left. eexists. reflexivity.
Defined.

(** X20.  Losing the connection and getting it back.  When the connection cannot
    send, [_onConnectionStateChanged] puts the op in flight back at the head
    of the queue and marks the replica as not subscribed, and sends nothing.
    When the connection can send again, the same call puts that op in flight
    again and sends it under the [src] and the [seq] it was first sent with,
    whatever the identity of the connection is by then, and without using
    up a sequence number. *)
Theorem resend_keeps_identity (w : World) (inflight : PendingOp) :
  inflightOp (doc w) = Some inflight ->
  strict_eq (read (op_src (pending_op inflight))) JUndefined = false ->
  strict_eq (read (op_seq (pending_op inflight))) JUndefined = false ->
  conn_canSend (connection w) = false ->
  let w1 := fst (_onConnectionStateChanged w) in
  inflightOp (doc w1) = None /\
  pendingOps (doc w1) = inflight :: pendingOps (doc w) /\
  subscribed (doc w1) = false /\
  trace w1 = trace w /\
  forall w2,
    doc w2 = doc w1 ->
    conn_canSend (connection w2) = true -> conn_transport (connection w2) = true ->
    let w3 := fst (_onConnectionStateChanged w2) in
    inflightOp (doc w3) = Some inflight /\
    pendingOps (doc w3) = pendingOps (doc w) /\
    connection w3 = connection w2 /\
    exists message,
      trace w3 = trace w2 ++ [Sent (OpRequest (collection (doc w)) (id (doc w)) message)] /\
      op_v message = op_v (pending_op inflight) /\
      op_src message = op_src (pending_op inflight) /\
      op_seq message = op_seq (pending_op inflight).
Proof.
  intros Hinflight Hsrc Hseq HcanSend.
  assert (Hlost : _onConnectionStateChanged w
                  = ({| doc := set_subscribed false
                                 (set_inflightOp None
                                    (set_pendingOps (inflight :: pendingOps (doc w)) (doc w)));
                        connection := connection w; trace := trace w |}, Normal tt)).
  { unfold _onConnectionStateChanged. run. rewrite HcanSend, Hinflight. reflexivity. }
  rewrite Hlost. cbn [fst doc trace set_subscribed set_inflightOp set_pendingOps
                      inflightOp pendingOps subscribed].
  repeat (split; [reflexivity |]).
  intros w2 Hdoc HcanSend2 Htransport2.
  assert (Hback : _onConnectionStateChanged w2 = flush w2).
  { unfold _onConnectionStateChanged. run. now rewrite HcanSend2. }
  rewrite Hback.
  destruct (flush_sends w2 inflight (pendingOps (doc w)) HcanSend2)
    as (sent & message & o & _ & Hdoc3 & Htype & Hcallbacks & Hcreate & Hop & Hdel & Hv
        & Hseq3 & Hsrc3 & Hcseq & Hcid & Hcsend & Hctransport & Htrace & Hmv & Hmsrc & Hmseq).
  { now rewrite Hdoc. }
  { now rewrite Hdoc. }
  rewrite Hseq in Hseq3, Hcseq. rewrite Hsrc in Hsrc3.
  assert (Hsent : sent = inflight).
  { destruct sent as [[] ? ?], inflight as [[] ? ?]. simpl in *. congruence. }
  subst sent. cbn zeta in *. rewrite Hdoc3, Htransport2 in *.
  destruct Htrace as [Htrace _].
  rewrite Hdoc. cbn [set_inflightOp set_pendingOps inflightOp pendingOps collection id] in *.
  split; [reflexivity | split; [reflexivity | split]].
  - destruct (connection (fst (flush w2))), (connection w2). simpl in *. congruence.
  - exists message. rewrite Hdoc in Htrace. repeat split; assumption.
Qed.

Lemma resend_keeps_identity_witness :
  inflightOp
    (doc (fst (_onConnectionStateChanged
                 {| doc := doc Samples.rejected_world;
                    connection := {| conn_id := "1"; conn_seq := 3; conn_canSend := false;
                                     conn_transport := true |};
                    trace := [] |}))) = None.
Proof.
  eapply (resend_keeps_identity
            {| doc := doc Samples.rejected_world;
               connection := {| conn_id := "1"; conn_seq := 3; conn_canSend := false;
                                conn_transport := true |};
               trace := [] |}); reflexivity.
Defined.

Lemma calls_made (args : list Arg) (callbacks : list (option Callback)) (w : World) :
  for_each callbacks (fun callback => call callback args) w
  = ({| doc := doc w; connection := connection w;
        trace := trace w ++ calls args callbacks |},
     Normal tt).
Proof.
  revert w. induction callbacks as [|cb cbs IH]; intros w; simpl.
  - unfold calls. simpl. rewrite app_nil_r. now destruct w.
  - unfold mbind, M_bind, bind. destruct cb as [fn|]; simpl; rewrite IH; simpl.
    + unfold calls. simpl. now rewrite <- app_assoc.
    + reflexivity.
Qed.

(** X21.  The acknowledgement of the op in flight.  A message without error that
    carries the [src] and [seq] of the op in flight takes that op, and only
    that op, out of the pipeline: the ops still awaiting acknowledgement are
    the queue as it was, in the same order.  The version becomes the version
    of the message when the acknowledged op was a create, and goes up by one
    otherwise; type and data stay (the op was applied when it was
    submitted).  The callbacks of the op are called, without argument and in
    order, before anything else happens. *)
Theorem acknowledged_op_leaves_pipeline (types : Types.TypeRegistry) (message : OpMessage)
    (inflight : PendingOp) (w : World) :
  inflightOp (doc w) = Some inflight ->
  strict_eq (read (op_src (msg_op message))) (read (op_src (pending_op inflight))) = true ->
  strict_eq (read (op_seq (msg_op message))) (read (op_seq (pending_op inflight))) = true ->
  let w' := fst (_handleOp types None message w) in
  map content (pipeline (doc w')) = map content (pendingOps (doc w)) /\
  version (doc w')
  = (if present (op_create (pending_op inflight))
        && truthy (read (op_create (pending_op inflight)))
     then match op_v (msg_op message) with
          | Some v => VNum v
          | None => VUndefined
          end
     else increment (version (doc w))) /\
  type (doc w') = type (doc w) /\
  data (doc w') = data (doc w) /\
  exists rest, trace w' = trace w ++ calls [] (pending_callbacks inflight) ++ rest.
Proof.
  intros Hinflight Hsrc Hseq.
  unfold _handleOp. run. rewrite Hinflight, Hsrc, Hseq. cbn [andb].
  unfold _opAcknowledged. run. rewrite calls_made. cbn [fst snd doc connection trace].
  match goal with
  | |- context [flush ?w0] =>
      set (w2 := w0); pose proof (flush_keeps w2) as Hflush;
      destruct (flush w2) as [w3 o]
  end.
  cbn [fst] in Hflush.
  destruct Hflush as (Hpipe & Hv & Ht & Hd & _ & _ & _ & _ & _ & _ & _ & sent & Htrace & _).
  assert (Hw3 : map content (pipeline (doc w3)) = map content (pendingOps (doc w))
                /\ version (doc w3) = version (doc w2)
                /\ type (doc w3) = type (doc w) /\ data (doc w3) = data (doc w)
                /\ trace w3 = trace w ++ calls [] (pending_callbacks inflight) ++ map Sent sent).
  { rewrite Hpipe, Hv, Ht, Hd, Htrace. unfold w2, pipeline.
    cbn [doc trace set_inflightOp inflightOp pendingOps type data].
    repeat split;
      try (destruct (present _ && truthy _); reflexivity).
    now rewrite <- app_assoc. }
  clear Hpipe Hv Ht Hd Htrace.
  destruct Hw3 as (Hpipe & Hv & Ht & Hd & Htrace).
  assert (Hversion : version (doc w2)
                     = (if present (op_create (pending_op inflight))
                           && truthy (read (op_create (pending_op inflight)))
                        then match op_v (msg_op message) with
                             | Some v => VNum v
                             | None => VUndefined
                             end
                        else increment (version (doc w)))).
  { unfold w2. cbn [doc set_inflightOp version].
    destruct (present _ && truthy _); reflexivity. }
  destruct o as [u|e].
  - pose proof (emit_extends "ack" [] w3) as Hemit.
    destruct (emit "ack" [] w3) as [w4 o4]. cbn [fst] in *.
    destruct Hemit as (Hi4 & Hp4 & Ht4 & Hd4 & Hv4 & _ & _ & _ & _ & rest & Hrest).
    unfold pipeline in *. rewrite Hi4, Hp4, Ht4, Hd4, Hv4, Hrest, Htrace, Hv.
    repeat (split; [assumption |]).
    eexists. rewrite <- !app_assoc. reflexivity.
  - cbn [fst]. rewrite Hv. repeat (split; [assumption |]).
    eexists. exact Htrace.
Qed.

Lemma acknowledged_op_leaves_pipeline_witness :
  version (doc (fst (_handleOp Registered.types None
                       {| msg_c := "docs"; msg_d := "d1";
                          msg_op := {| op_create := None; op_op := None; op_del := None;
                                       op_v := Some 2; op_src := Some (JStr "1");
                                       op_seq := Some (JInt 2) |};
                          msg_error := None |}
                       Samples.rejected_world)))
  = increment (version (doc Samples.rejected_world)).
Proof.
  exact (proj1 (proj2
           (acknowledged_op_leaves_pipeline Registered.types
              {| msg_c := "docs"; msg_d := "d1";
                 msg_op := {| op_create := None; op_op := None; op_del := None;
                              op_v := Some 2; op_src := Some (JStr "1");
                              op_seq := Some (JInt 2) |};
                 msg_error := None |}
              {| pending_op := Samples.edit_op (JInt 5) (Some 1) (Samples.identity "1" 2);
                 pending_type := Some Registered.counterType;
                 pending_callbacks := [Some 1%nat] |}
              Samples.rejected_world eq_refl eq_refl eq_refl))).
Defined.

End PipelineLaws.

(** ** The replica: ops from the server *)

Section RemoteOps.
Import Js OT Client.

Ltac run :=
  unfold mbind, M_bind, bind, read_doc, read_connection, update_doc, update_connection,
         effect, ret, throw;
  cbn [fst snd doc connection trace].

(** A message that is not the acknowledgement of the op in flight. *)
Lemma not_acknowledgement (types : Types.TypeRegistry) (message : OpMessage) (w : World) :
  (forall inflight,
     inflightOp (doc w) = Some inflight ->
     strict_eq (read (op_src (msg_op message))) (read (op_src (pending_op inflight)))
     && strict_eq (read (op_seq (msg_op message))) (read (op_seq (pending_op inflight)))
     = false) ->
  (version (doc w) = VNull \/ op_v (msg_op message) = None ->
   _handleOp types None message w = (w, Normal tt)) /\
  (forall n v,
     version (doc w) = VNum n -> op_v (msg_op message) = Some v ->
     ((v <? n) = true -> _handleOp types None message w = (w, Normal tt)) /\
     ((v >? n) = true ->
      _handleOp types None message w
      = ({| doc := doc w; connection := connection w;
            trace := trace w
                     ++ [Warned "Received op from the future, version mismatch"] |},
         Normal tt))).
Proof.
  intros Hnot. split.
  - intros H. unfold _handleOp. run.
    destruct (inflightOp (doc w)) as [i|] eqn:Hi; [rewrite (Hnot i eq_refl) |];
      (destruct H as [-> | ->]; [reflexivity |]);
      destruct (version (doc w)); reflexivity.
  - intros n v Hn Hv. unfold _handleOp. run.
    split; intros Hcmp.
    + assert (Hgt : (v >? n) = false) by (rewrite Z.gtb_ltb; lia).
      destruct (inflightOp (doc w)) as [i|] eqn:Hi; [rewrite (Hnot i eq_refl) |];
        rewrite Hn, Hv; cbn [version_gt version_lt]; now rewrite Hgt, Hcmp.
    + destruct (inflightOp (doc w)) as [i|] eqn:Hi; [rewrite (Hnot i eq_refl) |];
        rewrite Hn, Hv; cbn [version_gt version_lt]; now rewrite Hcmp.
Qed.

(** X22.  Ops the replica cannot use.  A message from another client whose version
    is below the version of the replica changes nothing; one whose version
    is above it changes nothing either, and a warning is logged.  A replica
    whose version is [null], and a message without version, make the replica
    ignore the message as well.  In none of these cases is a pending op
    transformed or a callback called. *)
Theorem unusable_remote_op_is_ignored (types : Types.TypeRegistry) (message : OpMessage)
    (w : World) :
  (forall inflight,
     inflightOp (doc w) = Some inflight ->
     strict_eq (read (op_src (msg_op message))) (read (op_src (pending_op inflight)))
     && strict_eq (read (op_seq (msg_op message))) (read (op_seq (pending_op inflight)))
     = false) ->
  (version (doc w) = VNull \/ op_v (msg_op message) = None ->
   _handleOp types None message w = (w, Normal tt)) /\
  (forall n v,
     version (doc w) = VNum n -> op_v (msg_op message) = Some v ->
     ((v <? n) = true -> _handleOp types None message w = (w, Normal tt)) /\
     ((v >? n) = true ->
      _handleOp types None message w
      = ({| doc := doc w; connection := connection w;
            trace := trace w
                     ++ [Warned "Received op from the future, version mismatch"] |},
         Normal tt))).
Proof. exact (not_acknowledgement types message w). Qed.

Lemma emit_returns (event : string) (args : list Arg) (w : World) :
  String.eqb event "error" = false -> snd (emit event args w) = Normal tt.
Proof.
  intros Hevent. unfold emit. run. rewrite Hevent.
  assert (Hgo : forall called,
             snd (for_each called (fun l => effect (Invoked (listener_fn l) args))
                    {| doc := set_listeners
                                (List.filter
                                   (fun l => negb (listens_to event l && listener_once l))
                                   (listeners (doc w))) (doc w);
                       connection := connection w; trace := trace w |}) = Normal tt).
  { intros called. now rewrite for_each_effects. }
  destruct (List.filter (listens_to event) (listeners (doc w))); apply Hgo.
Qed.

(** The state after a hard rollback, and the calls it makes first. *)
Lemma hardRollback_resets (error : string) (w : World) :
  let w' := fst (_hardRollback error w) in
  inflightOp (doc w') = None /\
  pendingOps (doc w') = [] /\
  type (doc w') = None /\
  data (doc w') = JUndefined /\
  version (doc w') = VNull /\
  subscribed (doc w') = false /\
  exists rest,
    trace w' = trace w ++ rollback_calls error (pipeline (doc w)) ++ rest.
Proof.
  unfold _hardRollback. run. fold (pipeline (doc w)).
  rewrite rollback_calls_made. cbn [update_doc doc connection trace fst snd].
  set (w1 := {| doc := set_subscribed false
                         (set_version VNull
                            (set_type_data None JUndefined
                               (set_pendingOps [] (set_inflightOp None (doc w)))));
                connection := connection w;
                trace := trace w ++ rollback_calls error (pipeline (doc w)) |}).
  rewrite (subscribe_again w1 eq_refl).
  change (connection w1) with (connection w).
  destruct (conn_canSend (connection w));
    [destruct (conn_transport (connection w)) |].
  2:{ cbn [fst]. repeat split. exists []. now rewrite app_nil_r. }
  all: match goal with
       | |- context [emit ?ev ?args ?w0] =>
           pose proof (emit_extends ev args w0) as Hemit;
           destruct (emit ev args w0) as [w2 o]
       end;
    destruct Hemit as (Hi & Hp & Ht & Hd & Hv & Hs & _ & _ & _ & rest & Hrest);
    cbn [fst doc connection trace] in *; rewrite Hi, Hp, Ht, Hd, Hv, Hs, Hrest;
    repeat split; eexists; unfold w1; cbn [trace]; rewrite <- !app_assoc; reflexivity.
Qed.

(** X23.  A remote delete against local work.  When a message from another client
    deletes the document at the version of the replica while an op that is
    not itself a delete is first in the pipeline, the replica gives up its
    local work: inflight op and queue are dropped and every callback is
    called with the error 'Document was deleted', in submission order; type,
    data and version are reset and the replica is marked as not
    subscribed. *)
Theorem remote_delete_rolls_back (types : Types.TypeRegistry) (message : OpMessage)
    (first : PendingOp) (others : list PendingOp) (v : Z) (w : World) :
  pipeline (doc w) = first :: others ->
  (forall inflight,
     inflightOp (doc w) = Some inflight ->
     strict_eq (read (op_src (msg_op message))) (read (op_src (pending_op inflight)))
     && strict_eq (read (op_seq (msg_op message))) (read (op_seq (pending_op inflight)))
     = false) ->
  version (doc w) = VNum v ->
  op_v (msg_op message) = Some v ->
  present (op_del (pending_op first)) && truthy (read (op_del (pending_op first))) = false ->
  truthy (read (op_del (msg_op message))) = true ->
  let w' := fst (_handleOp types None message w) in
  inflightOp (doc w') = None /\
  pendingOps (doc w') = [] /\
  type (doc w') = None /\
  data (doc w') = JUndefined /\
  version (doc w') = VNull /\
  subscribed (doc w') = false /\
  exists rest,
    trace w' = trace w ++ rollback_calls "Document was deleted" (first :: others) ++ rest.
Proof.
  intros Hpipe Hnot Hversion Hv Hclient Hserver.
  assert (HX : transformX first message
               = Error.Return (first, message, Some "Document was deleted"%string)).
  { unfold transformX. now rewrite Hclient, Hserver. }
  unfold _handleOp. run. unfold pipeline in Hpipe.
  destruct (inflightOp (doc w)) as [i|] eqn:Hi.
  - injection Hpipe as -> Hothers. rewrite (Hnot first eq_refl).
    rewrite Hversion, Hv. cbn [version_gt version_lt].
    rewrite Z.gtb_ltb, Z.ltb_irrefl. rewrite HX. cbn [from_type]. run.
    match goal with
    | |- context [_hardRollback ?e ?w0] =>
        pose proof (hardRollback_resets e w0) as Hreset
    end.
    cbn zeta in Hreset. unfold pipeline in Hreset.
    cbn [doc trace set_inflightOp inflightOp pendingOps] in Hreset.
    rewrite Hothers in Hreset. exact Hreset.
  - rewrite Hversion, Hv. cbn [version_gt version_lt].
    rewrite Z.gtb_ltb, Z.ltb_irrefl. rewrite Hpipe.
    cbn [rebase_pending]. rewrite HX. cbn [from_type]. run. cbn ["++"].
    match goal with
    | |- context [_hardRollback ?e ?w0] =>
        pose proof (hardRollback_resets e w0) as Hreset
    end.
    cbn zeta in Hreset. unfold pipeline in Hreset.
    cbn [doc trace set_pendingOps inflightOp pendingOps] in Hreset.
    rewrite Hi in Hreset. exact Hreset.
Qed.

Lemma remote_delete_rolls_back_witness :
  version (doc (fst (_handleOp Registered.types None
                       {| msg_c := "docs"; msg_d := "d1";
                          msg_op := Samples.delete_op (Some 1) (Samples.identity "2" 1);
                          msg_error := None |}
                       Samples.rejected_world))) = VNull.
Proof.
  eapply (remote_delete_rolls_back Registered.types
            {| msg_c := "docs"; msg_d := "d1";
               msg_op := Samples.delete_op (Some 1) (Samples.identity "2" 1);
               msg_error := None |}
            _ _ 1 Samples.rejected_world).
  - reflexivity.
  - intros inflight H. injection H as <-. reflexivity.
  - reflexivity.
  - reflexivity.
  - reflexivity.
  - reflexivity.
Defined.

Lemma unusable_remote_op_is_ignored_witness :
  _handleOp Registered.types None
    {| msg_c := "docs"; msg_d := "d1";
       msg_op := Samples.edit_op (JInt 4) (Some 0) (Samples.identity "2" 1);
       msg_error := None |}
    Samples.rejected_world
  = (Samples.rejected_world, Normal tt).
Proof.
  eapply (unusable_remote_op_is_ignored Registered.types
            {| msg_c := "docs"; msg_d := "d1";
               msg_op := Samples.edit_op (JInt 4) (Some 0) (Samples.identity "2" 1);
               msg_error := None |}
            Samples.rejected_world).
  - intros inflight H. injection H as <-. reflexivity.
  - reflexivity.
  - reflexivity.
  - reflexivity.
Defined.

(** What an event other than ['error'] leaves behind. *)
Lemma emit_event (event : string) (args : list Arg) (w : World) :
  String.eqb event "error" = false ->
  exists w', emit event args w = (w', Normal tt) /\ extends w w'.
Proof.
  intros Hevent. pose proof (emit_extends event args w) as Hext.
  pose proof (emit_returns event args w Hevent) as Hret.
  destruct (emit event args w) as [w' o]. cbn [fst snd] in *. subst o. eauto.
Qed.

Lemma remote_edit_step (types : Types.TypeRegistry) (message : OpMessage)
    (inflight : PendingOp) (t t' : Types.OTType) (v : Z) (local remote a b x : JsVal)
    (w : World) :
  inflightOp (doc w) = Some inflight ->
  pendingOps (doc w) = [] ->
  strict_eq (read (op_src (msg_op message))) (read (op_src (pending_op inflight)))
  && strict_eq (read (op_seq (msg_op message))) (read (op_seq (pending_op inflight)))
  = false ->
  version (doc w) = VNum v ->
  op_v (msg_op message) = Some v ->
  op_create (pending_op inflight) = None ->
  op_del (pending_op inflight) = None ->
  op_op (pending_op inflight) = Some local ->
  pending_type inflight = Some t ->
  op_create (msg_op message) = None ->
  op_del (msg_op message) = None ->
  op_op (msg_op message) = Some remote ->
  strict_eq remote JUndefined = false ->
  Types.transform t local remote Types.left = Error.Return a ->
  Types.transform t remote local Types.right = Error.Return b ->
  strict_eq b JUndefined = false ->
  type (doc w) = Some t' ->
  Types.apply t' (data (doc w)) b = Error.Return x ->
  let w' := fst (_handleOp types None message w) in
  snd (_handleOp types None message w) = Normal tt /\
  inflightOp (doc w') = Some (set_payload inflight a) /\
  pendingOps (doc w') = [] /\
  version (doc w') = VNum (v + 1) /\
  type (doc w') = Some t' /\
  data (doc w') = x.
Proof.
  intros Hi Hpending Hnot Hversion Hv Hcc Hcd Hco Hct Hsc Hsd Hso Hremote Ha Hb Hbdef
         Htype Happly.
  assert (HX : transformX inflight message
               = Error.Return
                   (set_payload inflight a,
                    {| msg_c := msg_c message; msg_d := msg_d message;
                       msg_op := set_op (msg_op message) b;
                       msg_error := msg_error message |},
                    None)).
  { unfold transformX. rewrite Hcc, Hcd, Hco, Hct, Hsc, Hsd, Hso.
    cbn [present read default from_option andb orb negb truthy]. unfold Datatypes.id.
    rewrite Hremote, Ha. cbn [mbind Result_bind Error.bind]. rewrite Hb. reflexivity. }
  unfold _handleOp. run. rewrite Hi, Hnot, Hversion, Hv. cbn [version_gt version_lt].
  rewrite Z.gtb_ltb, Z.ltb_irrefl, HX. cbn [from_type]. run. rewrite Hpending.
  cbn [rebase_pending]. run. unfold _otApply.
  cbn [msg_op set_op op_op read default from_option]. unfold Datatypes.id. rewrite Hbdef.
  cbn [negb]. run. cbn [set_version set_inflightOp type data version].
  rewrite Htype.
  match goal with
  | |- context [emit "before op" ?args ?w0] =>
      destruct (emit_event "before op" args w0 eq_refl) as (w1 & -> & Hext1)
  end.
  destruct Hext1 as (Hi1 & Hp1 & Ht1 & Hd1 & Hv1 & _).
  cbn [doc set_version set_inflightOp inflightOp pendingOps type data version] in *.
  rewrite Happly. cbn [from_type]. run.
  match goal with
  | |- context [emit "op" ?args ?w0] =>
      destruct (emit_event "op" args w0 eq_refl) as (w2 & -> & Hext2)
  end.
  destruct Hext2 as (Hi2 & Hp2 & Ht2 & Hd2 & Hv2 & _).
  cbn [fst snd doc set_type_data inflightOp pendingOps type data version] in *.
  rewrite Hi2, Hp2, Ht2, Hd2, Hv2, Hi1, Hp1, Ht1, Hv1, Hpending.
  repeat split; try reflexivity; [now rewrite Hversion | exact Htype].
Qed.

(** X24.  A remote edit against a local edit.  An op is in flight and nothing is
    queued; both the op in flight and the message are edits, and the message
    is at the version of the replica.  Then the op in flight becomes its
    transform against the edit of the message, as the left side; the data
    becomes the data with the edit of the message applied, after that edit
    was transformed against the local one, as the right side; and the
    version goes up by one. *)
Theorem remote_edit_is_transformed (types : Types.TypeRegistry) (message : OpMessage)
    (inflight : PendingOp) (t t' : Types.OTType) (v : Z) (local remote a b x : JsVal)
    (w : World) :
  inflightOp (doc w) = Some inflight ->
  pendingOps (doc w) = [] ->
  strict_eq (read (op_src (msg_op message))) (read (op_src (pending_op inflight)))
  && strict_eq (read (op_seq (msg_op message))) (read (op_seq (pending_op inflight)))
  = false ->
  version (doc w) = VNum v ->
  op_v (msg_op message) = Some v ->
  op_create (pending_op inflight) = None ->
  op_del (pending_op inflight) = None ->
  op_op (pending_op inflight) = Some local ->
  pending_type inflight = Some t ->
  op_create (msg_op message) = None ->
  op_del (msg_op message) = None ->
  op_op (msg_op message) = Some remote ->
  strict_eq remote JUndefined = false ->
  Types.transform t local remote Types.left = Error.Return a ->
  Types.transform t remote local Types.right = Error.Return b ->
  strict_eq b JUndefined = false ->
  type (doc w) = Some t' ->
  Types.apply t' (data (doc w)) b = Error.Return x ->
  let w' := fst (_handleOp types None message w) in
  snd (_handleOp types None message w) = Normal tt /\
  inflightOp (doc w') = Some (set_payload inflight a) /\
  pendingOps (doc w') = [] /\
  version (doc w') = VNum (v + 1) /\
  type (doc w') = Some t' /\
  data (doc w') = x.
Proof.
  exact (remote_edit_step types message inflight t t' v local remote a b x w).
Qed.

Lemma remote_edit_is_transformed_witness :
  data (doc (fst (_handleOp Registered.types None
                    {| msg_c := "docs"; msg_d := "d1";
                       msg_op := Samples.edit_op (JInt 4) (Some 1) (Samples.identity "2" 1);
                       msg_error := None |}
                    {| doc := set_pendingOps [] (doc Samples.rejected_world);
                       connection := connection Samples.rejected_world;
                       trace := [] |}))) = JInt 12.
Proof.
  refine (proj2 (proj2 (proj2 (proj2 (proj2
           (remote_edit_is_transformed Registered.types
              {| msg_c := "docs"; msg_d := "d1";
                 msg_op := Samples.edit_op (JInt 4) (Some 1) (Samples.identity "2" 1);
                 msg_error := None |}
              {| pending_op := Samples.edit_op (JInt 5) (Some 1) (Samples.identity "1" 2);
                 pending_type := Some Registered.counterType;
                 pending_callbacks := [Some 1%nat] |}
              Registered.counterType Registered.counterType 1
              (JInt 5) (JInt 4) (JInt 5) (JInt 4) (JInt 12)
              {| doc := set_pendingOps [] (doc Samples.rejected_world);
                 connection := connection Samples.rejected_world;
                 trace := [] |}
              _ _ _ _ _ _ _ _ _ _ _ _ _ _ _ _ _ _))))));
    reflexivity.
Defined.

(** X25.  Convergence of a replica with the server on concurrent inserts.  The
    document holds the text [s] at version [v]; the replica has applied its
    own insert [a] and has it in flight; the server has committed the insert
    [b] of another client first, and its message reaches the replica.  The
    replica then holds the text the server will hold once it has rebased [a]
    over [b] and applied it; and the op the replica keeps in flight is the op
    the server's [transform] produces from [a]. *)
Theorem replica_converges_on_inserts (s : string) (p q : Z) (t u : string) (v : Z)
    (inflight : PendingOp) (message : OpMessage) (w : World) :
  TextType.valid s (TextType.InsertOp p t) ->
  TextType.valid s (TextType.InsertOp q u) ->
  type (doc w) = Some Registered.textType ->
  data (doc w) = JStr (TextType.apply s (TextType.InsertOp p t)) ->
  version (doc w) = VNum v ->
  inflightOp (doc w) = Some inflight ->
  pendingOps (doc w) = [] ->
  pending_type inflight = Some Registered.textType ->
  op_create (pending_op inflight) = None ->
  op_del (pending_op inflight) = None ->
  op_op (pending_op inflight) = Some (Registered.of_text_op (TextType.InsertOp p t)) ->
  op_v (pending_op inflight) = Some v ->
  op_create (msg_op message) = None ->
  op_del (msg_op message) = None ->
  op_op (msg_op message) = Some (Registered.of_text_op (TextType.InsertOp q u)) ->
  op_v (msg_op message) = Some v ->
  strict_eq (read (op_src (msg_op message))) (read (op_src (pending_op inflight)))
  && strict_eq (read (op_seq (msg_op message))) (read (op_seq (pending_op inflight)))
  = false ->
  let rebased := TextType.transform (TextType.InsertOp p t) (TextType.InsertOp q u)
                                    Types.left in
  let w' := fst (_handleOp Registered.types None message w) in
  data (doc w')
  = JStr (TextType.apply (TextType.apply s (TextType.InsertOp q u)) rebased) /\
  inflightOp (doc w') = Some (set_payload inflight (Registered.of_text_op rebased)) /\
  version (doc w') = VNum (v + 1) /\
  OT.transform Registered.types (TypeName "simple-text") (pending_op inflight)
               (msg_op message)
  = Error.Return (increment_v (set_op (pending_op inflight)
                                      (Registered.of_text_op rebased))) /\
  Types.apply Registered.textType
              (JStr (TextType.apply s (TextType.InsertOp q u)))
              (Registered.of_text_op rebased)
  = Error.Return (data (doc w')).
Proof.
  intros Ha Hb Htype Hdata Hversion Hi Hpending Hct Hcc Hcd Hco Hcv Hsc Hsd Hso Hsv Hnot.
  pose proof (text_TP1_inserts s p q t u Ha Hb) as Hconv. unfold TextType.TP1 in Hconv.
  cbn zeta.
  assert (Htransform : forall x y side,
             Types.transform Registered.textType (Registered.of_text_op x)
                             (Registered.of_text_op y) side
             = Error.Return (Registered.of_text_op (TextType.transform x y side))).
  { intros x y side. cbn [Types.transform Registered.textType].
    now rewrite !as_text_op_of_text_op. }
  assert (Happly : forall z o,
             Types.apply Registered.textType (JStr z) (Registered.of_text_op o)
             = Error.Return (JStr (TextType.apply z o))).
  { intros z o. cbn [Types.apply Registered.textType].
    now rewrite as_text_op_of_text_op. }
  assert (Hdefined : forall o, strict_eq (Registered.of_text_op o) JUndefined = false).
  { intros [? ?|? ?]; reflexivity. }
  pose proof (remote_edit_step Registered.types message inflight
                Registered.textType Registered.textType v _ _ _ _
                (JStr (TextType.apply (TextType.apply s (TextType.InsertOp p t))
                         (TextType.transform (TextType.InsertOp q u)
                            (TextType.InsertOp p t) Types.right)))
                w Hi Hpending Hnot Hversion Hsv Hcc Hcd Hco Hct Hsc Hsd Hso
                (Hdefined _) (Htransform _ _ _) (Htransform _ _ _) (Hdefined _) Htype)
    as Hstep.
  rewrite Hdata in Hstep. specialize (Hstep (Happly _ _)).
  cbn zeta in Hstep. destruct Hstep as (_ & Hi' & _ & Hv' & _ & Hd').
  rewrite Hd', Hi', Hv', Hconv. repeat split.
  - unfold OT.transform. rewrite Hcv, Hsv, Z.eqb_refl.
    unfold isDeleteOp, isCreateOp, isEditOp. rewrite Hsd, Hsc, Hso, Hco, Hcc.
    cbn [present andb orb negb guard_or_throw mbind Result_bind Error.bind no_type].
    change (Types.get Registered.types "simple-text") with (Some Registered.textType).
    cbn [read default from_option mbind Result_bind Error.bind]. unfold Datatypes.id.
    rewrite Htransform. reflexivity.
  - apply Happly.
Qed.


Lemma replica_converges_on_inserts_witness :
  data (doc (fst (_handleOp Registered.types None Samples.remote_insert
                    Samples.inserting_world)))
  = JStr (TextType.apply (TextType.apply "hello" (TextType.InsertOp 3 "B"))
            (TextType.transform (TextType.InsertOp 0 "A") (TextType.InsertOp 3 "B")
               Types.left)).
Proof.
  eapply (replica_converges_on_inserts "hello" 0 3 "A" "B" 1 _
            Samples.remote_insert Samples.inserting_world);
    try reflexivity; simpl; lia.
Defined.

End RemoteOps.

(** ** The replica: loading and submitting *)

Section LoadAndSubmit.
Import Js OT Client.

Ltac run :=
  unfold mbind, M_bind, bind, read_doc, read_connection, update_doc, update_connection,
         effect, ret, throw;
  cbn [fst snd doc connection trace].

(** Emitting an event sends nothing. *)
Lemma emit_sends_nothing (event : string) (args : list Arg) (w : World) :
  requests (trace (fst (emit event args w))) = requests (trace w).
Proof.
  unfold emit. run.
  assert (Hgo : forall called,
             requests (trace (fst
               (for_each called (fun l => effect (Invoked (listener_fn l) args))
                  {| doc := set_listeners
                              (List.filter
                                 (fun l => negb (listens_to event l && listener_once l))
                                 (listeners (doc w))) (doc w);
                     connection := connection w; trace := trace w |})))
             = requests (trace w)).
  { intros called. rewrite for_each_effects. cbn [fst trace].
    now rewrite requests_app, (requests_Invoked listener_fn), app_nil_r. }
  destruct (List.filter (listens_to event) (listeners (doc w))) as [|l ls];
    [| apply Hgo].
  destruct (String.eqb event "error"); [| apply (Hgo [])].
  destruct args as [|[message|x|b] args]; apply (Hgo []).
Qed.

Lemma extends_trans (w1 w2 w3 : World) : extends w1 w2 -> extends w2 w3 -> extends w1 w3.
Proof.
  intros (Hi & Hp & Ht & Hd & Hv & Hs & Hc & Hid & Hconn & r & Hr)
         (Hi' & Hp' & Ht' & Hd' & Hv' & Hs' & Hc' & Hid' & Hconn' & r' & Hr').
  repeat split; try congruence.
  exists (r ++ r'). rewrite Hr', Hr. now rewrite app_assoc.
Qed.

Lemma ingestSnapshot_sets (types : Types.TypeRegistry) (snapshot : Snapshot) (w : World) :
  let w' := fst (_ingestSnapshot types snapshot w) in
  subscribed (doc w') = subscribed (doc w) /\
  version (doc w') = VNum (snap_v snapshot) /\
  inflightOp (doc w') = inflightOp (doc w) /\
  pendingOps (doc w') = pendingOps (doc w) /\
  requests (trace w') = requests (trace w) /\
  match snap_type snapshot with
  | Some name =>
      if String.eqb name "" then type (doc w') = None /\ data (doc w') = JUndefined
      else match Types.get types name with
           | Some t => type (doc w') = Some t /\ data (doc w') = snap_data snapshot
           | None => type (doc w') = type (doc w) /\ data (doc w') = data (doc w)
           end
  | None => type (doc w') = None /\ data (doc w') = JUndefined
  end.
Proof.
  unfold _ingestSnapshot. run.
  destruct (snap_type snapshot) as [name|]; [| cbn; repeat split; reflexivity].
  cbn [truthy]. destruct (String.eqb name ""); cbn [negb];
    [cbn; repeat split; reflexivity |].
  destruct (Types.get types name) as [t|]; [cbn; repeat split; reflexivity |].
  match goal with
  | |- context [emit ?ev ?args ?w1] =>
      pose proof (emit_extends ev args w1) as He;
      pose proof (emit_sends_nothing ev args w1) as Hr;
      destruct (emit ev args w1) as [w1' o1]
  end.
  cbn [fst] in *. destruct He as (Hi & Hp & Ht & Hd & Hv & Hs & _).
  rewrite Hi, Hp, Ht, Hd, Hv, Hs, Hr. cbn. repeat split; reflexivity.
Qed.

Lemma subscribe_and_load (w : World) :
  let w' := fst ((_ ← emit "subscribe" []; emit "load" []) w) in
  extends w w' /\ requests (trace w') = requests (trace w).
Proof.
  run.
  pose proof (emit_extends "subscribe" [] w) as He1.
  pose proof (emit_sends_nothing "subscribe" [] w) as Hr1.
  destruct (emit "subscribe" [] w) as [w1 [u|e]]; cbn [fst] in *.
  - pose proof (emit_extends "load" [] w1) as He2.
    pose proof (emit_sends_nothing "load" [] w1) as Hr2.
    split; [eapply extends_trans; eassumption | congruence].
  - split; assumption.
Qed.

(** X26.  The answer to a subscribe request.  An answer that carries a snapshot
    marks the replica as subscribed and sets its version to the version of
    the snapshot.  Type and data become those of the snapshot when its type
    is registered, and are cleared when the snapshot has no type; when the
    snapshot names a type that is not registered they stay as they were,
    under the new version.  The ops awaiting acknowledgement are not
    touched, and nothing is sent.  An answer that carries an error changes
    nothing in the replica: it stays unsubscribed. *)
Theorem subscribe_answer_is_ingested (types : Types.TypeRegistry) (snapshot : Snapshot)
    (error : ErrorEnvelope) (w : World) :
  let w' := fst (_handleSubscribe types None (Some snapshot) w) in
  subscribed (doc w') = true /\
  version (doc w') = VNum (snap_v snapshot) /\
  inflightOp (doc w') = inflightOp (doc w) /\
  pendingOps (doc w') = pendingOps (doc w) /\
  requests (trace w') = requests (trace w) /\
  match snap_type snapshot with
  | Some name =>
      if String.eqb name "" then type (doc w') = None /\ data (doc w') = JUndefined
      else match Types.get types name with
           | Some t => type (doc w') = Some t /\ data (doc w') = snap_data snapshot
           | None => type (doc w') = type (doc w) /\ data (doc w') = data (doc w)
           end
  | None => type (doc w') = None /\ data (doc w') = JUndefined
  end /\
  extends w (fst (_handleSubscribe types (Some error) (Some snapshot) w)).
Proof.
  cbn zeta.
  assert (Hanswer :
    _handleSubscribe types None (Some snapshot) w
    = match _ingestSnapshot types snapshot
              {| doc := set_subscribed true (doc w); connection := connection w;
                 trace := trace w |} with
      | (w1, Normal _) => (_ ← emit "subscribe" []; emit "load" []) w1
      | (w1, Abrupt e) => (w1, Abrupt e)
      end).
  { unfold _handleSubscribe. run. reflexivity. }
  rewrite Hanswer. clear Hanswer.
  set (w0 := {| doc := set_subscribed true (doc w); connection := connection w;
                trace := trace w |}).
  pose proof (ingestSnapshot_sets types snapshot w0) as Hingest. cbn zeta in Hingest.
  destruct (_ingestSnapshot types snapshot w0) as [w1 o]. cbn [fst] in Hingest.
  change (subscribed (doc w0)) with true in Hingest.
  change (inflightOp (doc w0)) with (inflightOp (doc w)) in Hingest.
  change (pendingOps (doc w0)) with (pendingOps (doc w)) in Hingest.
  change (trace w0) with (trace w) in Hingest.
  change (type (doc w0)) with (type (doc w)) in Hingest.
  change (data (doc w0)) with (data (doc w)) in Hingest.
  split_and ?; [.. | apply emit_extends].
  all: destruct o as [u|e]; cbn [fst];
    [ destruct (subscribe_and_load w1) as [(Hi & Hp & Ht & Hd & Hv & Hs & _) Hr];
      cbn zeta in *; rewrite ?Hi, ?Hp, ?Ht, ?Hd, ?Hv, ?Hs, ?Hr | ];
    apply Hingest.
Qed.

Lemma emit_event_quiet (event : string) (args : list Arg) (w : World) :
  String.eqb event "error" = false ->
  exists w', emit event args w = (w', Normal tt) /\ extends w w'
             /\ requests (trace w') = requests (trace w).
Proof.
  intros Hevent. pose proof (emit_extends event args w) as Hext.
  pose proof (emit_returns event args w Hevent) as Hret.
  pose proof (emit_sends_nothing event args w) as Hreq.
  destruct (emit event args w) as [w' o]. cbn [fst snd] in *. subst o. eauto.
Qed.

(** X27.  A submitted edit is applied at once and sent later.  [_submit] of an
    edit on a replica that has a type applies the edit to the local data
    before it returns, puts the op at the end of the queue, and sends
    nothing: the flush is left to a timer.  Version, op in flight and
    connection are as before.  When the [apply] of the type throws, the
    error reaches the caller, the data is as before and the op is not
    queued. *)
Theorem submitted_edit_is_applied_at_once (types : Types.TypeRegistry) (op : PendingOp)
    (t : Types.OTType) (payload : JsVal) (w : World) :
  type (doc w) = Some t ->
  op_create (pending_op op) = None ->
  op_op (pending_op op) = Some payload ->
  strict_eq payload JUndefined = false ->
  let w' := fst (_submit types op w) in
  match Types.apply t (data (doc w)) payload with
  | Error.Return x =>
      snd (_submit types op w) = Normal flush /\
      data (doc w') = x /\
      pendingOps (doc w') = pendingOps (doc w) ++ [op]
  | Error.Throw e =>
      snd (_submit types op w) = Abrupt (FromType e) /\
      data (doc w') = data (doc w) /\
      pendingOps (doc w') = pendingOps (doc w)
  end /\
  type (doc w') = Some t /\
  version (doc w') = version (doc w) /\
  inflightOp (doc w') = inflightOp (doc w) /\
  connection w' = connection w /\
  requests (trace w') = requests (trace w).
Proof.
  intros Htype Hcreate Hop Hdefined.
  unfold _submit, _otApply. cbn [local_message msg_op]. rewrite Hop, Hcreate.
  cbn [read default from_option present andb]. unfold Datatypes.id.
  rewrite Hdefined. cbn [negb]. run. rewrite Htype.
  destruct (emit_event_quiet "before op" [AValue payload; ABool true] w eq_refl)
    as (w1 & -> & (Hi1 & Hp1 & Ht1 & Hd1 & Hv1 & _ & _ & _ & Hc1 & _) & Hr1).
  destruct (Types.apply t (data (doc w)) payload) as [x|e]; cbn [from_type]; run.
  - match goal with
    | |- context [emit "op" ?args ?w0] =>
        destruct (emit_event_quiet "op" args w0 eq_refl)
          as (w2 & -> & (Hi2 & Hp2 & Ht2 & Hd2 & Hv2 & _ & _ & _ & Hc2 & _) & Hr2)
    end.
    cbn [fst snd doc connection trace set_type_data set_pendingOps inflightOp pendingOps
         type data version] in *.
    rewrite Hp2, Hp1, Hd2, Ht2, Ht1, Hv2, Hv1, Hi2, Hi1, Hc2, Hc1, Hr2, Hr1.
    repeat split; assumption.
  - cbn [fst snd]. rewrite Hd1, Hp1, Ht1, Hv1, Hi1, Hc1, Hr1. repeat split; assumption.
Qed.

Lemma submitted_edit_is_applied_at_once_witness :
  requests (trace (fst (_submit Registered.types
                          {| pending_op := Samples.edit_op (JInt 2) (Some 1) Samples.anonymous;
                             pending_type := Some Registered.counterType;
                             pending_callbacks := [None] |}
                          Samples.rejected_world)))
  = requests (trace Samples.rejected_world).
Proof.
  refine (proj2 (proj2 (proj2 (proj2 (proj2
           (submitted_edit_is_applied_at_once Registered.types
              {| pending_op := Samples.edit_op (JInt 2) (Some 1) Samples.anonymous;
                 pending_type := Some Registered.counterType;
                 pending_callbacks := [None] |}
              Registered.counterType (JInt 2) Samples.rejected_world _ _ _ _))))));
    reflexivity.
Defined.

End LoadAndSubmit.

(** ** The subscription index of the backend *)

Section BackendLaws.
Import Backend.

Lemma elem_of_List_filter {A} (f : A -> bool) (l : list A) (x : A) :
  x ∈ List.filter f l <-> f x = true /\ x ∈ l.
Proof. rewrite !list_elem_of_In, filter_In. tauto. Qed.

Lemma List_filter_all {A} (f : A -> bool) (l : list A) :
  (forall x, f x = true) -> List.filter f l = l.
Proof.
  intros Hf. induction l as [|x l IH]; [reflexivity |]. simpl. now rewrite Hf, IH.
Qed.

Lemma NoDup_List_filter {A} (f : A -> bool) (l : list A) :
  NoDup l -> NoDup (List.filter f l).
Proof.
  induction l as [|x l IH]; intros Hl; [exact Hl |].
  apply NoDup_cons in Hl as [Hx Hl]. simpl. destruct (f x); [| now apply IH].
  apply NoDup_cons. split; [| now apply IH].
  rewrite elem_of_List_filter. tauto.
Qed.

(** The subscribers of a document, as the index has them. *)
Lemma broadcast_to_all (subs : Subscriptions) (c d : string) :
  _broadcast subs c d None = default [] (subs !! c ≫= (fun collectionSubs => collectionSubs !! d)).
Proof.
  unfold _broadcast. destruct (subs !! c) as [cs|]; [| reflexivity]. simpl.
  destruct (cs !! d) as [s|]; [| reflexivity]. simpl.
  apply List_filter_all. intros x. reflexivity.
Qed.

Lemma broadcast_filter (subs : Subscriptions) (c d : string) (ex : option Agent) :
  _broadcast subs c d ex
  = List.filter (fun agent => negb (bool_decide (Some agent = ex))) (_broadcast subs c d None).
Proof.
  rewrite broadcast_to_all. unfold _broadcast.
  destruct (subs !! c) as [cs|]; [| reflexivity]. simpl.
  destruct (cs !! d) as [s|]; reflexivity.
Qed.

Lemma subscribers_subscribe (subs : Subscriptions) (c d c' d' : string) (a : Agent) :
  _broadcast (_subscribe subs c d a) c' d' None
  = if decide (c = c' /\ d = d') then add a (_broadcast subs c d None)
    else _broadcast subs c' d' None.
Proof.
  rewrite !broadcast_to_all. unfold _subscribe, Subscriptions, AgentSet in *. cbn zeta.
  destruct (decide (c = c')) as [<-|Hc].
  - rewrite lookup_insert_eq. simpl.
    destruct (decide (d = d')) as [<-|Hd].
    + rewrite lookup_insert_eq, decide_True by done. simpl.
      destruct (subs !! c) as [cs|]; reflexivity.
    + rewrite lookup_insert_ne, decide_False by tauto.
      destruct (subs !! c) as [cs|]; simpl; rewrite ?lookup_empty; reflexivity.
  - rewrite lookup_insert_ne, decide_False by tauto. reflexivity.
Qed.

Lemma subscribers_unsubscribe (subs : Subscriptions) (c d c' d' : string) (a : Agent) :
  _broadcast (_unsubscribe subs c d a) c' d' None
  = if decide (c = c' /\ d = d') then remove a (_broadcast subs c d None)
    else _broadcast subs c' d' None.
Proof.
  rewrite !broadcast_to_all. unfold _unsubscribe, Subscriptions, AgentSet in *.
  destruct (subs !! c) as [cs|] eqn:Hcs.
  2:{ destruct (decide _) as [[<- <-]|]; [| reflexivity]. now rewrite Hcs. }
  destruct (cs !! d) as [s|] eqn:Hs.
  2:{ destruct (decide _) as [[<- <-]|]; [| reflexivity]. rewrite Hcs. simpl. now rewrite Hs. }
  simpl. rewrite Hs. simpl.
  match goal with |- context [size ?m] => set (cs' := m) end.
  assert (Hcs' : forall d'', default [] (cs' !! d'')
                             = if decide (d = d'') then remove a s
                               else default [] (cs !! d'')).
  { intros d''. unfold cs'. destruct (Nat.eqb_spec (length (remove a s)) 0) as [Hlen|Hlen].
    - destruct (decide (d = d'')) as [<-|Hd].
      + rewrite lookup_delete_eq. symmetry. now apply nil_length_inv.
      + now rewrite lookup_delete_ne.
    - destruct (decide (d = d'')) as [<-|Hd].
      + now rewrite lookup_insert_eq.
      + now rewrite lookup_insert_ne. }
  destruct (Nat.eqb_spec (size cs') 0) as [Hsize|Hsize].
  - apply map_size_empty_iff in Hsize.
    destruct (decide (c = c')) as [<-|Hc].
    + rewrite lookup_delete_eq. simpl.
      pose proof (Hcs' d') as H. rewrite Hsize, lookup_empty in H. simpl in H.
      rewrite Hcs. simpl.
      destruct (decide (d = d')) as [<-|Hd].
      * now rewrite decide_True.
      * now rewrite decide_False by tauto.
    + rewrite lookup_delete_ne, decide_False by tauto. reflexivity.
  - destruct (decide (c = c')) as [<-|Hc].
    + rewrite lookup_insert_eq, Hcs. simpl. rewrite Hcs'.
      destruct (decide (d = d')) as [<-|Hd].
      * now rewrite decide_True.
      * now rewrite decide_False by tauto.
    + rewrite lookup_insert_ne, decide_False by tauto. reflexivity.
Qed.

Lemma elem_of_add (a b : Agent) (set : AgentSet) : b ∈ add a set <-> b ∈ set \/ b = a.
Proof.
  unfold add. destruct (bool_decide_reflect (a ∈ set)) as [Hin|Hout].
  - split; [tauto | intros [H | ->]; assumption].
  - rewrite elem_of_app, list_elem_of_singleton. tauto.
Qed.

Lemma elem_of_remove (a b : Agent) (set : AgentSet) : b ∈ remove a set <-> b ∈ set /\ b <> a.
Proof.
  unfold remove. rewrite elem_of_List_filter.
  destruct (Nat.eqb_spec b a) as [->|Hne]; simpl; split; intros [? ?]; try done.
Qed.

Lemma NoDup_add (a : Agent) (set : AgentSet) : NoDup set -> NoDup (add a set).
Proof.
  intros Hset. unfold add. destruct (bool_decide_reflect (a ∈ set)) as [Hin|Hout];
    [exact Hset |].
  apply NoDup_app. split; [exact Hset | split].
  - intros x Hx Hxa. apply list_elem_of_singleton in Hxa. now subst.
  - apply NoDup_singleton.
Qed.

Lemma NoDup_remove (a : Agent) (set : AgentSet) : NoDup set -> NoDup (remove a set).
Proof. intros Hset. unfold remove. now apply NoDup_List_filter. Qed.

Lemma add_not_nil (a : Agent) (set : AgentSet) : add a set <> [].
Proof.
  unfold add. destruct (bool_decide_reflect (a ∈ set)) as [Hin|Hout].
  - intros ->. now apply not_elem_of_nil in Hin.
  - now destruct set.
Qed.

(** X28.  Who receives a broadcast.  After [_subscribe] the agent is among the
    subscribers of the document, next to those who were; after
    [_unsubscribe] it is not.  The subscribers of every other document are
    the same.  A broadcast goes to the subscribers of the document other
    than the excluded agent, and on a tidy index to each of them once. *)
Theorem broadcast_reaches_subscribers (subs : Subscriptions) (c d c' d' : string)
    (a b : Agent) (ex : option Agent) :
  (b ∈ _broadcast (_subscribe subs c d a) c' d' ex
   <-> Some b <> ex /\ (b ∈ _broadcast subs c' d' None \/ (c = c' /\ d = d' /\ b = a))) /\
  (b ∈ _broadcast (_unsubscribe subs c d a) c' d' ex
   <-> Some b <> ex /\ b ∈ _broadcast subs c' d' None /\ ~ (c = c' /\ d = d' /\ b = a)) /\
  (tidy subs -> NoDup (_broadcast subs c d ex)).
Proof.
  split; [| split].
  - rewrite broadcast_filter, elem_of_List_filter, negb_true_iff, bool_decide_eq_false.
    rewrite subscribers_subscribe.
    destruct (decide (c = c' /\ d = d')) as [[<- <-]|Hne].
    + rewrite elem_of_add. tauto.
    + tauto.
  - rewrite broadcast_filter, elem_of_List_filter, negb_true_iff, bool_decide_eq_false.
    rewrite subscribers_unsubscribe.
    destruct (decide (c = c' /\ d = d')) as [[<- <-]|Hne].
    + rewrite elem_of_remove. tauto.
    + tauto.
  - intros Htidy. rewrite broadcast_filter. apply NoDup_List_filter.
    rewrite broadcast_to_all.
    destruct (subs !! c) as [cs|] eqn:Hcs; [| apply NoDup_nil_2]. simpl.
    destruct (cs !! d) as [s|] eqn:Hs; [| apply NoDup_nil_2]. simpl.
    exact (proj2 (proj2 (Htidy c cs Hcs) d s Hs)).
Qed.

Lemma tidy_empty : tidy ∅.
Proof. intros c cs H. unfold Subscriptions, AgentSet in *. now rewrite lookup_empty in H. Qed.

Lemma tidy_subscribe (subs : Subscriptions) (c d : string) (a : Agent) :
  tidy subs -> tidy (_subscribe subs c d a).
Proof.
  intros Htidy c' cs'. unfold _subscribe, Subscriptions, AgentSet in *. cbn zeta.
  destruct (decide (c = c')) as [<-|Hc].
  - rewrite lookup_insert_eq. intros H. injection H as <-.
    split; [apply insert_non_empty |].
    intros d' s. destruct (decide (d = d')) as [<-|Hd].
    + rewrite lookup_insert_eq. intros H. injection H as <-.
      split; [apply add_not_nil |]. apply NoDup_add.
      destruct (subs !! c) as [cs|] eqn:Hcs; simpl; [| rewrite lookup_empty; apply NoDup_nil_2].
      destruct (cs !! d) as [s|] eqn:Hs; simpl; [| apply NoDup_nil_2].
      exact (proj2 (proj2 (Htidy c cs Hcs) d s Hs)).
    + rewrite lookup_insert_ne by done.
      destruct (subs !! c) as [cs|] eqn:Hcs; simpl; [| now rewrite lookup_empty].
      apply (proj2 (Htidy c cs Hcs)).
  - rewrite lookup_insert_ne by done. apply Htidy.
Qed.

Lemma tidy_unsubscribe (subs : Subscriptions) (c d : string) (a : Agent) :
  tidy subs -> tidy (_unsubscribe subs c d a).
Proof.
  intros Htidy. unfold tidy, _unsubscribe, Subscriptions, AgentSet in *.
  destruct (subs !! c) as [cs|] eqn:Hcs; [| exact Htidy].
  destruct (cs !! d) as [s|] eqn:Hs; [| exact Htidy].
  match goal with |- context [size ?m] => set (cs' := m) end.
  assert (Hcs' : forall d' s', cs' !! d' = Some s' -> s' <> [] /\ NoDup s').
  { intros d' s'. unfold cs'.
    destruct (Nat.eqb_spec (length (remove a s)) 0) as [Hlen|Hlen].
    - intros H. apply lookup_delete_Some in H as [_ H].
      exact (proj2 (Htidy c cs Hcs) d' s' H).
    - destruct (decide (d = d')) as [<-|Hd].
      + rewrite lookup_insert_eq. intros H. injection H as <-. split.
        * intros Hnil. rewrite Hnil in Hlen. now apply Hlen.
        * apply NoDup_remove. exact (proj2 (proj2 (Htidy c cs Hcs) d s Hs)).
      + rewrite lookup_insert_ne by done. apply (proj2 (Htidy c cs Hcs)). }
  destruct (Nat.eqb_spec (size cs') 0) as [Hsize|Hsize]; intros c' cs''.
  - intros H. apply lookup_delete_Some in H as [_ H]. exact (Htidy c' cs'' H).
  - destruct (decide (c = c')) as [<-|Hc].
    + rewrite lookup_insert_eq. intros H. injection H as <-.
      split; [now apply map_size_non_empty_iff | exact Hcs'].
    + rewrite lookup_insert_ne by done. apply Htidy.
Qed.

(** X29.  The index stays tidy: it starts empty, and neither [_subscribe] nor
    [_unsubscribe] leaves an empty set of agents, an empty collection map or
    an agent listed twice behind. *)
Theorem subscriptions_stay_tidy (subs : Subscriptions) (c d : string) (a : Agent) :
  tidy ∅ /\
  (tidy subs -> tidy (_subscribe subs c d a) /\ tidy (_unsubscribe subs c d a)).
Proof.
  split; [exact tidy_empty |].
  intros Htidy. split; [now apply tidy_subscribe | now apply tidy_unsubscribe].
Qed.

Lemma remove_add (a : Agent) (set : AgentSet) : a ∉ set -> remove a (add a set) = set.
Proof.
  intros Hout. unfold add. rewrite bool_decide_false by exact Hout.
  unfold remove. rewrite List.filter_app. simpl. rewrite Nat.eqb_refl. simpl.
  rewrite app_nil_r. induction set as [|x set IH]; [reflexivity |].
  apply not_elem_of_cons in Hout as [Hx Hset]. simpl.
  destruct (Nat.eqb_spec x a) as [->|_]; [done |]. simpl. now rewrite IH.
Qed.

(** X30.  Unsubscribing undoes subscribing: on a tidy index, when the agent was
    not subscribed to the document, [_subscribe] followed by [_unsubscribe]
    gives back the index as it was, with no trace of the collection or the
    document left behind. *)
Theorem unsubscribe_undoes_subscribe (subs : Subscriptions) (c d : string) (a : Agent) :
  tidy subs ->
  a ∉ _broadcast subs c d None ->
  _unsubscribe (_subscribe subs c d a) c d a = subs.
Proof.
  intros Htidy Hout. rewrite broadcast_to_all in Hout.
  unfold _unsubscribe, _subscribe, Subscriptions, AgentSet in *. cbn zeta.
  rewrite lookup_insert_eq, lookup_insert_eq.
  destruct (subs !! c) as [cs|] eqn:Hcs; simpl in *.
  - destruct (Htidy c cs Hcs) as [Hne Hsets].
    destruct (cs !! d) as [s|] eqn:Hs; simpl in *.
    + destruct (Hsets d s Hs) as [Hnil _].
      rewrite remove_add by exact Hout.
      destruct (Nat.eqb_spec (length s) 0) as [Hlen|Hlen];
        [now apply nil_length_inv in Hlen |].
      rewrite insert_insert_eq, (insert_id cs d s Hs).
      destruct (Nat.eqb_spec (size cs) 0) as [Hsize|Hsize];
        [now apply map_size_empty_iff in Hsize |].
      rewrite insert_insert_eq. now apply insert_id.
    + rewrite Nat.eqb_refl. simpl.
      rewrite delete_insert_eq, (delete_id cs d Hs).
      destruct (Nat.eqb_spec (size cs) 0) as [Hsize|Hsize];
        [now apply map_size_empty_iff in Hsize |].
      rewrite insert_insert_eq. now apply insert_id.
  - rewrite lookup_empty. simpl. rewrite Nat.eqb_refl. simpl.
    rewrite delete_insert_eq, delete_empty, map_size_empty. simpl.
    rewrite delete_insert_eq. now apply delete_id.
Qed.

Lemma subscriptions_stay_tidy_witness : tidy (_subscribe ∅ "docs" "d1" 1%nat).
Proof.
  apply (proj2 (subscriptions_stay_tidy ∅ "docs" "d1" 1%nat)).
  apply (proj1 (subscriptions_stay_tidy ∅ "docs" "d1" 1%nat)).
Defined.

Lemma unsubscribe_undoes_subscribe_witness :
  _unsubscribe (_subscribe (_subscribe ∅ "docs" "d1" 1%nat) "docs" "d2" 2%nat)
               "docs" "d2" 2%nat
  = _subscribe ∅ "docs" "d1" 1%nat.
Proof.
  apply (unsubscribe_undoes_subscribe (_subscribe ∅ "docs" "d1" 1%nat) "docs" "d2" 2%nat).
  - apply tidy_subscribe, tidy_empty.
  - vm_compute. intros H. inversion H.
Defined.

Lemma broadcast_reaches_subscribers_witness :
  NoDup (_broadcast (_subscribe ∅ "docs" "d1" 1%nat) "docs" "d1" (Some 1%nat)).
Proof.
  apply (broadcast_reaches_subscribers (_subscribe ∅ "docs" "d1" 1%nat)
           "docs" "d1" "docs" "d1" 1%nat 1%nat (Some 1%nat)).
  apply tidy_subscribe, tidy_empty.
Defined.

End BackendLaws.
